(** * The command-and-control relay of [src/index.js], embedded in Rocq

  The relay keeps its state in process-wide [Map]s (sessions, pending
  prompts, the upload limiter, the device cache), talks to a chat
  gateway and a realtime store, and exposes an HTTP surface for the
  device agent.  The embedding follows the source function by function:

  - JavaScript strings are [string]s whose characters are read as code
    units below 256 (the short literal answers are kept as the source
    file spells them); paths, whose bytes matter, are lists of code
    points; timestamps, chat ids and counts are [Z];
  - the [Map]s that are only looked up are [gmap]s; [userSessions], which
    is iterated, and the objects whose iteration order matters (store
    snapshots, permission objects) are association lists;
  - handlers run in a small state-and-exception monad over the maps and
    a log of the gateway and store calls they issue. *)

From Stdlib Require Import ZArith NArith Lia List Bool Ascii String
  DecimalString.
From stdpp Require Import base option gmap strings list fin_maps.

Local Open Scope Z_scope.

(** ** JavaScript string primitives used by the handlers *)

Module Js.

(** [Number.prototype.toString()] of an integer-valued number. *)
Definition decimal (n : Z) : string := NilZero.string_of_int (Z.to_int n).

(** White space and line terminators among the code units below 256:
    TAB, LF, VT, FF, CR, SP and NBSP. *)
Definition is_space (c : ascii) : bool :=
  match N_of_ascii c with
  | 9 | 10 | 11 | 12 | 13 | 32 | 160 => true
  | _ => false
  end%N.

Fixpoint trimStart (s : string) : string :=
  match s with
  | String c r => if is_space c then trimStart r else s
  | EmptyString => EmptyString
  end.

Fixpoint trimEnd (s : string) : string :=
  match s with
  | EmptyString => EmptyString
  | String c r =>
      match trimEnd r with
      | EmptyString =>
          if is_space c then EmptyString else String c EmptyString
      | r' => String c r'
      end
  end.

(** [String.prototype.trim]. *)
Definition trim (s : string) : string := trimEnd (trimStart s).

Definition digit (c : ascii) : option Z :=
  let n := Z.of_N (N_of_ascii c) in
  if (48 <=? n) && (n <=? 57) then Some (n - 48) else None.

(** The longest run of decimal digits at the head of [s], read as a
    number; [acc] is [None] until a first digit has been seen. *)
Fixpoint digits (acc : option Z) (s : string) : option Z :=
  match s with
  | String c r =>
      match digit c with
      | Some d => digits (Some (10 * default 0 acc + d)) r
      | None => acc
      end
  | EmptyString => acc
  end.

(** [parseInt(s, 10)]: leading white space, an optional sign, then the
    longest run of digits; [None] is [NaN]. *)
Definition parseInt (s : string) : option Z :=
  match trimStart s with
  | String "-" r => Z.opp <$> digits None r
  | String "+" r => digits None r
  | r => digits None r
  end.

Fixpoint repeat (c : ascii) (n : nat) : string :=
  match n with
  | O => EmptyString
  | S k => String c (repeat c k)
  end.

(** [s.padStart(target, c)] for a one-character pad string. *)
Definition padStart (target : nat) (c : ascii) (s : string) : string :=
  repeat c (target - String.length s) +:+ s.

(** [s.startsWith(p)]. *)
Definition startsWith (s p : string) : bool := String.prefix p s.

(** [s.slice(0, n)]. *)
Definition slice0 (n : nat) (s : string) : string := substring 0 n s.

Fixpoint drop (n : nat) (s : string) : string :=
  match n, s with
  | S k, String _ r => drop k r
  | _, _ => s
  end.

(** [s.replace(pat, rep)] with a string pattern: the first occurrence
    only. *)
Fixpoint replace (pat rep : string) (s : string) : string :=
  if String.prefix pat s then rep +:+ drop (String.length pat) s
  else match s with
       | String c r => String c (replace pat rep r)
       | EmptyString => EmptyString
       end.

(** [s.split(sep)] for a one-character separator. *)
Fixpoint split (sep : ascii) (s : string) : list string :=
  match s with
  | EmptyString => [EmptyString]
  | String c r =>
      if decide (c = sep) then EmptyString :: split sep r
      else match split sep r with
           | h :: t => String c h :: t
           | [] => [String c EmptyString]
           end
  end.

(** The code units of a string, in order. *)
Definition chars (s : string) : list ascii := list_ascii_of_string s.

(** Truthiness of a string value: only the empty string is falsy. *)
Definition truthy (s : string) : bool := negb (String.eqb s "").

(** Truthiness of an optional string ([undefined]/[null] is falsy). *)
Definition truthy_opt (o : option string) : bool :=
  match o with Some s => truthy s | None => false end.

End Js.

(** ** Path tokens ([enc], [dec], [parent]) *)

Module PathToken.

(** A path is a JavaScript string given by its code points, a surrogate
    pair counting as the one code point it encodes; the string is well
    formed when it holds no unpaired surrogate, that is when every code
    point is a Unicode scalar value. *)
Definition scalar (c : N) : bool :=
  ((c <? 0xD800) || ((0xDFFF <? c) && (c <? 0x110000)))%N.

Definition well_formed (p : list N) : Prop :=
  Forall (fun c => scalar c = true) p.

(** The code points of an ASCII literal. *)
Definition text (s : string) : list N :=
  map N_of_ascii (list_ascii_of_string s).

(** Six bits, most significant first: one base64 digit. *)
Definition sextet : Type := bool * bool * bool * bool * bool * bool.

Definition sextet_index (s : sextet) : N :=
  let '(b5, b4, b3, b2, b1, b0) := s in
  (N.b2n b5 * 32 + N.b2n b4 * 16 + N.b2n b3 * 8
   + N.b2n b2 * 4 + N.b2n b1 * 2 + N.b2n b0)%N.

Definition index_sextet (n : N) : sextet :=
  (N.testbit n 5, N.testbit n 4, N.testbit n 3,
   N.testbit n 2, N.testbit n 1, N.testbit n 0).

(** The URL-safe alphabet of RFC 4648, section 5. *)
Definition char_of_sextet (s : sextet) : ascii :=
  let n := sextet_index s in
  if (n <? 26)%N then ascii_of_N (n + 65)
  else if (n <? 52)%N then ascii_of_N (n + 71)
  else if (n <? 62)%N then ascii_of_N (n - 4)
  else if (n =? 62)%N then "-"%char else "_"%char.

(** Decoding accepts the URL-safe and the standard alphabet alike. *)
Definition sextet_of_char (c : ascii) : option sextet :=
  let n := N_of_ascii c in
  if (65 <=? n)%N && (n <=? 90)%N then Some (index_sextet (n - 65))
  else if (97 <=? n)%N && (n <=? 122)%N then Some (index_sextet (n - 71))
  else if (48 <=? n)%N && (n <=? 57)%N then Some (index_sextet (n + 4))
  else if (n =? 45)%N || (n =? 43)%N then Some (index_sextet 62)
  else if (n =? 95)%N || (n =? 47)%N then Some (index_sextet 63)
  else None.

(** Three bytes make four digits; a tail of one or two bytes makes two
    or three, and base64url appends no padding. *)
Fixpoint encode_bytes (bs : list ascii) : list sextet :=
  match bs with
  | [] => []
  | [Ascii a0 a1 a2 a3 a4 a5 a6 a7] =>
      [(a7, a6, a5, a4, a3, a2); (a1, a0, false, false, false, false)]
  | [Ascii a0 a1 a2 a3 a4 a5 a6 a7; Ascii b0 b1 b2 b3 b4 b5 b6 b7] =>
      [(a7, a6, a5, a4, a3, a2); (a1, a0, b7, b6, b5, b4);
       (b3, b2, b1, b0, false, false)]
  | Ascii a0 a1 a2 a3 a4 a5 a6 a7 :: Ascii b0 b1 b2 b3 b4 b5 b6 b7
      :: Ascii c0 c1 c2 c3 c4 c5 c6 c7 :: rest =>
      (a7, a6, a5, a4, a3, a2) :: (a1, a0, b7, b6, b5, b4)
      :: (b3, b2, b1, b0, c7, c6) :: (c5, c4, c3, c2, c1, c0)
      :: encode_bytes rest
  end.

Fixpoint decode_sextets (ss : list sextet) : list ascii :=
  match ss with
  | (a7, a6, a5, a4, a3, a2) :: (a1, a0, b7, b6, b5, b4)
      :: (b3, b2, b1, b0, c7, c6) :: (c5, c4, c3, c2, c1, c0) :: rest =>
      Ascii a0 a1 a2 a3 a4 a5 a6 a7 :: Ascii b0 b1 b2 b3 b4 b5 b6 b7
      :: Ascii c0 c1 c2 c3 c4 c5 c6 c7 :: decode_sextets rest
  | [(a7, a6, a5, a4, a3, a2); (a1, a0, b7, b6, b5, b4);
     (b3, b2, b1, b0, _, _)] =>
      [Ascii a0 a1 a2 a3 a4 a5 a6 a7; Ascii b0 b1 b2 b3 b4 b5 b6 b7]
  | [(a7, a6, a5, a4, a3, a2); (a1, a0, _, _, _, _)] =>
      [Ascii a0 a1 a2 a3 a4 a5 a6 a7]
  | _ => []
  end.

(** [buf.toString("base64url")]. *)
Definition base64url (bs : list ascii) : string :=
  string_of_list_ascii (map char_of_sextet (encode_bytes bs)).

(** [Buffer.from(t, "base64url")]: characters outside the alphabets are
    skipped. *)
Definition unbase64url (t : string) : list ascii :=
  decode_sextets (omap sextet_of_char (list_ascii_of_string t)).

(** The UTF-8 bytes of a scalar value. *)
Definition utf8_code (c : N) : list ascii :=
  (if c <? 0x80 then [ascii_of_N c]
   else if c <? 0x800 then
     [ascii_of_N (0xC0 + c / 64); ascii_of_N (0x80 + c mod 64)]
   else if c <? 0x10000 then
     [ascii_of_N (0xE0 + c / 4096); ascii_of_N (0x80 + (c / 64) mod 64);
      ascii_of_N (0x80 + c mod 64)]
   else
     [ascii_of_N (0xF0 + c / 262144); ascii_of_N (0x80 + (c / 4096) mod 64);
      ascii_of_N (0x80 + (c / 64) mod 64); ascii_of_N (0x80 + c mod 64)])%N.

(** [Buffer.from(s)]: the UTF-8 bytes of a string; an unpaired surrogate
    is written as U+FFFD. *)
Definition utf8_encode (s : list N) : list ascii :=
  flat_map (fun c => utf8_code (if scalar c then c else 0xFFFD%N)) s.

Definition continuation (b : N) : bool := ((0x80 <=? b) && (b <? 0xC0))%N.

(** [buf.toString()]: UTF-8 decoding of well-formed input.  Ill-formed
    input decodes with replacement characters, which the model leaves
    out: it is [None] here. *)
Fixpoint utf8_decode (bs : list ascii) : option (list N) :=
  match bs with
  | [] => Some []
  | b0 :: rest =>
      let n0 := N_of_ascii b0 in
      if (n0 <? 0x80)%N then cons n0 <$> utf8_decode rest
      else
        match rest with
        | [] => None
        | b1 :: rest1 =>
            let n1 := N_of_ascii b1 in
            if ((0xC2 <=? n0) && (n0 <? 0xE0))%N then
              if continuation n1
              then cons ((n0 - 0xC0) * 64 + (n1 - 0x80))%N
                     <$> utf8_decode rest1
              else None
            else
              match rest1 with
              | [] => None
              | b2 :: rest2 =>
                  let n2 := N_of_ascii b2 in
                  if ((0xE0 <=? n0) && (n0 <? 0xF0))%N then
                    let c := ((n0 - 0xE0) * 4096 + (n1 - 0x80) * 64
                              + (n2 - 0x80))%N in
                    if continuation n1 && continuation n2
                       && (0x800 <=? c)%N && scalar c
                    then cons c <$> utf8_decode rest2
                    else None
                  else
                    match rest2 with
                    | [] => None
                    | b3 :: rest3 =>
                        let n3 := N_of_ascii b3 in
                        let c := ((n0 - 0xF0) * 262144 + (n1 - 0x80) * 4096
                                  + (n2 - 0x80) * 64 + (n3 - 0x80))%N in
                        if ((0xF0 <=? n0) && (n0 <? 0xF5))%N
                           && continuation n1 && continuation n2
                           && continuation n3
                           && (0x10000 <=? c)%N && (c <? 0x110000)%N
                        then cons c <$> utf8_decode rest3
                        else None
                    end
              end
        end
  end.

(** [const enc = s => Buffer.from(s).toString("base64url")]. *)
Definition enc (s : list N) : string := base64url (utf8_encode s).

(** [const dec = b => Buffer.from(b, "base64url").toString()], on the
    tokens [enc] produces.  On other input the two part: for bytes that
    are not UTF-8 Node substitutes U+FFFD where this is [None], and Node
    stops at a padding character where this goes on decoding. *)
Definition dec (b : string) : option (list N) := utf8_decode (unbase64url b).

Definition slash : N := 47.

(** The backward scan of Node's POSIX [path.dirname] over the characters
    at indices [i], [i-1], ..., [1], handed over last character first:
    the index of the first slash met after a non-slash character. *)
Fixpoint dirname_scan (rev_chars : list N) (i : nat)
    (matchedSlash : bool) : option nat :=
  match rev_chars, i with
  | c :: rest, S j =>
      if (c =? slash)%N then
        if matchedSlash then dirname_scan rest j matchedSlash else Some i
      else dirname_scan rest j false
  | _, _ => None
  end.

(** Node's POSIX [path.dirname]. *)
Definition dirname (path : list N) : list N :=
  match path with
  | [] => text "."
  | c0 :: _ =>
      let hasRoot := (c0 =? slash)%N in
      match dirname_scan (rev path) (length path - 1) true with
      | None => if hasRoot then text "/" else text "."
      | Some e =>
          if hasRoot && (e =? 1)%nat then text "//" else take e path
      end
  end.

(** [const parent = k => enc(path.dirname(dec(k)))]. *)
Definition parent (k : string) : option string :=
  (fun p => enc (dirname p)) <$> dec k.

End PathToken.

(** ** Formatting utilities ([formatFileSize]) *)

Module Format.

(** The integer nearest to [x / d], the larger one on a tie. *)
Definition round_half_up (x d : Z) : Z := (2 * x + d) / (2 * d).

(** The [f] digits after the point of [n / 10^f]. *)
Definition fraction (f : nat) (n : Z) : string :=
  Js.padStart f "0" (Js.decimal (n mod 10 ^ Z.of_nat f)).

(** [n / 10^f] in fixed-point notation. *)
Definition fixed_point (f : nat) (n : Z) : string :=
  match f with
  | O => Js.decimal n
  | S _ => Js.decimal (n / 10 ^ Z.of_nat f) +:+ "." +:+ fraction f n
  end.

(** [(num / den).toFixed(f)] for a non-negative quotient below 10^21:
    the integer [n] with [n / 10^f] nearest to the quotient, the larger
    one on a tie, written with [f] digits after the point. *)
Definition toFixed (num den : Z) (f : nat) : string :=
  fixed_point f (round_half_up (num * 10 ^ Z.of_nat f) den).

(** [formatFileSize(bytes)] for an integer byte count.  Dividing by a
    power of two is exact in binary floating point, so the quotients are
    the rationals [bytes / 1024^k]. *)
Definition formatFileSize (bytes : Z) : string :=
  if bytes <? 1024 then Js.decimal bytes +:+ " B"
  else if bytes <? 1024 * 1024 then toFixed bytes 1024 1 +:+ " KB"
  else if bytes <? 1024 * 1024 * 1024
       then toFixed bytes (1024 * 1024) 1 +:+ " MB"
  else toFixed bytes (1024 * 1024 * 1024) 2 +:+ " GB".

(** [n] is [x / d] rounded to the nearest integer. *)
Definition nearest (n x d : Z) : Prop := 2 * Z.abs (n * d - x) <= d.

End Format.

(** ** Upload rate limiter ([checkUploadRate]) *)

Module RateLimiter.

(** One entry of [uploadLimiter]: [{ count, window }]. *)
Record limits := Limits { count : Z; window : Z }.

Definition UPLOAD_LIMIT : Z := 10.
Definition UPLOAD_WINDOW : Z := 60000.

(** [checkUploadRate(deviceId)] with [Date.now()] passed as [now] and the
    [uploadLimiter] map threaded through.  The entry fetched from the map
    is the object that is mutated and stored back, so one functional
    update of the map accounts for both. *)
Definition checkUploadRate (now : Z) (deviceId : string)
    (uploadLimiter : gmap string limits) : bool * gmap string limits :=
  let deviceLimits :=
    default (Limits 0 now) (uploadLimiter !! deviceId) in
  let deviceLimits :=
    if bool_decide (now - window deviceLimits > UPLOAD_WINDOW)
    then Limits 0 now
    else deviceLimits in
  let deviceLimits := Limits (count deviceLimits + 1) (window deviceLimits) in
  (bool_decide (count deviceLimits <= UPLOAD_LIMIT),
   <[deviceId := deviceLimits]> uploadLimiter).

(** A burst of calls for one device, at the given clock readings; the
    answers are collected in call order. *)
Fixpoint burst (deviceId : string) (times : list Z)
    (uploadLimiter : gmap string limits) : list bool * gmap string limits :=
  match times with
  | [] => ([], uploadLimiter)
  | now :: rest =>
      let '(ok, m) := checkUploadRate now deviceId uploadLimiter in
      let '(oks, m') := burst deviceId rest m in
      (ok :: oks, m')
  end.

(** The answers the policy prescribes for calls number [from], [from+1],
    ... of one window: accepted while the running count stays within the
    limit. *)
Fixpoint expected (from : Z) (n : nat) : list bool :=
  match n with
  | O => []
  | S k => bool_decide (from <= UPLOAD_LIMIT) :: expected (from + 1) k
  end.

End RateLimiter.


(** ** Shared state, store contents and the handler monad *)

Module Relay.

(** *** What the device agent keeps in the store *)

(** The [info] child of [devices/<key>/<deviceId>]; every field may be
    missing. *)
Record deviceInfo := DeviceInfo {
  info_model : option string;
  info_time : option Z;
  info_battery : option Z;
  info_storage : option (list (string * Z));
  info_permissions : option (list (string * bool));
  info_battery_optimization : option string }.

Record deviceData := DeviceData { info : option deviceInfo }.

(** *** Device summaries and the maps of [State Management] *)

Record deviceSummary := DeviceSummary {
  dev_id : string;
  dev_model : string;
  dev_lastSeen : Z;
  dev_online : bool;
  dev_battery : Z;
  dev_storage : list (string * Z);
  dev_permissions : list (string * bool) }.

Record cacheEntry := CacheEntry { devices : list deviceSummary; timestamp : Z }.

Record session := Session {
  key : string;
  selectedDevice : option string;
  lastActivity : Z;
  lastCommand : option string }.

Record authPrompt := AuthPrompt { messageId : Z; auth_timestamp : Z }.

Record customPrompt := CustomPrompt {
  label : string; promptId : Z; device : option string }.

Record operation := Operation {
  op_type : option string; startTime : Z; op_device : option string }.

(** A JavaScript [Map] that is iterated: entries in insertion order,
    one per key. *)
Definition jsmap (V : Type) : Type := list (Z * V).

Fixpoint map_get {V} (k : Z) (m : jsmap V) : option V :=
  match m with
  | [] => None
  | (k', v) :: rest => if decide (k' = k) then Some v else map_get k rest
  end.

(** [m.set(k, v)]: an existing key keeps its place. *)
Fixpoint map_set {V} (k : Z) (v : V) (m : jsmap V) : jsmap V :=
  match m with
  | [] => [(k, v)]
  | (k', v') :: rest =>
      if decide (k' = k) then (k, v) :: rest
      else (k', v') :: map_set k v rest
  end.

Fixpoint map_delete {V} (k : Z) (m : jsmap V) : jsmap V :=
  match m with
  | [] => []
  | (k', v') :: rest =>
      if decide (k' = k) then rest else (k', v') :: map_delete k rest
  end.

(** *** Screens

    One constructor per message template of the source, carrying the
    values interpolated into it; its text and its inline keyboard are
    fixed by the constructor. *)
Inductive screen :=
| LoginPrompt
| SystemStatus (devs : list deviceSummary)
| DeviceControls
| CurrentPermissions (time : Z) (perms : list (string * bool))
    (batteryOptStatus : string) (dev6 : string)
| ScanningPermissions
| PermissionCenter (dev6 : string)
| RequestingBatteryOptimization
| BatteryOptimizationSent (dev6 : string)
| SessionExpired
| ControlCenter (dev6 : string)
| ControlPanel (dev6 : string)
| FileExplorerMenu
| LocationServices
| DataExtraction
| StealthCenter
| PerfectionCenter
| CameraActions (front : bool)
| GalleryManager
| LoadingFrame (type : string) (i : nat)
| RecordingDuration (side : string)
| GalleryRequest (label : string)
| NothingToRefresh
| NoDevicesFound
| ConnectedDevices (devs : list deviceSummary)
| Authenticating
| AuthenticationSuccessful
| AuthenticationFailed
| InvalidNumber
| GalleryUploadStarted (label : string) (n : Z)
| LoginAndSelectFirst
| QueryTooShort
| SearchingFiles (query : string)
| LogoutConfirmation
| Goodbye
| Export (title : string) (part : option (nat * nat)) (chunk : string)
| PermissionStatus (time : Z) (granted total : nat) (percentage : option Z)
    (progressBar : nat * nat) (denied : list string)
    (grantedNames : list string) (dev6 : string).

(** *** Calls on the chat gateway, the store, the HTTP response and the
    file system, in the order a handler issues them *)

(** What is written on the HTTP response; [NoBody] is the bare status of
    [res.sendStatus], sent with its standard text. *)
Inductive responseBody :=
| NoBody
| OkBody
| OkWarning (warning : string)
| ErrorBody (message : string).

Inductive call :=
| AnswerCallbackQuery (id : string) (text : string) (show_alert : bool)
| SendMessage (chatId : Z) (s : screen)
| EditMessageText (chatId msgId : Z) (s : screen)
| SendAnimation (chatId : Z) (s : screen)
| SendMedia (kind : string) (chatId : Z) (caption : string)
| DeleteMessage (chatId msgId : Z)
| DbOnce (path : string)
| DbUpdate (path : string) (command : string) (chat msg ts : Z)
| Sleep (duration steps : Z)
| SetTimeoutDeviceSelection (chatId : Z) (ms : Z)
| Respond (status : Z) (body : responseBody).

(** A rejected promise or a thrown exception. *)
Record error := Error { message : string; description : option string }.

Inductive reply :=
| Done (message_id : Z)
| Thrown (e : error).

(** What lies outside the process: the clock, what each awaited call
    comes back with, and the children of [devices/<key>]. *)
Record env := Env {
  clock : nat -> Z;
  outcome : nat -> reply;
  store : string -> list (string * deviceData) }.

Record world := World {
  userSessions : jsmap session;
  awaitingAuth : gmap Z authPrompt;
  awaitingCustom : gmap Z customPrompt;
  activeOperations : gmap Z operation;
  deviceCache : gmap string cacheEntry;
  files : gset string;
  ticks : nat;
  log : list call }.

Inductive result (A : Type) :=
| Ret (a : A)
| Throw (e : error).
Arguments Ret {A} a.
Arguments Throw {A} e.

Definition M (A : Type) : Type := env -> world -> result A * world.

#[global] Instance M_ret : MRet M := fun A a _ w => (Ret a, w).

#[global] Instance M_bind : MBind M := fun A B f m e w =>
  match m e w with
  | (Ret a, w') => f a e w'
  | (Throw err, w') => (Throw err, w')
  end.

Definition throw {A} (err : error) : M A := fun _ w => (Throw err, w).

(** [try { m } catch (err) { h(err) }]. *)
Definition try_catch {A} (m : M A) (h : error -> M A) : M A := fun e w =>
  match m e w with
  | (Ret a, w') => (Ret a, w')
  | (Throw err, w') => h err e w'
  end.

(** [try { m } finally { f }]: an exception of [f] replaces the outcome
    of [m]. *)
Definition try_finally {A} (m : M A) (f : M unit) : M A := fun e w =>
  let '(r, w') := m e w in
  match f e w' with
  | (Ret _, w'') => (r, w'')
  | (Throw err, w'') => (Throw err, w'')
  end.

Definition gets {A} (f : world -> A) : M A := fun _ w => (Ret (f w), w).

Definition asks {A} (f : env -> A) : M A := fun e w => (Ret (f e), w).

Definition modify (f : world -> world) : M unit := fun _ w => (Ret tt, f w).

(** [Date.now()]: the next reading of the clock. *)
Definition date_now : M Z := fun e w =>
  (Ret (clock e (ticks w)),
   World (userSessions w) (awaitingAuth w) (awaitingCustom w)
     (activeOperations w) (deviceCache w) (files w) (S (ticks w)) (log w)).

Definition record (c : call) (w : world) : world :=
  World (userSessions w) (awaitingAuth w) (awaitingCustom w)
    (activeOperations w) (deviceCache w) (files w) (ticks w) (log w ++ [c]).

(** An awaited call: it is logged, and resolves or rejects as the
    environment decides for this position of the log. *)
Definition perform (c : call) : M Z := fun e w =>
  match outcome e (length (log w)) with
  | Done id => (Ret id, record c w)
  | Thrown err => (Throw err, record c w)
  end.

(** A call that cannot fail (a timer, a write on the HTTP response). *)
Definition emit (c : call) : M unit := fun _ w => (Ret tt, record c w).

Definition set_userSessions (f : jsmap session -> jsmap session)
    (w : world) : world :=
  World (f (userSessions w)) (awaitingAuth w) (awaitingCustom w)
    (activeOperations w) (deviceCache w) (files w) (ticks w) (log w).

Definition set_awaitingAuth
    (f : gmap Z authPrompt -> gmap Z authPrompt) (w : world) : world :=
  World (userSessions w) (f (awaitingAuth w)) (awaitingCustom w)
    (activeOperations w) (deviceCache w) (files w) (ticks w) (log w).

Definition set_awaitingCustom
    (f : gmap Z customPrompt -> gmap Z customPrompt) (w : world) : world :=
  World (userSessions w) (awaitingAuth w) (f (awaitingCustom w))
    (activeOperations w) (deviceCache w) (files w) (ticks w) (log w).

Definition set_activeOperations
    (f : gmap Z operation -> gmap Z operation) (w : world) : world :=
  World (userSessions w) (awaitingAuth w) (awaitingCustom w)
    (f (activeOperations w)) (deviceCache w) (files w) (ticks w) (log w).

Definition set_files (f : gset string -> gset string) (w : world) : world :=
  World (userSessions w) (awaitingAuth w) (awaitingCustom w)
    (activeOperations w) (deviceCache w) (f (files w)) (ticks w) (log w).

Definition set_deviceCache
    (f : gmap string cacheEntry -> gmap string cacheEntry) (w : world)
    : world :=
  World (userSessions w) (awaitingAuth w) (awaitingCustom w)
    (activeOperations w) (f (deviceCache w)) (files w) (ticks w) (log w).

End Relay.

(** ** Device directory ([getDevices]) *)

Module Devices.
Import Relay.

Definition DEVICE_CACHE_TTL : Z := 30000.

(** [v || d] on an optional string: missing and empty both give [d]. *)
Definition or_string (v : option string) (d : string) : string :=
  match v with
  | Some s => if Js.truthy s then s else d
  | None => d
  end.

(** [v || d] on an optional number: missing and zero both give [d]. *)
Definition or_number (v : option Z) (d : Z) : Z :=
  match v with
  | Some n => if decide (n = 0) then d else n
  | None => d
  end.

(** The callback mapped over [Object.entries(devices)], with the value
    of its [Date.now()] as [now]. *)
Definition summary (now : Z) (entry : string * deviceData) : deviceSummary :=
  let '(id, data) := entry in
  {| dev_id := id;
     dev_model := or_string (info data ≫= info_model) "Unknown";
     dev_lastSeen := or_number (info data ≫= info_time) 0;
     dev_online :=
       bool_decide (now - or_number (info data ≫= info_time) 0
                    < 5 * 60 * 1000);
     dev_battery := or_number (info data ≫= info_battery) (-1);
     dev_storage := default [] (info data ≫= info_storage);
     dev_permissions := default [] (info data ≫= info_permissions) |}.

Definition fetchDevices (key : string) : M (list deviceSummary) :=
  try_catch
    (perform (DbOnce ("devices/" +:+ key));;
     children ← asks (fun e => store e key);
     match children with
     | [] => mret []
     | _ =>
         deviceList ← mapM (fun entry =>
                              now ← date_now; mret (summary now entry))
                           children;
         now ← date_now;
         modify (set_deviceCache <[key := CacheEntry deviceList now]>);;
         mret deviceList
     end)
    (fun _ => mret []).

Definition getDevices (key : string) : M (list deviceSummary) :=
  cached ← gets (fun w => deviceCache w !! key);
  match cached with
  | Some c =>
      now ← date_now;
      if bool_decide (now - timestamp c < DEVICE_CACHE_TTL)
      then mret (devices c)
      else fetchDevices key
  | None => fetchDevices key
  end.



End Devices.

(** ** The chat side: callback and message handlers *)

Module Bot.
Import Relay Devices.

Record callbackQuery := CallbackQuery {
  cq_id : string; data : string; cq_chat : Z; cq_msg : Z }.

Record textMessage := TextMessage {
  text : option string; m_chat : Z; message_id : Z;
  reply_to_message : option Z }.

Definition answer (id text : string) (show_alert : bool) : M unit :=
  perform (AnswerCallbackQuery id text show_alert);; mret tt.

Definition editMessageText (chatId msgId : Z) (s : screen) : M unit :=
  perform (EditMessageText chatId msgId s);; mret tt.

Definition sendMessage (chatId : Z) (s : screen) : M Z :=
  perform (SendMessage chatId s).

(** [db.ref(path).update({command, chat, msg, ts: Date.now()})]. *)
Definition queue (path command : string) (chat msg : Z) : M unit :=
  ts ← date_now;
  perform (DbUpdate path command chat msg ts);; mret tt.

(** A field assignment on the session object held by [userSessions]. *)
Fixpoint map_alter {V} (f : V -> V) (k : Z) (m : jsmap V) : jsmap V :=
  match m with
  | [] => []
  | (k', v) :: rest =>
      if decide (k' = k) then (k', f v) :: rest
      else (k', v) :: map_alter f k rest
  end.

Definition updateActivity (chatId : Z) : M unit :=
  session ← gets (fun w => map_get chatId (userSessions w));
  match session with
  | Some _ =>
      now ← date_now;
      modify (set_userSessions (map_alter (fun s =>
        Session (key s) (selectedDevice s) now (lastCommand s)) chatId))
  | None => mret tt
  end.

Definition showDeviceSelection (chatId : Z) : M unit :=
  session ← gets (fun w => map_get chatId (userSessions w));
  match session with
  | None => mret tt
  | Some session =>
      devices ← getDevices (key session);
      match devices with
      | [] => perform (SendAnimation chatId NoDevicesFound);; mret tt
      | _ => sendMessage chatId (ConnectedDevices devices);; mret tt
      end
  end.

(** The frames [i = 0 .. steps] of [showAnimatedLoading]; the first
    failed edit ends the animation silently. *)
Fixpoint loading_frames (chatId msgId : Z) (type : string)
    (duration : Z) (steps : nat) (frames : list nat) : M unit :=
  match frames with
  | [] => mret tt
  | i :: rest =>
      shown ← try_catch
        (editMessageText chatId msgId (LoadingFrame type i);;
         (if bool_decide (i < steps)%nat
          then emit (Sleep duration (Z.of_nat steps)) else mret tt);;
         mret true)
        (fun _ => mret false);
      if shown : bool
      then loading_frames chatId msgId type duration steps rest
      else mret tt
  end.

Definition showAnimatedLoading (chatId msgId : Z) (type : string)
    (duration : Z) : M unit :=
  loading_frames chatId msgId type duration 8 (seq 0 9).

(** [s.includes(sub)]. *)
Definition includes (s sub : string) : bool :=
  match index 0 sub s with Some _ => true | None => false end.

(** [e.description && e.description.includes("message is not modified")]. *)
Definition not_modified (e : error) : bool :=
  match description e with
  | Some d => Js.truthy d && includes d "message is not modified"
  | None => false
  end.

(** The value at [devices/<key>/<deviceId>/info]. *)
Definition store_info (e : env) (key deviceId : string) : option deviceInfo :=
  (snd <$> find (fun p => String.eqb (fst p) deviceId) (store e key))
    ≫= info.

Definition devicePath (key deviceId : string) : string :=
  "devices/" +:+ key +:+ "/" +:+ deviceId.

(** The branch [data === "check_permissions"]. *)
Definition check_permissions (id : string) (chatId msgId : Z) : M unit :=
  try_catch
    (answer id "Checking permissions..." false;;
     session ← gets (fun w => map_get chatId (userSessions w));
     match session with
     | Some (Session key (Some dev) _ _) =>
         if Js.truthy dev then
           finished ← try_catch
             (perform (DbOnce (devicePath key dev +:+ "/info"));;
              deviceInfo ← asks (fun e => store_info e key dev);
              let storedPermissions :=
                default [] (deviceInfo ≫= info_permissions) in
              let batteryOptStatus :=
                or_string (deviceInfo ≫= info_battery_optimization)
                  "unknown" in
              match storedPermissions with
              | [] => mret false
              | _ =>
                  timestamp ← date_now;
                  try_catch
                    (editMessageText chatId msgId
                       (CurrentPermissions timestamp storedPermissions
                          batteryOptStatus (Js.slice0 6 dev));;
                     mret true)
                    (fun editError =>
                       if not_modified editError
                       then answer id "✅ Permissions up to date" false;;
                            mret true
                       else throw editError)
              end)
             (fun _ => mret false);
           if finished : bool then mret tt
           else
             editMessageText chatId msgId ScanningPermissions;;
             queue (devicePath key dev) "check_permissions" chatId msgId
         else answer id "⚠️ No device selected" true
     | _ => answer id "⚠️ No device selected" true
     end)
    (fun _ => answer id "❌ Error checking permissions" true).

(** The branch [data === "permissions_menu"]. *)
Definition permissions_menu (id : string) (chatId msgId : Z) : M unit :=
  try_catch
    (answer id "Opening permissions menu..." false;;
     session ← gets (fun w => map_get chatId (userSessions w));
     match session with
     | Some (Session key (Some dev) _ _) =>
         if Js.truthy dev
         then editMessageText chatId msgId
                (PermissionCenter (Js.slice0 6 dev))
         else answer id "⚠️ No device selected" true
     | _ => answer id "⚠️ No device selected" true
     end)
    (fun _ => answer id "❌ Error opening menu" true).

(** The branch [data === "battery_optimization"]. *)
Definition battery_optimization (id : string) (chatId msgId : Z) : M unit :=
  try_catch
    (answer id "🔋 Requesting battery optimization..." false;;
     session ← gets (fun w => map_get chatId (userSessions w));
     match session with
     | Some (Session key (Some dev) _ _) =>
         if Js.truthy dev then
           editMessageText chatId msgId RequestingBatteryOptimization;;
           queue (devicePath key dev) "request_battery_optimization"
             chatId msgId;;
           emit (Sleep 2000 1);;
           editMessageText chatId msgId
             (BatteryOptimizationSent (Js.slice0 6 dev))
         else answer id "⚠️ No device selected" true
     | _ => answer id "⚠️ No device selected" true
     end)
    (fun _ => answer id "❌ Error requesting battery optimization" true).

(** The own entries of [commandMap]: identifier, animation type and
    acknowledgement. *)
Definition commandTable : list (string * (string * string)) :=
  [ ("capture_front", ("photo", "📸 Capturing front photo..."));
    ("capture_back", ("photo", "📷 Capturing back photo..."));
    ("loc_now", ("location", "📍 Getting current location..."));
    ("loc_start", ("location", "🎯 Starting location tracking..."));
    ("loc_stop", ("location", "⏹️ Stopping location tracking..."));
    ("dump_contacts", ("contacts", "📱 Extracting contacts..."));
    ("dump_sms", ("sms", "💬 Extracting SMS messages..."));
    ("device_info", ("files", "📊 Getting device information..."));
    ("file_root", ("files", "📂 Loading file explorer..."));
    ("file_quick", ("files", "⚡ Loading quick access..."));
    ("file_storage", ("files", "💾 Calculating storage..."));
    ("battery_status", ("default", "🔋 Getting battery status..."));
    ("network_info", ("default", "📶 Getting network info..."));
    ("app_list", ("default", "📱 Getting app list..."));
    ("restart_services", ("default", "🔄 Restarting services..."));
    ("clipboard_monitor", ("monitoring", "📋 Accessing clipboard history..."));
    ("app_usage", ("monitoring", "📱 Analyzing app usage patterns..."));
    ("system_state", ("monitoring", "📊 Reading system state..."));
    ("input_patterns", ("monitoring", "⌨️ Analyzing input patterns..."));
    ("monitor_dashboard", ("stealth", "📈 Loading monitor dashboard..."));
    ("start_monitoring", ("stealth", "🔄 Starting stealth monitoring..."));
    ("stop_monitoring", ("stealth", "⏹️ Stopping monitoring..."));
    ("network_intelligence",
      ("perfection", "🌐 Analyzing network intelligence..."));
    ("behavior_analysis", ("perfection", "🧠 Processing behavior patterns..."));
    ("sensor_intelligence",
      ("perfection", "📡 Reading sensor intelligence..."));
    ("system_intelligence",
      ("perfection", "⚡ Analyzing system intelligence..."));
    ("perfection_dashboard",
      ("perfection", "📊 Loading perfection dashboard..."));
    ("start_perfection", ("perfection", "🚀 Starting enhanced perfection..."));
    ("stop_perfection", ("perfection", "⏹️ Stopping perfection service...")) ].

(** The property names every object literal inherits; looked up in
    [commandMap] they yield a truthy value without [type] or [msg]. *)
Definition inherited : list string :=
  [ "constructor"; "__defineGetter__"; "__defineSetter__"; "hasOwnProperty";
    "__lookupGetter__"; "__lookupSetter__"; "isPrototypeOf";
    "propertyIsEnumerable"; "toString"; "valueOf"; "__proto__";
    "toLocaleString" ].

(** [commandMap[data]], when truthy: its [type] and [msg], each possibly
    undefined. *)
Definition commandMap (data : string)
    : option (option string * option string) :=
  match find (fun p => String.eqb (fst p) data) commandTable with
  | Some (_, (type, msg)) => Some (Some type, Some msg)
  | None =>
      if existsb (String.eqb data) inherited then Some (None, None)
      else None
  end.

Definition isCommand (data : string) : bool :=
  Js.startsWith data "capture_" || Js.startsWith data "rec_"
  || Js.startsWith data "file_" || Js.startsWith data "filepage_"
  || Js.startsWith data "fileget_" || Js.startsWith data "gallery_"
  || Js.startsWith data "gopics_".

(** The answer given from [Session Check] when the chat has no session
    with an access key. *)
Definition sessionExpired (id : string) (chatId : Z) : M unit :=
  answer id "⚠️ Session expired. Please login again." true;;
  sendMessage chatId SessionExpired;; mret tt.

(** The part of the handler below [Device Check]: [dev] is the selected
    device. *)
Definition execute (id data : string) (chatId msgId : Z)
    (session : session) (dev : string) : M unit :=
  match commandMap data with
  | Some (type, msg) =>
      answer id (default "" msg) false;;
      now ← date_now;
      modify (set_activeOperations
                <[chatId := Operation type now (Some dev)]>);;
      showAnimatedLoading chatId msgId (default "default" type) 500;;
      queue (devicePath (key session) dev) data chatId msgId
  | None =>
      if isCommand data then
        answer id "⏳ Processing..." false;;
        let type :=
          if Js.startsWith data "gallery_" || Js.startsWith data "gopics_"
          then "gallery" else "files" in
        now ← date_now;
        modify (set_activeOperations
                  <[chatId := Operation (Some type) now (Some dev)]>);;
        showAnimatedLoading chatId msgId type 400;;
        modify (set_userSessions (map_alter (fun s =>
          Session (key s) (selectedDevice s) (lastActivity s) (Some data))
          chatId));;
        queue (devicePath (key session) dev) data chatId msgId
      else if bool_decide (data = "rec_front" ∨ data = "rec_back") then
        answer id "" false;;
        editMessageText chatId msgId (RecordingDuration (Js.drop 4 data))
      else if Js.startsWith data "gallery_custom_" then
        answer id "" false;;
        let label := Js.replace "gallery_custom_" "" data in
        prompt ← sendMessage chatId (GalleryRequest label);
        modify (set_awaitingCustom
                  <[chatId := CustomPrompt label prompt (Some dev)]>)
      else if bool_decide (data = "refresh_current") then
        answer id "🔄 Refreshing..." false;;
        session ← gets (fun w => map_get chatId (userSessions w));
        match session with
        | Some (Session key selected _ (Some last)) =>
            if Js.truthy last
            then queue (devicePath key (default "null" selected)) last
                   chatId msgId
            else editMessageText chatId msgId NothingToRefresh
        | _ => editMessageText chatId msgId NothingToRefresh
        end
      else answer id "" false
  end.

(** The part of the handler below [Session Check]: [session] is the
    session object of the chat. *)
Definition authenticated (id data : string) (chatId msgId : Z)
    (session : session) : M unit :=
  updateActivity chatId;;
  if Js.startsWith data "select_" then
    let deviceId := Js.replace "select_" "" data in
    modify (set_userSessions (map_alter (fun s =>
      Session (key s) (Some deviceId) (lastActivity s) (lastCommand s))
      chatId));;
    answer id "✅ Device selected" false;;
    showAnimatedLoading chatId msgId "default" 300;;
    editMessageText chatId msgId (ControlCenter (Js.slice0 6 deviceId))
  else if bool_decide (data = "main_menu") then
    answer id "" false;;
    editMessageText chatId msgId
      (ControlPanel
         (or_string (Js.slice0 6 <$> selectedDevice session) "None"))
  else if bool_decide (data = "file_menu") then
    answer id "" false;; editMessageText chatId msgId FileExplorerMenu
  else if bool_decide (data = "location_menu") then
    answer id "" false;; editMessageText chatId msgId LocationServices
  else if bool_decide (data = "data_menu") then
    answer id "" false;; editMessageText chatId msgId DataExtraction
  else if bool_decide (data = "stealth_menu") then
    answer id "" false;; editMessageText chatId msgId StealthCenter
  else if bool_decide (data = "perfection_menu") then
    answer id "" false;; editMessageText chatId msgId PerfectionCenter
  else if bool_decide (data = "cam_front" ∨ data = "cam_back") then
    answer id "" false;;
    editMessageText chatId msgId
      (CameraActions (bool_decide (data = "cam_front")))
  else if bool_decide (data = "gallery_root") then
    answer id "" false;; editMessageText chatId msgId GalleryManager
  else if Js.truthy_opt (selectedDevice session) then
    execute id data chatId msgId session
      (default "" (selectedDevice session))
  else
    answer id "⚠️ Please select a device first" true;;
    showDeviceSelection chatId.

(** The body of the [try] block of the callback handler. *)
Definition callback_body (q : callbackQuery) : M unit :=
  let id := cq_id q in
  let data := data q in
  let chatId := cq_chat q in
  let msgId := cq_msg q in
  if bool_decide (data = "login_start") then
    answer id "" false;;
    prompt ← sendMessage chatId LoginPrompt;
    now ← date_now;
    modify (set_awaitingAuth <[chatId := AuthPrompt prompt now]>)
  else if bool_decide (data = "system_status") then
    answer id "Loading system status..." false;;
    session ← gets (fun w => map_get chatId (userSessions w));
    match session with
    | None => mret tt
    | Some session =>
        devices ← getDevices (key session);
        sendMessage chatId (SystemStatus devices);; mret tt
    end
  else if bool_decide (data = "device_menu") then
    answer id "" false;; editMessageText chatId msgId DeviceControls
  else if bool_decide (data = "check_permissions") then
    check_permissions id chatId msgId
  else if bool_decide (data = "permissions_menu") then
    permissions_menu id chatId msgId
  else if bool_decide (data = "battery_optimization") then
    battery_optimization id chatId msgId
  else if bool_decide (data = "refresh_devices") then
    answer id "Refreshing device list..." false;;
    showDeviceSelection chatId
  else if bool_decide (data = "switch_device" ∨ data = "device_list") then
    answer id "" false;; showDeviceSelection chatId
  else
    session ← gets (fun w => map_get chatId (userSessions w));
    match session with
    | Some session =>
        if Js.truthy (key session)
        then authenticated id data chatId msgId session
        else sessionExpired id chatId
    | None => sessionExpired id chatId
    end.

(** [bot.on("callback_query", ...)]: the body under its catch-all. *)
Definition callback_query (q : callbackQuery) : M unit :=
  try_catch (callback_body q)
    (fun _ => answer (cq_id q) "❌ An error occurred. Please try again." true).

(** [m.reply_to_message?.message_id === expected]. *)
Definition replies_to (m : textMessage) (expected : Z) : bool :=
  match reply_to_message m with
  | Some r => bool_decide (r = expected)
  | None => false
  end.

(** The branch [Handle authentication] of the message handler. *)
Definition auth_reply (m : textMessage) (text : string) : M unit :=
  let chatId := m_chat m in
  let key := Js.trim text in
  modify (set_awaitingAuth (delete chatId));;
  try_catch (perform (DeleteMessage chatId (message_id m));; mret tt)
    (fun _ => mret tt);;
  loadingMsg ← perform (SendAnimation chatId Authenticating);
  perform (DbOnce ("devices/" +:+ key));;
  children ← asks (fun e => store e key);
  match children with
  | _ :: _ =>
      now ← date_now;
      modify (set_userSessions (map_set chatId (Session key None now None)));;
      perform (DeleteMessage chatId loadingMsg);;
      perform (SendAnimation chatId AuthenticationSuccessful);;
      emit (SetTimeoutDeviceSelection chatId 2000)
  | [] =>
      perform (DeleteMessage chatId loadingMsg);;
      perform (SendAnimation chatId AuthenticationFailed);; mret tt
  end.

(** The branch [Handle custom gallery count]; the result tells whether
    the handler returned from inside the branch. *)
Definition custom_reply (m : textMessage) (text : string)
    (customState : customPrompt) : M bool :=
  let chatId := m_chat m in
  match Js.parseInt (Js.trim text) with
  | Some n =>
      if bool_decide (n < 1 ∨ n > 200) then
        sendMessage chatId InvalidNumber;; mret true
      else
        session ← gets (fun w => map_get chatId (userSessions w));
        match session with
        | Some (Session key (Some dev) _ _) =>
            if Js.truthy dev then
              modify (set_awaitingCustom (delete chatId));;
              let cmd := "gopics_" +:+ label customState +:+ "_"
                         +:+ Js.padStart 3 "0" (Js.decimal n) in
              statusMsg ← sendMessage chatId
                            (GalleryUploadStarted (label customState) n);
              queue (devicePath key dev) cmd chatId statusMsg;;
              mret false
            else mret true
        | _ => mret true
        end
  | None => sendMessage chatId InvalidNumber;; mret true
  end.

(** The branch [Handle file search]. *)
Definition search (m : textMessage) (text : string) : M unit :=
  let chatId := m_chat m in
  if Js.startsWith text "/search " then
    session ← gets (fun w => map_get chatId (userSessions w));
    match session with
    | Some (Session key (Some dev) _ _) =>
        if Js.truthy dev then
          let query := Js.trim (Js.replace "/search " "" text) in
          if bool_decide (String.length query < 2)%nat then
            sendMessage chatId QueryTooShort;; mret tt
          else
            searchMsg ← sendMessage chatId (SearchingFiles query);
            queue (devicePath key dev) ("filesearch_" +:+ query)
              chatId searchMsg
        else sendMessage chatId LoginAndSelectFirst;; mret tt
    | _ => sendMessage chatId LoginAndSelectFirst;; mret tt
    end
  else mret tt.

(** The message handler below its authentication branch. *)
Definition custom_then_search (m : textMessage) (text : string) : M unit :=
  customState ← gets (fun w => awaitingCustom w !! m_chat m);
  match customState with
  | Some c =>
      if replies_to m (promptId c) then
        returned ← custom_reply m text c;
        if returned : bool then mret tt else search m text
      else search m text
  | None => search m text
  end.

(** [bot.on("message", ...)]. *)
Definition message (m : textMessage) : M unit :=
  match text m with
  | None => mret tt
  | Some text =>
      if negb (Js.truthy text) then mret tt
      else
        authState ← gets (fun w => awaitingAuth w !! m_chat m);
        match authState with
        | Some a =>
            if replies_to m (messageId a) then auth_reply m text
            else custom_then_search m text
        | None => custom_then_search m text
        end
  end.

(** The second listener on [callback_query] ([Logout handlers]); it runs
    for every callback query, next to the handler above, and has no
    [try] block. *)
Definition logout_handlers (q : callbackQuery) : M unit :=
  (if bool_decide (data q = "logout_confirm") then
     answer (cq_id q) "" false;;
     editMessageText (cq_chat q) (cq_msg q) LogoutConfirmation
   else mret tt);;
  (if bool_decide (data q = "logout_yes") then
     modify (set_userSessions (map_delete (cq_chat q)));;
     answer (cq_id q) "✅ Logged out successfully" true;;
     editMessageText (cq_chat q) (cq_msg q) Goodbye
   else mret tt).

(** The identifiers served by the logout listener. *)
Definition logout_identifiers : list string :=
  [ "logout_confirm"; "logout_yes" ].

(** The identifiers whose branches stand above [Session Check]. *)
Definition pre_session : list string :=
  [ "login_start"; "system_status"; "device_menu"; "check_permissions";
    "permissions_menu"; "battery_optimization"; "refresh_devices";
    "switch_device"; "device_list" ].

(** The chat has no session carrying an access key. *)
Definition no_keyed_session (chatId : Z) (w : world) : Prop :=
  match map_get chatId (userSessions w) with
  | Some s => key s = ""
  | None => True
  end.

Definition expired_alert (id : string) : call :=
  AnswerCallbackQuery id "⚠️ Session expired. Please login again." true.

Definition error_alert (id : string) : call :=
  AnswerCallbackQuery id "❌ An error occurred. Please try again." true.

Definition is_expired_alert (c : call) : bool :=
  match c with
  | AnswerCallbackQuery _ t true =>
      String.eqb t "⚠️ Session expired. Please login again."
  | _ => false
  end.

(** The maps of the process are the same in both worlds. *)
Definition same_maps (w w' : world) : Prop :=
  userSessions w' = userSessions w
  /\ awaitingAuth w' = awaitingAuth w
  /\ awaitingCustom w' = awaitingCustom w
  /\ activeOperations w' = activeOperations w
  /\ deviceCache w' = deviceCache w.



End Bot.

(** ** Inline keyboards *)

Module Menus.
Import Relay.

(** A keyboard is given by the [callback_data] of its buttons, row by
    row. *)
Definition keyboard : Type := list (list string).

Definition getMainMenu (includeBack : bool) : keyboard :=
  [ ["gallery_root"]; ["file_menu"]; ["cam_front"; "cam_back"];
    ["location_menu"]; ["data_menu"]; ["stealth_menu"];
    ["perfection_menu"]; ["device_menu"]; ["permissions_menu"] ]
  ++ (if includeBack then [["switch_device"; "device_list"]] else []).

Definition getFileMenu : keyboard :=
  [ ["file_root"]; ["file_quick"]; ["file_storage"];
    ["file_search_prompt"]; ["main_menu"] ].

Definition getLocationMenu : keyboard := [ ["loc_now"]; ["main_menu"] ].

Definition getDataMenu : keyboard :=
  [ ["dump_contacts"]; ["dump_sms"]; ["device_info"]; ["main_menu"] ].

Definition getDeviceMenu : keyboard :=
  [ ["battery_status"]; ["network_info"]; ["app_list"];
    ["restart_services"]; ["main_menu"] ].

Definition getStealthMenu : keyboard :=
  [ ["clipboard_monitor"]; ["app_usage"];
    ["system_state"; "input_patterns"]; ["monitor_dashboard"];
    ["start_monitoring"; "stop_monitoring"]; ["main_menu"] ].

Definition getEnhancedPerfectionMenu : keyboard :=
  [ ["network_intelligence"]; ["behavior_analysis"];
    ["sensor_intelligence"; "system_intelligence"];
    ["perfection_dashboard"];
    ["start_perfection"; "stop_perfection"]; ["main_menu"] ].

Definition getBackMenuButtons (mainCallback : string) : keyboard :=
  [ ["refresh_current"; mainCallback] ].

Definition getGalleryMenuButtons : keyboard :=
  [ ["gallery_root"; "main_menu"] ].

Definition gallery : list string :=
  [ "whatsapp"; "screenshots"; "snapchat"; "camera"; "instagram";
    "downloads"; "telegram"; "all" ].

(** Two folder buttons per row. *)
Fixpoint pairs (l : list string) : keyboard :=
  match l with
  | a :: b :: rest => [a; b] :: pairs rest
  | [a] => [[a]]
  | [] => []
  end.

Definition getGalleryKeyboard (includeBack : bool) : keyboard :=
  pairs (map (fun g => "gallery_" +:+ g)
           (filter (fun g => g ≠ "all") gallery))
  ++ [["gallery_all"]]
  ++ (if includeBack then [["main_menu"]] else []).

(** The [inline_keyboard] sent along with each screen; screens sent with
    [force_reply] or without markup have none. *)
Definition reply_markup (s : screen) : keyboard :=
  match s with
  | SystemStatus _ => [["device_list"]]
  | DeviceControls => getDeviceMenu
  | CurrentPermissions _ _ _ _ => [["check_permissions"]; ["main_menu"]]
  | PermissionCenter _ =>
      [["check_permissions"]; ["battery_optimization"]; ["main_menu"]]
  | BatteryOptimizationSent _ => [["permissions_menu"]]
  | ControlCenter _ | ControlPanel _ | NothingToRefresh => getMainMenu true
  | FileExplorerMenu => getFileMenu
  | LocationServices => getLocationMenu
  | DataExtraction => getDataMenu
  | StealthCenter => getStealthMenu
  | PerfectionCenter => getEnhancedPerfectionMenu
  | CameraActions front =>
      let side := if front then "front" else "back" in
      [["capture_" +:+ side; "rec_" +:+ side]; ["main_menu"]]
  | GalleryManager => getGalleryKeyboard true
  | RecordingDuration side =>
      [ ["rec_" +:+ side +:+ "_00.5"; "rec_" +:+ side +:+ "_01"];
        ["rec_" +:+ side +:+ "_02"; "rec_" +:+ side +:+ "_05"];
        ["cam_" +:+ side] ]
  | ConnectedDevices devs =>
      map (fun dev => ["select_" +:+ dev_id dev]) devs
      ++ [["refresh_devices"; "system_status"]; ["logout_confirm"]]
  | InvalidNumber => [["gallery_root"; "main_menu"]]
  | LogoutConfirmation => [["logout_yes"; "device_list"]]
  | GalleryUploadStarted _ _ =>
      [["refresh_current"; "gallery_cancel"]; ["gallery_root"; "main_menu"]]
  | PermissionStatus _ _ _ _ _ _ _ _ =>
      [["check_permissions"]; ["permissions_menu"]]
  | _ => []
  end.

End Menus.

(** ** The device side: HTTP ingestion endpoints *)

Module Ingress.
Import Relay.

Record deviceAuth := DeviceAuth { auth_key : string; deviceId : string }.

(** [getDeviceInfo(authHeader)]; [None] is the missing header on the way
    in and [null] on the way out. *)
Definition getDeviceInfo (authHeader : option string) : option deviceAuth :=
  match authHeader with
  | None => None
  | Some header =>
      if Js.truthy header then
        match Js.split ":" header with
        | k :: d :: _ => Some (DeviceAuth k d)
        | _ => None
        end
      else None
  end.

(** [getActiveSessions(key)]: the chats bound to the key, in the order
    of [userSessions]. *)
Definition getActiveSessions (k : string) : M (list (Z * session)) :=
  gets (fun w => filter (fun p => key (snd p) = k) (userSessions w)).

(** Every route registered with [app.post] apart from the webhook. *)
Inductive endpoint :=
| Capture | Video | JsonLocation | TextContacts | TextSms | File
| JsonFilelist | JsonStorageInfo | JsonGallerycount | GalleryPhoto
| JsonGalleryStatus | JsonFileStatus | JsonStatus | JsonError
| JsonPermissions | JsonPermissionRequest | JsonDeviceStatus
| JsonStealthMonitor | JsonBatteryStatus | JsonNetworkInfo
| JsonDeviceInfo | JsonAppList | JsonEnhancedPerfection.

(** A request as the route handler receives it: the [x-auth] header, the
    path of the uploaded temporary file, and the parsed body. *)
Record request := Request {
  x_auth : option string;
  file : option string;
  body : string;
  chat_id : Z;
  msg_id : Z;
  permissions : option (list (string * bool)) }.

(** Code units at which [.] does not match: LF and CR (the separators
    U+2028 and U+2029 lie outside the modelled range). *)
Definition is_line_terminator (c : ascii) : bool :=
  match N_of_ascii c with
  | 10 | 13 => true
  | _ => false
  end%N.

(** The string whose characters are those of [cur], last first, followed
    by [acc]. *)
Fixpoint unwind (cur : list ascii) (acc : string) : string :=
  match cur with
  | [] => acc
  | c :: r => unwind r (String c acc)
  end.

Definition flush (cur : list ascii) (rest : list string) : list string :=
  match cur with
  | [] => rest
  | _ => unwind cur EmptyString :: rest
  end.

(** [s.match(new RegExp(`.{1,${maxLength}}`, "g")) || []]: scanning left
    to right, each match is the longest run of at most [maxLength]
    characters matched by [.]; [cur] holds the run under construction,
    last character first, and [room] the number of characters it may
    still take. *)
Fixpoint match_go (maxLength : nat) (cur : list ascii) (room : nat)
    (s : string) : list string :=
  match s with
  | EmptyString => flush cur []
  | String c r =>
      if is_line_terminator c
      then flush cur (match_go maxLength [] maxLength r)
      else match room with
           | O => flush cur (match_go maxLength [c] (maxLength - 1) r)
           | S room' => match_go maxLength (c :: cur) room' r
           end
  end.

Definition match_chunks (maxLength : nat) (s : string) : list string :=
  match_go maxLength [] maxLength s.

(** The characters of all chunks, in order. *)
Definition joined (chunks : list string) : list ascii :=
  concat (map Js.chars chunks).

(** A chunk holds between one and [maxLength] characters. *)
Definition bounded (maxLength : nat) (chunk : string) : Prop :=
  (1 <= String.length chunk <= maxLength)%nat.

(** The messages one chat receives for an export body. *)
Definition export_screens (title data : string) : list screen :=
  let maxLength := 4000%nat in
  if (maxLength <? String.length data)%nat then
    let chunks := match_chunks maxLength data in
    imap (fun i chunk => Export title (Some (S i, length chunks)) chunk)
      chunks
  else [Export title None data].

(** The loop [for (const {chatId} of sessions)] of the text endpoints; a
    failed send abandons the remaining parts of that chat only. *)
Fixpoint export_fanout (title data : string) (sessions : list (Z * session))
    : M unit :=
  match sessions with
  | [] => mret tt
  | (chatId, _) :: rest =>
      try_catch
        (mapM (fun s => perform (SendMessage chatId s))
           (export_screens title data);; mret tt)
        (fun _ => mret tt);;
      export_fanout title data rest
  end.

(** The handlers of [/text/contacts] and [/text/sms] below their guard. *)
Definition text_export (title : string) (deviceInfo : deviceAuth)
    (req : request) : M unit :=
  sessions ← getActiveSessions (auth_key deviceInfo);
  export_fanout title (body req) sessions;;
  emit (Respond 200 OkBody).

Section Routes.

(** [Math.round((granted / total) * 100)] for a positive total, as
    floating-point arithmetic computes it. *)
Variable round_percent : nat -> nat -> Z.

(** The handlers of the remaining routes below their guard. *)
Variable render : endpoint -> deviceAuth -> request -> M unit.

(** [permissionPercentage]; [None] is [NaN], the value of [0 / 0]. *)
Definition permissionPercentage (perms : list (string * bool))
    : option Z :=
  match perms with
  | [] => None
  | _ => Some (round_percent (length (filter (fun p => snd p = true) perms))
                 (length perms))
  end.

(** [Math.floor(percentage / 10)] and [10 - Math.floor(percentage / 10)]
    as the counts handed to [String.prototype.repeat]: [NaN] repeats
    zero times, a negative count throws a [RangeError]. *)
Definition segments (percentage : option Z) : M (nat * nat) :=
  match percentage with
  | None => mret (O, O)
  | Some p =>
      if bool_decide (0 <= p / 10 <= 10)
      then mret (Z.to_nat (p / 10), Z.to_nat (10 - p / 10))
      else throw (Error "Invalid count value" None)
  end.

(** The handler of [/json/permissions] below its guard; [Object.keys] of
    a missing permissions object throws a [TypeError]. *)
Definition permissions_report (deviceInfo : deviceAuth) (req : request)
    : M unit :=
  match permissions req with
  | None => throw (Error "Cannot convert undefined or null to object" None)
  | Some perms =>
      let totalPermissions := length perms in
      let grantedPermissions :=
        length (filter (fun p => snd p = true) perms) in
      let percentage := permissionPercentage perms in
      timestamp ← date_now;
      progressBar ← segments percentage;
      let grantedPerms := fst <$> filter (fun p => snd p = true) perms in
      let deniedPerms := fst <$> filter (fun p => snd p = false) perms in
      edited ← try_catch
        (perform (EditMessageText (chat_id req) (msg_id req)
                    (PermissionStatus timestamp grantedPermissions
                       totalPermissions percentage progressBar deniedPerms
                       grantedPerms (Js.slice0 6 (deviceId deviceInfo))));;
         mret true)
        (fun editError =>
           if Bot.not_modified editError then mret false
           else throw editError);
      if edited : bool then emit (Respond 200 OkBody) else mret tt
  end.

Definition route (ep : endpoint) (deviceInfo : deviceAuth)
    (req : request) : M unit :=
  match ep with
  | TextContacts => text_export "Contacts Export" deviceInfo req
  | TextSms => text_export "SMS Export" deviceInfo req
  | JsonPermissions => permissions_report deviceInfo req
  | _ => render ep deviceInfo req
  end.

(** [fs.unlinkSync(path)]. *)
Definition unlinkSync (path : string) : M unit := fun _ w =>
  if bool_decide (path ∈ files w)
  then (Ret tt, set_files (fun fs => fs ∖ {[path]}) w)
  else (Throw (Error "ENOENT: no such file or directory" None), w).

(** The [finally] block of the multipart routes. *)
Definition cleanup (ep : endpoint) (req : request) : M unit :=
  match ep, file req with
  | Capture, Some path =>
      present ← gets (fun w => bool_decide (path ∈ files w));
      if present : bool then unlinkSync path else mret tt
  | (Video | File | GalleryPhoto), Some path => unlinkSync path
  | _, _ => mret tt
  end.

(** A route handler: the guard on [x-auth], the route's own work, the
    catch-all answering 500, and the cleanup.  The catch-all is the one
    of a request not answered yet: were the response already written,
    Express would refuse the second write with an exception, which
    [emit] does not show. *)
Definition handle (ep : endpoint) (req : request) : M unit :=
  try_finally
    (try_catch
       match getDeviceInfo (x_auth req) with
       | None => emit (Respond 403 NoBody)
       | Some deviceInfo => route ep deviceInfo req
       end
       (fun error => emit (Respond 500 (ErrorBody (message error)))))
    (cleanup ep req).

End Routes.

End Ingress.

(** ** Scenarios used in the examples *)

Module Scenario.
Import Relay.

(** A gateway and a store that accept every call; the store is empty. *)
Definition quiet : env :=
  Env (fun _ => 1000) (fun n => Done (100 + Z.of_nat n)) (fun _ => []).

(** A process that has just started. *)
Definition fresh : world := World [] ∅ ∅ ∅ ∅ ∅ 0 [].

(** Chat 7 is logged in with key [k] and has selected [dev1]. *)
Definition logged_in : world :=
  World [(7, Session "k" (Some "dev1") 0 None)] ∅ ∅ ∅ ∅ ∅ 0 [].

(** Chat 7 has been asked how many [camera] images to fetch, in
    message 42; [session] tells whether it is still logged in. *)
Definition asked (session : bool) : world :=
  World (if session then [(7, Session "k" (Some "dev1") 0 None)] else [])
    ∅ {[ 7 := CustomPrompt "camera" 42 (Some "dev1") ]} ∅ ∅ ∅ 0 [].

(** An export body of 4001 characters: [a], a line feed, 3999 times [b]. *)
Definition two_lines : string :=
  "a" +:+ String "010" (Js.repeat "b" 3999).

End Scenario.

(** ** Reasoning about handlers *)

Module Behaviour.
Import Relay.

(** The gateway and the store accept every call. *)
Definition accepting (e : env) : Prop :=
  forall n, exists id, outcome e n = Done id.

(** The message id a resolved call comes back with. *)
Definition reply_id (r : reply) : Z :=
  match r with Done id => id | Thrown _ => 0 end.

(** The world after one more reading of the clock. *)
Definition tick (w : world) : world :=
  World (userSessions w) (awaitingAuth w) (awaitingCustom w)
    (activeOperations w) (deviceCache w) (files w) (S (ticks w)) (log w).

(** Whatever the environment does, running [m] relates the world before
    to the world after by [I]. *)
Definition keeps (I : world -> world -> Prop) {A} (m : M A) : Prop :=
  forall e w, I w (snd (m e w)).

(** The calls issued between two worlds all satisfy [P]. *)
Definition logged (P : call -> Prop) (w w' : world) : Prop :=
  exists rest, log w' = log w ++ rest /\ Forall P rest.

(** The field [f] of the world is left as it was. *)
Definition same {B} (f : world -> B) (w w' : world) : Prop := f w' = f w.

(** Both relations hold. *)
Definition both (I J : world -> world -> Prop) (w w' : world) : Prop :=
  I w w' /\ J w w'.

(** Each chat has one entry in the sessions. *)
Definition one_entry_per_chat (w : world) : Prop :=
  NoDup (userSessions w).*1.

End Behaviour.

(** ** Periodic housekeeping ([cleanupSessions]) *)

Module Housekeeping.
Import Relay.

Definition SESSION_TIMEOUT : Z := 20 * 60 * 1000.

(** The loop of [cleanupSessions] over the entries of [userSessions]:
    an entry idle for more than the timeout is deleted from the map while
    the iteration goes on. *)
Fixpoint sweep (now : Z) (entries : list (Z * session))
    (sessions : jsmap session) : jsmap session :=
  match entries with
  | [] => sessions
  | (chatId, session) :: rest =>
      if bool_decide (now - lastActivity session > SESSION_TIMEOUT)
      then sweep now rest (map_delete chatId sessions)
      else sweep now rest sessions
  end.

(** [cleanupSessions()], run every three minutes. *)
Definition cleanupSessions : M unit :=
  now ← date_now;
  modify (set_userSessions (fun sessions => sweep now sessions sessions)).

(** The session has been idle for more than the timeout at [now]. *)
Definition idle (now : Z) (s : session) : Prop :=
  now - lastActivity s > SESSION_TIMEOUT.

#[global] Instance idle_dec now s : Decision (idle now s).
Proof. unfold idle. apply _. Defined.

End Housekeeping.

(** ** The battery gauge ([getBatteryVisual]) *)

Module Gauge.

Fixpoint copies (s : string) (n : nat) : string :=
  match n with
  | O => EmptyString
  | S k => s +:+ copies s k
  end.

(** [s.repeat(count)] for an integer count: a negative count throws a
    [RangeError], which is [None]. *)
Definition repeat_count (s : string) (count : Z) : option string :=
  if bool_decide (0 <= count) then Some (copies s (Z.to_nat count))
  else None.

(** [getBatteryVisual(percentage)] for an integer percentage. *)
Definition getBatteryVisual (percentage : Z) : option string :=
  let level := percentage / 10 in
  filled ← repeat_count "█" level;
  empty ← repeat_count "░" (10 - level);
  let emoji :=
    if bool_decide (percentage <= 20) then "🪫"
    else if bool_decide (percentage >= 80) then "🔋" else "🔋" in
  Some (emoji +:+ " [" +:+ filled +:+ empty +:+ "] "
        +:+ Js.decimal percentage +:+ "%").

(** The gauge drawn for [percentage]: the symbol, then [filled] full and
    [empty] empty cells between brackets, then the number. *)
Definition gauge (low : bool) (filled empty : nat) (percentage : Z)
    : string :=
  (if low then "🪫" else "🔋") +:+ " [" +:+ copies "█" filled
  +:+ copies "░" empty +:+ "] " +:+ Js.decimal percentage +:+ "%".

End Gauge.

Module Alphabet.

(** The characters of the URL-safe base64 alphabet: letters, digits,
    [-] and [_]. *)
Definition url_safe (c : ascii) : bool :=
  let n := N_of_ascii c in
  ((65 <=? n) && (n <=? 90) || (97 <=? n) && (n <=? 122)
   || (48 <=? n) && (n <=? 57) || (n =? 45) || (n =? 95))%N.

End Alphabet.

(** ** What the chat-side handlers are expected to do *)

Module Conduct.
Import Relay Bot.

(** The world with further calls on its log. *)
Definition extend (w : world) (calls : list call) : world :=
  World (userSessions w) (awaitingAuth w) (awaitingCustom w)
    (activeOperations w) (deviceCache w) (files w) (ticks w)
    (log w ++ calls).

(** The calls of frame [i] of the loading animation: the edit, and the
    pause that follows it on all frames but the last. *)
Definition frame_calls (chatId msgId : Z) (type : string) (duration : Z)
    (steps i : nat) : list call :=
  EditMessageText chatId msgId (LoadingFrame type i)
  :: (if bool_decide (i < steps)%nat
      then [Sleep duration (Z.of_nat steps)] else []).

(** The calls of a loading animation that runs to its end. *)
Definition loading_script (chatId msgId : Z) (type : string)
    (duration : Z) : list call :=
  flat_map (frame_calls chatId msgId type duration 8) (seq 0 9).

(** The call is addressed to the chat, the message and the query of [q]
    (reads of the store and pauses are addressed to nobody). *)
Definition addressed (q : callbackQuery) (c : call) : Prop :=
  match c with
  | AnswerCallbackQuery id _ _ => id = cq_id q
  | SendMessage chatId _ | SendAnimation chatId _ => chatId = cq_chat q
  | EditMessageText chatId msgId _ => chatId = cq_chat q /\ msgId = cq_msg q
  | DbUpdate _ _ chat msg _ => chat = cq_chat q /\ msg = cq_msg q
  | DbOnce _ | Sleep _ _ => True
  | SendMedia _ _ _ | DeleteMessage _ _ | SetTimeoutDeviceSelection _ _
  | Respond _ _ => False
  end.

(** The call shows neither the recording-duration menu nor the prompt
    for a custom gallery count. *)
Definition reachable_screen (c : call) : Prop :=
  match c with
  | EditMessageText _ _ (RecordingDuration _) => False
  | SendMessage _ (GalleryRequest _) => False
  | _ => True
  end.

(** The call is no write to the store. *)
Definition no_write (c : call) : Prop :=
  match c with
  | DbUpdate _ _ _ _ _ => False
  | _ => True
  end.

(** The chat has no session with a selected device. *)
Definition no_device (chatId : Z) (w : world) : Prop :=
  match map_get chatId (userSessions w) with
  | Some s => Js.truthy_opt (selectedDevice s) = false
  | None => True
  end.

(** The identifiers of the menus shown without asking the device. *)
Definition navigation : list string :=
  [ "main_menu"; "file_menu"; "location_menu"; "data_menu"; "stealth_menu";
    "perfection_menu"; "cam_front"; "cam_back"; "gallery_root" ].

End Conduct.

(** ** What a text message is *)

Module Inbox.
Import Relay Bot.

(** The text message [m] with text [t] answers the pending
    authentication prompt [a] of its chat. *)
Definition auth_reply_pending (m : textMessage) (t : string)
    (a : authPrompt) (w : world) : Prop :=
  text m = Some t /\ t <> ""
  /\ awaitingAuth w !! m_chat m = Some a
  /\ replies_to m (messageId a) = true.

(** The text message [m] with text [t] is a [/search] command and no
    reply to another message. *)
Definition search_command (m : textMessage) (t : string) : Prop :=
  text m = Some t /\ Js.startsWith t "/search " = true
  /\ reply_to_message m = None.

(** The query of a [/search] command. *)
Definition search_query (t : string) : string := Js.trim (Js.drop 8 t).

End Inbox.

(** ** What the device directory holds *)

Module Directory.
Import Relay Devices.

(** The cache holds no entry for [key] that [getDevices] would still
    serve at the next reading of the clock. *)
Definition stale (key : string) (e : env) (w : world) : Prop :=
  match deviceCache w !! key with
  | Some c => ~ clock e (ticks w) - timestamp c < DEVICE_CACHE_TTL
  | None => True
  end.

End Directory.

(** ** Photo and video uploads ([/capture], [/video]) *)

Module Uploads.
Import Relay Ingress.

Definition LF : string := String "010" EmptyString.

(** [fs.readFileSync(path)]: the content read is not modelled; a missing
    file throws. *)
Definition readFileSync (path : string) : M unit := fun _ w =>
  if bool_decide (path ∈ files w) then (Ret tt, w)
  else (Throw (Error "ENOENT: no such file or directory" None), w).

(** [req.file.<field>]: a [TypeError] when the request carries no
    upload. *)
Definition file_field (field : string) (req : request) : M string :=
  match file req with
  | Some path => mret path
  | None =>
      throw (Error ("Cannot read properties of undefined (reading '"
                    +:+ field +:+ "')") None)
  end.

(** [for (const x of l) { await f(x) }]. *)
Fixpoint for_each {A} (f : A -> M unit) (l : list A) : M unit :=
  match l with
  | [] => mret tt
  | x :: rest => f x;; for_each f rest
  end.

Section Handlers.

(** [date.toLocaleTimeString()], which depends on the locale and the
    time zone of the host. *)
Variable toLocaleTimeString : Z -> string.

(** The body of the loop of [/video] over the sessions, with its own
    [try] and [catch]. *)
Variable deliver_video : deviceAuth -> request -> Z -> M unit.

(** The handlers of the remaining routes below their guard. *)
Variable render : endpoint -> deviceAuth -> request -> M unit.

Definition photo_caption (deviceInfo : deviceAuth) (time : Z) : string :=
  "📸 *Photo Captured*" +:+ LF
  +:+ "Device: `" +:+ Js.slice0 6 (deviceId deviceInfo) +:+ "`" +:+ LF
  +:+ "Time: " +:+ toLocaleTimeString time +:+ LF
  +:+ "Quality: High".

(** The body of the loop of [/capture] over the sessions: a pending
    photo operation of the chat is cleared, then the photo is sent; a
    failure is logged and the loop goes on. *)
Definition deliver_photo (deviceInfo : deviceAuth) (req : request)
    (chatId : Z) : M unit :=
  try_catch
    (op ← gets (fun w => activeOperations w !! chatId);
     match op with
     | Some o =>
         if decide (op_type o = Some "photo")
         then modify (set_activeOperations (delete chatId))
         else mret tt
     | None => mret tt
     end;;
     path ← file_field "path" req;
     readFileSync path;;
     time ← date_now;
     perform (SendMedia "photo" chatId (photo_caption deviceInfo time));;
     mret tt)
    (fun _ => mret tt).

(** The handler of [/capture] below its guard. *)
Definition capture (deviceInfo : deviceAuth) (req : request) : M unit :=
  sessions ← getActiveSessions (auth_key deviceInfo);
  match sessions with
  | [] =>
      emit (Respond 200 (OkWarning "No active sessions"));;
      path ← file_field "path" req;
      unlinkSync path
  | _ =>
      for_each (fun p => deliver_photo deviceInfo req (fst p)) sessions;;
      emit (Respond 200 OkBody)
  end.

(** The handler of [/video] below its guard. *)
Definition video (deviceInfo : deviceAuth) (req : request) : M unit :=
  sessions ← getActiveSessions (auth_key deviceInfo);
  match sessions with
  | [] =>
      emit (Respond 200 OkBody);;
      path ← file_field "path" req;
      unlinkSync path
  | _ =>
      file_field "size" req;;
      for_each (fun p => deliver_video deviceInfo req (fst p)) sessions;;
      emit (Respond 200 OkBody)
  end.

Definition upload_route (ep : endpoint) (deviceInfo : deviceAuth)
    (req : request) : M unit :=
  match ep with
  | Capture => capture deviceInfo req
  | Video => video deviceInfo req
  | _ => render ep deviceInfo req
  end.

End Handlers.

(** No chat is bound to the key. *)
Definition unheard (key0 : string) (w : world) : Prop :=
  Forall (fun p => key (snd p) <> key0) (userSessions w).

(** The chat is bound to the key and has a photo operation pending. *)
Definition awaits_photo (key0 : string) (chatId : Z) (w : world) : Prop :=
  (exists s, (chatId, s) ∈ userSessions w /\ key s = key0)
  /\ (exists o, activeOperations w !! chatId = Some o
                /\ op_type o = Some "photo").

End Uploads.

(** ** The permission report, as shown *)

Module Report.
Import Relay Ingress.

(** The screen [/json/permissions] shows for the permission object
    [perms] at clock reading [now]. *)
Definition report_screen (round_percent : nat -> nat -> Z)
    (deviceInfo : deviceAuth) (perms : list (string * bool)) (now : Z)
    : screen :=
  let percentage := permissionPercentage round_percent perms in
  PermissionStatus now
    (length (filter (fun p => snd p = true) perms)) (length perms)
    percentage
    (match percentage with
     | Some p => (Z.to_nat (p / 10), Z.to_nat (10 - p / 10))
     | None => (O, O)
     end)
    (fst <$> filter (fun p => snd p = false) perms)
    (fst <$> filter (fun p => snd p = true) perms)
    (Js.slice0 6 (deviceId deviceInfo)).

(** The progress bar can be drawn: its percentage lies within 0 and
    109. *)
Definition drawable (round_percent : nat -> nat -> Z)
    (perms : list (string * bool)) : Prop :=
  forall p, permissionPercentage round_percent perms = Some p ->
            0 <= p / 10 <= 10.

End Report.

(** ** Stored permissions *)

Module Stored.
Import Relay Devices Bot.

(** The permission object kept in the store for the device, [[]] when
    there is none. *)
Definition stored_permissions (e : env) (key deviceId : string)
    : list (string * bool) :=
  default [] (store_info e key deviceId ≫= info_permissions).

(** The stored state of the battery optimisation, [unknown] when there
    is none. *)
Definition stored_battery_optimization (e : env) (key deviceId : string)
    : string :=
  or_string (store_info e key deviceId ≫= info_battery_optimization)
    "unknown".

(** The chat has a session with key and a selected device. *)
Definition controls (chatId : Z) (s : session) (dev : string) (w : world)
    : Prop :=
  map_get chatId (userSessions w) = Some s
  /\ selectedDevice s = Some dev /\ dev <> "".

End Stored.

(** * Properties *)

(** ** Upload rate limiter *)

Module RateLimiterFacts.
Import RateLimiter.

Lemma checkUploadRate_fresh now d (m : gmap string limits) :
  m !! d = None ->
  checkUploadRate now d m = (true, <[d := Limits 1 now]> m).
Proof.
  intros Hd. unfold checkUploadRate. rewrite Hd. simpl.
  destruct (bool_decide (now - now > UPLOAD_WINDOW)); reflexivity.
Qed.

Lemma checkUploadRate_within now d (m : gmap string limits) c t0 :
  m !! d = Some (Limits c t0) ->
  now - t0 <= UPLOAD_WINDOW ->
  checkUploadRate now d m =
    (bool_decide (c + 1 <= UPLOAD_LIMIT), <[d := Limits (c + 1) t0]> m).
Proof.
  intros Hd Hin. unfold checkUploadRate. rewrite Hd. simpl.
  rewrite (bool_decide_eq_false_2 (now - t0 > UPLOAD_WINDOW)) by lia.
  reflexivity.
Qed.

Lemma checkUploadRate_expired now d (m : gmap string limits) c t0 :
  m !! d = Some (Limits c t0) ->
  now - t0 > UPLOAD_WINDOW ->
  checkUploadRate now d m = (true, <[d := Limits 1 now]> m).
Proof.
  intros Hd Hout. unfold checkUploadRate. rewrite Hd. simpl.
  rewrite (bool_decide_eq_true_2 (now - t0 > UPLOAD_WINDOW)) by lia.
  reflexivity.
Qed.

(** Calls inside the window of an existing entry only count up. *)
Lemma burst_within d t0 ts : forall (m : gmap string limits) c,
  m !! d = Some (Limits c t0) ->
  Forall (fun t => t - t0 <= UPLOAD_WINDOW) ts ->
  exists m',
    burst d ts m = (expected (c + 1) (length ts), m')
    /\ m' !! d = Some (Limits (c + Z.of_nat (length ts)) t0).
Proof.
  induction ts as [|t ts IH]; intros m c Hd Hts.
  - exists m. split; [reflexivity|]. simpl. rewrite Z.add_0_r. exact Hd.
  - inversion Hts as [|? ? Ht Hrest]; subst.
    cbn [burst]. rewrite (checkUploadRate_within _ _ _ _ _ Hd Ht).
    destruct (IH (<[d := Limits (c + 1) t0]> m) (c + 1)) as (m' & Hb & Hm').
    + apply lookup_insert_eq.
    + exact Hrest.
    + exists m'. rewrite Hb. split; [reflexivity|].
      rewrite Hm'. f_equal. f_equal. cbn [length]. lia.
Qed.

Lemma expected_lookup n : forall from i ok,
  expected from n !! i = Some ok ->
  ok = bool_decide (from + Z.of_nat i <= UPLOAD_LIMIT).
Proof.
  induction n as [|n IH]; intros from i ok H; [discriminate|].
  destruct i as [|i]; simpl in H.
  - inversion H. f_equal. rewrite Z.add_0_r. reflexivity.
  - apply IH in H. subst ok. apply bool_decide_ext. lia.
Qed.

Lemma expected_length n : forall from, length (expected from n) = n.
Proof. induction n; intros; simpl; auto. Qed.

(** C3.  For a device without an entry, take a first call at [t1] and
    further calls at times [ts], none later than 60000 ms after [t1].
    Call number [i] (counting from 0) is answered [true] exactly when
    [i < 10]: the first ten calls pass and the eleventh, like every later
    one of the window, is refused.  A call made more than 60000 ms after
    [t1] then restarts the window: it is answered [true] and leaves the
    entry at count 1 with the window starting at that call. *)
Theorem checkUploadRate_window d (m : gmap string limits) t1 ts :
  m !! d = None ->
  Forall (fun t => t - t1 <= 60000) ts ->
  exists oks m',
    burst d (t1 :: ts) m = (oks, m')
    /\ length oks = S (length ts)
    /\ (forall (i : nat) ok,
          oks !! i = Some ok -> ok = bool_decide (i < 10)%nat)
    /\ (forall t', t' - t1 > 60000 ->
          checkUploadRate t' d m' = (true, <[d := Limits 1 t']> m')).
Proof.
  intros Hd Hts.
  destruct (burst_within d t1 ts (<[d := Limits 1 t1]> m) 1)
    as (m' & Hb & Hm').
  - apply lookup_insert_eq.
  - exact Hts.
  - exists (true :: expected 2 (length ts)), m'.
    split; [|split; [|split]].
    + cbn [burst]. rewrite (checkUploadRate_fresh _ _ _ Hd).
      change (1 + 1) with 2 in Hb. rewrite Hb. reflexivity.
    + simpl. rewrite expected_length. reflexivity.
    + intros [|i] ok H; simpl in H.
      * inversion H. reflexivity.
      * apply expected_lookup in H. subst ok. apply bool_decide_ext.
        unfold UPLOAD_LIMIT. lia.
    + intros t' Ht'. eapply checkUploadRate_expired; [exact Hm'|].
      unfold UPLOAD_WINDOW. lia.
Qed.

(** Eleven calls for [dev1] between 1000 ms and 61000 ms on an empty
    limiter. *)
Lemma checkUploadRate_window_witness :
  exists oks m',
    burst "dev1" [1000; 2000; 3000; 4000; 5000; 6000; 7000; 8000; 9000;
                  10000; 61000] ∅ = (oks, m')
    /\ length oks = 11%nat
    /\ (forall (i : nat) ok,
          oks !! i = Some ok -> ok = bool_decide (i < 10)%nat)
    /\ (forall t', t' - 1000 > 60000 ->
          checkUploadRate t' "dev1" m'
          = (true, <[("dev1" : string) := Limits 1 t']> m')).
Proof.
  apply (checkUploadRate_window "dev1" ∅ 1000
           [2000; 3000; 4000; 5000; 6000; 7000; 8000; 9000; 10000; 61000]).
  - reflexivity.
  - repeat constructor; lia.
Defined.

End RateLimiterFacts.

(** ** Path tokens *)

Module PathTokenFacts.
Import PathToken.

Lemma sextet_of_char_of_sextet s : sextet_of_char (char_of_sextet s) = Some s.
Proof.
  destruct s as [[[[[[] []] []] []] []] []]; vm_compute; reflexivity.
Qed.

Lemma omap_sextets ss :
  omap sextet_of_char (map char_of_sextet ss) = ss.
Proof.
  induction ss as [|s ss IH]; [reflexivity|].
  cbn [map omap list_omap]. rewrite sextet_of_char_of_sextet, IH.
  reflexivity.
Qed.

(** Lists are taken apart three elements at a time. *)
Lemma triple_ind {A} (P : list A -> Prop) :
  P [] -> (forall a, P [a]) -> (forall a b, P [a; b]) ->
  (forall a b c l, P l -> P (a :: b :: c :: l)) ->
  forall l, P l.
Proof.
  intros H0 H1 H2 H3.
  assert (H : forall l,
             P l /\ (forall a, P (a :: l)) /\ (forall a b, P (a :: b :: l))).
  { induction l as [|x l (IHa & IHb & IHc)]; [auto|].
    split; [apply IHb|]. split; [intros; apply IHc|].
    intros a b. apply H3, IHa. }
  intros l. apply H.
Qed.

Lemma decode_encode_bytes bs : decode_sextets (encode_bytes bs) = bs.
Proof.
  induction bs as [|[]|[] []|[] [] [] l IH] using triple_ind;
    try reflexivity.
  cbn [encode_bytes decode_sextets]. rewrite IH. reflexivity.
Qed.

Lemma unbase64url_base64url bs : unbase64url (base64url bs) = bs.
Proof.
  unfold unbase64url, base64url.
  rewrite list_ascii_of_string_of_list_ascii, omap_sextets.
  apply decode_encode_bytes.
Qed.

(** Linear arithmetic with division by constants. *)
Ltac div_lia := zify; Z.to_euclidean_division_equations; lia.

(** Decide the comparisons of the goal. *)
Ltac compare :=
  repeat match goal with
  | |- context [(?a <? ?b)%N] =>
      first [ rewrite (proj2 (N.ltb_lt a b)) by div_lia
            | rewrite (proj2 (N.ltb_ge a b)) by div_lia ]
  | |- context [(?a <=? ?b)%N] =>
      first [ rewrite (proj2 (N.leb_le a b)) by div_lia
            | rewrite (proj2 (N.leb_gt a b)) by div_lia ]
  end.

Lemma scalar_range c :
  scalar c = true <-> (c < 0xD800 \/ 0xDFFF < c < 0x110000)%N.
Proof.
  unfold scalar. rewrite orb_true_iff, andb_true_iff, !N.ltb_lt. tauto.
Qed.

(** The bytes of one scalar value decode to it. *)
Lemma utf8_decode_code c rest :
  scalar c = true ->
  utf8_decode (utf8_code c ++ rest) = cons c <$> utf8_decode rest.
Proof.
  intros Hc. pose proof (proj1 (scalar_range c) Hc) as Hr.
  unfold utf8_code.
  destruct (N.ltb_spec c 0x80) as [H1|H1].
  { cbn [app utf8_decode]. rewrite N_ascii_embedding by div_lia.
    compare. reflexivity. }
  destruct (N.ltb_spec c 0x800) as [H2|H2].
  { cbn [app utf8_decode]. rewrite !N_ascii_embedding by div_lia.
    unfold continuation. compare. cbn [andb].
    do 2 f_equal. div_lia. }
  destruct (N.ltb_spec c 0x10000) as [H3|H3].
  { cbn [app utf8_decode]. rewrite !N_ascii_embedding by div_lia.
    unfold continuation. compare. cbn [andb].
    replace ((0xE0 + c / 4096 - 0xE0) * 4096
             + (0x80 + (c / 64) mod 64 - 0x80) * 64
             + (0x80 + c mod 64 - 0x80))%N with c by div_lia.
    compare. rewrite Hc. reflexivity. }
  cbn [app utf8_decode]. rewrite !N_ascii_embedding by div_lia.
  unfold continuation. compare. cbn [andb].
  replace ((0xF0 + c / 262144 - 0xF0) * 262144
           + (0x80 + (c / 4096) mod 64 - 0x80) * 4096
           + (0x80 + (c / 64) mod 64 - 0x80) * 64
           + (0x80 + c mod 64 - 0x80))%N with c by div_lia.
  compare. reflexivity.
Qed.

Lemma utf8_decode_encode s :
  well_formed s -> utf8_decode (utf8_encode s) = Some s.
Proof.
  induction 1 as [|c s Hc Hs IH]; [reflexivity|].
  unfold utf8_encode in *. cbn [flat_map]. rewrite Hc.
  rewrite (utf8_decode_code c _ Hc), IH. reflexivity.
Qed.

(** Every well-formed string comes back from its token. *)
Lemma dec_enc s : well_formed s -> dec (enc s) = Some s.
Proof.
  intros Hs. unfold dec, enc. rewrite unbase64url_base64url.
  apply utf8_decode_encode, Hs.
Qed.

Lemma text_well_formed s :
  Forall (fun c => (N_of_ascii c < 128)%N) (list_ascii_of_string s) ->
  well_formed (text s).
Proof.
  unfold well_formed, text. induction 1; constructor; auto.
  apply scalar_range. lia.
Qed.

Lemma dirname_well_formed p : well_formed p -> well_formed (dirname p).
Proof.
  intros Hp. unfold dirname.
  destruct p as [|c0 p']; [repeat constructor|].
  destruct (dirname_scan _ _ _) as [e|].
  - destruct (_ && _); [repeat constructor|].
    apply Forall_take, Hp.
  - destruct (_ =? _)%N; repeat constructor.
Qed.

(** What [dec] returns is well formed: the relay only ever encodes
    well-formed strings, [parent] encoding a directory name of what [dec]
    returned. *)
Lemma utf8_decode_well_formed n : forall bs p,
  (length bs <= n)%nat -> utf8_decode bs = Some p -> well_formed p.
Proof.
  induction n as [|n IH]; intros bs p Hlen H.
  - destruct bs; [|simpl in Hlen; lia]. inversion H. constructor.
  - destruct bs as [|b0 rest]; [inversion H; constructor|].
    cbn [utf8_decode] in H. unfold continuation in H.
    repeat case_match; try discriminate;
      apply fmap_Some in H as (p' & Hp' & ->); subst;
      repeat match goal with
             | h : _ && _ = true |- _ => apply andb_true_iff in h as [? ?]
             | h : (_ <? _)%N = true |- _ => apply N.ltb_lt in h
             | h : (_ <=? _)%N = true |- _ => apply N.leb_le in h
             end;
      (constructor;
       [ first [ assumption | apply scalar_range; lia ]
       | eapply IH; [|exact Hp']; cbn [length] in *; lia ]).
Qed.

Lemma dec_well_formed k p : dec k = Some p -> well_formed p.
Proof. apply (utf8_decode_well_formed _ _ _ (le_n _)). Qed.

(** An unpaired surrogate does not come back: it is replaced. *)
Example lone_surrogate_replaced : dec (enc [0xD800%N]) = Some [0xFFFD%N].
Proof. vm_compute. reflexivity. Qed.

(** C7.  For every well-formed path [p], the token [parent (enc p)],
    obtained by decoding the token of [p], taking the directory name and
    encoding again, decodes to the directory name of [p]; the token of
    [/sdcard/DCIM/Camera] leads to [/sdcard/DCIM]. *)
Theorem parent_navigates_up :
  (forall p, well_formed p -> parent (enc p) ≫= dec = Some (dirname p))
  /\ parent (enc (text "/sdcard/DCIM/Camera")) ≫= dec
     = Some (text "/sdcard/DCIM").
Proof.
  assert (H : forall p, well_formed p ->
                        parent (enc p) ≫= dec = Some (dirname p)).
  { intros p Hp. unfold parent. rewrite (dec_enc p Hp). simpl.
    apply dec_enc, dirname_well_formed, Hp. }
  split; [exact H|]. rewrite H; [reflexivity|].
  apply text_well_formed. vm_compute. repeat constructor.
Qed.

(** A folder named with a CJK character, holding a file named with an
    emoji. *)
Lemma parent_navigates_up_witness :
  parent (enc [47; 0x4E2D; 47; 0x1F600]%N) ≫= dec = Some [47; 0x4E2D]%N.
Proof.
  refine (proj1 parent_navigates_up [47; 0x4E2D; 47; 0x1F600]%N _).
  repeat constructor.
Defined.

End PathTokenFacts.

(** ** File sizes *)

Module FormatFacts.
Import Format.

Lemma round_half_up_nearest x d : 0 < d -> nearest (round_half_up x d) x d.
Proof.
  intros Hd. unfold nearest, round_half_up.
  pose proof (Z.div_mod (2 * x + d) (2 * d) ltac:(lia)) as E.
  pose proof (Z.mod_pos_bound (2 * x + d) (2 * d) ltac:(lia)) as B.
  set (q := (2 * x + d) / (2 * d)) in *.
  set (r := (2 * x + d) mod (2 * d)) in *.
  lia.
Qed.

Lemma fraction_one_digit n : String.length (fraction 1 n) = 1%nat.
Proof.
  unfold fraction.
  pose proof (Z.mod_pos_bound n (10 ^ Z.of_nat 1) ltac:(lia)) as B.
  set (k := n mod 10 ^ Z.of_nat 1) in *.
  change (10 ^ Z.of_nat 1) with 10 in B.
  assert (H : k = 0 \/ k = 1 \/ k = 2 \/ k = 3 \/ k = 4 \/ k = 5 \/ k = 6
              \/ k = 7 \/ k = 8 \/ k = 9) by lia.
  repeat destruct H as [-> | H]; try rewrite H; reflexivity.
Qed.

Lemma padded_two k : 0 <= k < 100 ->
  String.length (Js.padStart 2 "0" (Js.decimal k)) = 2%nat.
Proof.
  intros Hk.
  assert (H : forallb (fun i => Nat.eqb (String.length
                (Js.padStart 2 "0" (Js.decimal (Z.of_nat i)))) 2)
                (seq 0 100) = true) by (vm_compute; reflexivity).
  rewrite forallb_forall in H.
  specialize (H (Z.to_nat k)). rewrite Z2Nat.id in H by lia.
  apply Nat.eqb_eq, H, in_seq. lia.
Qed.

Lemma fraction_two_digits n : String.length (fraction 2 n) = 2%nat.
Proof.
  unfold fraction. apply padded_two.
  apply (Z.mod_pos_bound n (10 ^ Z.of_nat 2)). reflexivity.
Qed.

(** C8.  The four sample sizes format as [500 B], [2.0 KB], [5.0 MB] and
    [3.00 GB].  In general a count below 1024 is printed in decimal
    followed by [B]; a count below 1024^2, 1024^3, or from 1024^3 on is
    printed as the number of kilobytes, megabytes or gigabytes rounded to
    the nearest tenth, tenth or hundredth, with exactly one, one or two
    digits after the point, followed by [KB], [MB] or [GB]. *)
Theorem formatFileSize_spec :
  formatFileSize 500 = "500 B"
  /\ formatFileSize 2048 = "2.0 KB"
  /\ formatFileSize (5 * 1024 * 1024) = "5.0 MB"
  /\ formatFileSize (3 * 1024 * 1024 * 1024) = "3.00 GB"
  /\ (forall b, b < 1024 -> formatFileSize b = Js.decimal b +:+ " B")
  /\ (forall b, 1024 <= b < 1024 ^ 2 ->
        exists n, formatFileSize b = fixed_point 1 n +:+ " KB"
                  /\ nearest n (b * 10) 1024
                  /\ String.length (fraction 1 n) = 1%nat)
  /\ (forall b, 1024 ^ 2 <= b < 1024 ^ 3 ->
        exists n, formatFileSize b = fixed_point 1 n +:+ " MB"
                  /\ nearest n (b * 10) (1024 ^ 2)
                  /\ String.length (fraction 1 n) = 1%nat)
  /\ (forall b, 1024 ^ 3 <= b < 10 ^ 21 * 1024 ^ 3 ->
        exists n, formatFileSize b = fixed_point 2 n +:+ " GB"
                  /\ nearest n (b * 100) (1024 ^ 3)
                  /\ String.length (fraction 2 n) = 2%nat).
Proof.
  split; [vm_compute; reflexivity|].
  split; [vm_compute; reflexivity|].
  split; [vm_compute; reflexivity|].
  split; [vm_compute; reflexivity|].
  split; [|split; [|split]].
  - intros b Hb. unfold formatFileSize.
    rewrite (proj2 (Z.ltb_lt b 1024)) by lia. reflexivity.
  - intros b Hb. exists (round_half_up (b * 10) 1024).
    split; [|split].
    + unfold formatFileSize.
      rewrite (proj2 (Z.ltb_ge b 1024)) by lia.
      rewrite (proj2 (Z.ltb_lt b (1024 * 1024))) by lia. reflexivity.
    + apply round_half_up_nearest. lia.
    + apply fraction_one_digit.
  - intros b Hb. exists (round_half_up (b * 10) (1024 ^ 2)).
    split; [|split].
    + unfold formatFileSize.
      rewrite (proj2 (Z.ltb_ge b 1024)) by lia.
      rewrite (proj2 (Z.ltb_ge b (1024 * 1024))) by lia.
      rewrite (proj2 (Z.ltb_lt b (1024 * 1024 * 1024))) by lia.
      reflexivity.
    + apply round_half_up_nearest. lia.
    + apply fraction_one_digit.
  - intros b Hb. exists (round_half_up (b * 100) (1024 ^ 3)).
    split; [|split].
    + unfold formatFileSize.
      rewrite (proj2 (Z.ltb_ge b 1024)) by lia.
      rewrite (proj2 (Z.ltb_ge b (1024 * 1024))) by lia.
      rewrite (proj2 (Z.ltb_ge b (1024 * 1024 * 1024))) by lia.
      reflexivity.
    + apply round_half_up_nearest. lia.
    + apply fraction_two_digits.
Qed.

(** A count of 1000 bytes and one of 1536 bytes. *)
Lemma formatFileSize_spec_witness :
  formatFileSize 1000 = "1000 B"
  /\ exists n, formatFileSize 1536 = fixed_point 1 n +:+ " KB"
               /\ nearest n (1536 * 10) 1024
               /\ String.length (fraction 1 n) = 1%nat.
Proof.
  destruct formatFileSize_spec as (_ & _ & _ & _ & HB & HK & _).
  split.
  - apply (HB 1000). lia.
  - apply (HK 1536). lia.
Defined.

End FormatFacts.

(** ** Device summaries *)

Module DevicesFacts.
Import Relay Devices.




End DevicesFacts.

(** ** The guard on [x-auth] *)

Module IngressFacts.
Import Relay Ingress.

Lemma split_no_separator sep s : sep ∉ Js.chars s -> Js.split sep s = [s].
Proof.
  induction s as [|c s IH]; intros Hs; [reflexivity|].
  cbn [Js.split]. unfold Js.chars in *. cbn [list_ascii_of_string] in Hs.
  apply not_elem_of_cons in Hs as [Hc Hs].
  destruct (decide (c = sep)) as [->|_]; [congruence|].
  rewrite (IH Hs). reflexivity.
Qed.

Lemma split_separator sep s :
  sep ∈ Js.chars s -> exists k d rest, Js.split sep s = k :: d :: rest.
Proof.
  induction s as [|c s IH]; intros Hs.
  - apply elem_of_nil in Hs. destruct Hs.
  - cbn [Js.split]. destruct (decide (c = sep)) as [->|Hne].
    + destruct s as [|c' s']; cbn [Js.split]; [eauto|].
      destruct (decide (c' = sep)); [eauto|].
      destruct (Js.split sep s'); eauto.
    + unfold Js.chars in Hs. cbn [list_ascii_of_string] in Hs.
      apply elem_of_cons in Hs as [->|Hs]; [congruence|].
      destruct (IH Hs) as (k & d & rest & ->). eauto.
Qed.

Lemma getDeviceInfo_no_colon h :
  ":"%char ∉ Js.chars h -> getDeviceInfo (Some h) = None.
Proof.
  intros Hh. unfold getDeviceInfo.
  destruct (Js.truthy h); [|reflexivity].
  rewrite (split_no_separator _ _ Hh). reflexivity.
Qed.

Lemma getDeviceInfo_segments h k d rest :
  Js.split ":" h = k :: d :: rest ->
  getDeviceInfo (Some h) = Some (DeviceAuth k d).
Proof.
  intros Hs. unfold getDeviceInfo. rewrite Hs.
  destruct h; [discriminate|]. reflexivity.
Qed.

Section Guard.
Variable round_percent : nat -> nat -> Z.
Variable render : endpoint -> deviceAuth -> request -> M unit.

(** The cleanup touches nothing but the temporary file. *)
Lemma cleanup_keeps ep req e w :
  exists r w', cleanup ep req e w = (r, w')
    /\ log w' = log w /\ Bot.same_maps w w'.
Proof.
  unfold cleanup, Bot.same_maps.
  destruct ep, (file req) as [path|];
    try (eexists _, _; split; [reflexivity|]; tauto);
    unfold mbind, M_bind, gets, unlinkSync; simpl;
    repeat case_bool_decide;
    eexists _, _; (split; [reflexivity|]); simpl; tauto.
Qed.

Lemma handle_rejected ep req e w :
  getDeviceInfo (x_auth req) = None ->
  exists r w', handle round_percent render ep req e w = (r, w')
    /\ log w' = log w ++ [Respond 403 NoBody]
    /\ Bot.same_maps w w'.
Proof.
  intros Hg. unfold handle, try_finally, try_catch. rewrite Hg.
  cbn [emit].
  destruct (cleanup_keeps ep req e (record (Respond 403 NoBody) w))
    as (r & w' & Hc & Hl & Hs).
  rewrite Hc. destruct r as [[]|err]; eexists _, _;
    (split; [reflexivity|]); rewrite Hl; (split; [reflexivity|]);
    exact Hs.
Qed.
End Guard.

(** C2.  On every route, whatever the route would do past its guard,
    whatever the sessions and whatever the gateway would answer, a
    request without [x-auth] header, or with a header value holding no
    colon, adds to the log of calls the response 403 and nothing else,
    and leaves the maps of the process as they were: no chat is looked
    up and nothing is sent.  The value [abc123:deviceXYZ] parses to key
    [abc123] and device [deviceXYZ]. *)
Theorem auth_guard_rejects :
  (forall round_percent render ep req e w,
      x_auth req = None
      \/ (exists h, x_auth req = Some h /\ ":"%char ∉ Js.chars h) ->
      exists r w', handle round_percent render ep req e w = (r, w')
        /\ log w' = log w ++ [Respond 403 NoBody]
        /\ Bot.same_maps w w')
  /\ getDeviceInfo (Some "abc123:deviceXYZ")
     = Some (DeviceAuth "abc123" "deviceXYZ").
Proof.
  split; [|reflexivity].
  intros rp render ep req e w H. apply handle_rejected.
  destruct H as [-> | (h & -> & Hh)]; [reflexivity|].
  apply getDeviceInfo_no_colon, Hh.
Qed.

(** A photo upload without the header, into a process with one chat
    logged in. *)
Lemma auth_guard_rejects_witness :
  exists r w',
    handle (fun _ _ => 0) (fun _ _ _ => mret tt) Capture
      (Request None None "" 0 0 None) Scenario.quiet Scenario.logged_in
    = (r, w')
    /\ log w' = log Scenario.logged_in ++ [Respond 403 NoBody]
    /\ Bot.same_maps Scenario.logged_in w'.
Proof.
  apply (proj1 auth_guard_rejects (fun _ _ => 0) (fun _ _ _ => mret tt)
           Capture (Request None None "" 0 0 None)
           Scenario.quiet Scenario.logged_in).
  left. reflexivity.
Defined.

(** C9.  Every header value that holds a colon is accepted: the first
    two colon-separated segments become key and device id, and further
    segments are ignored.  [key:] gives key [key] and the empty device
    id, [key:dev:extra] gives key [key] and device [dev]; a request
    carrying [key:] is not answered 403 but handed to its route with
    that key and the empty device id. *)
Theorem getDeviceInfo_lenient :
  (forall h, ":"%char ∈ Js.chars h -> is_Some (getDeviceInfo (Some h)))
  /\ (forall h k d rest, Js.split ":" h = k :: d :: rest ->
        getDeviceInfo (Some h) = Some (DeviceAuth k d))
  /\ getDeviceInfo (Some "key:") = Some (DeviceAuth "key" "")
  /\ getDeviceInfo (Some "key:dev:extra") = Some (DeviceAuth "key" "dev")
  /\ (forall round_percent render ep req,
        x_auth req = Some "key:" ->
        handle round_percent render ep req =
          try_finally
            (try_catch
               (route round_percent render ep (DeviceAuth "key" "") req)
               (fun error => emit (Respond 500 (ErrorBody (message error)))))
            (cleanup ep req)).
Proof.
  split; [|split; [|split; [|split]]]; try reflexivity.
  - intros h Hh. destruct (split_separator _ _ Hh) as (k & d & rest & Hs).
    rewrite (getDeviceInfo_segments _ _ _ _ Hs). eauto.
  - apply getDeviceInfo_segments.
  - intros rp render ep req Hx. unfold handle. rewrite Hx. reflexivity.
Qed.

(** The header value [:] on its own. *)
Lemma getDeviceInfo_lenient_witness :
  is_Some (getDeviceInfo (Some ":"))
  /\ getDeviceInfo (Some "a:b:c:d") = Some (DeviceAuth "a" "b").
Proof.
  destruct getDeviceInfo_lenient as (Hany & Hseg & _).
  split.
  - apply (Hany ":"). apply elem_of_cons. left. reflexivity.
  - apply (Hseg "a:b:c:d" "a" "b" ["c"; "d"]). reflexivity.
Defined.

End IngressFacts.

(** ** Text exports *)

Module ExportFacts.
Import Relay Ingress.

Lemma chars_unwind cur : forall acc,
  Js.chars (unwind cur acc) = rev cur ++ Js.chars acc.
Proof.
  induction cur as [|c cur IH]; intros acc; [reflexivity|].
  cbn [unwind rev]. rewrite IH, <- app_assoc. reflexivity.
Qed.

Lemma joined_flush cur rest : joined (flush cur rest) = rev cur ++ joined rest.
Proof.
  destruct cur as [|c cur]; [reflexivity|].
  unfold flush, joined. cbn [map concat].
  rewrite chars_unwind, app_nil_r. reflexivity.
Qed.

Lemma match_go_joined maxLength s : forall cur room,
  joined (match_go maxLength cur room s)
  = rev cur
    ++ List.filter (fun c => negb (is_line_terminator c)) (Js.chars s).
Proof.
  induction s as [|c s IH]; intros cur room; cbn [match_go].
  - rewrite joined_flush. reflexivity.
  - unfold Js.chars. cbn [list_ascii_of_string List.filter].
    destruct (is_line_terminator c); cbn [negb].
    + rewrite joined_flush, IH. reflexivity.
    + destruct room as [|room'].
      * rewrite joined_flush, IH. reflexivity.
      * rewrite IH. cbn [rev]. rewrite <- app_assoc. reflexivity.
Qed.

(** What the chunks cover: the body without its line terminators. *)
Lemma match_chunks_joined maxLength s :
  joined (match_chunks maxLength s)
  = List.filter (fun c => negb (is_line_terminator c)) (Js.chars s).
Proof. apply match_go_joined. Qed.

Lemma length_chars s : length (Js.chars s) = String.length s.
Proof. induction s; simpl; auto. Qed.

Lemma flush_bounded maxLength cur rest :
  (length cur <= maxLength)%nat ->
  Forall (bounded maxLength) rest ->
  Forall (bounded maxLength) (flush cur rest).
Proof.
  destruct cur as [|c cur]; intros Hc Hrest; [exact Hrest|].
  unfold flush. constructor; [|exact Hrest]. unfold bounded.
  rewrite <- length_chars, chars_unwind, app_nil_r, length_rev.
  simpl in *. lia.
Qed.

Lemma match_go_bounded maxLength s : forall cur room,
  (1 <= maxLength)%nat -> (length cur + room = maxLength)%nat ->
  Forall (bounded maxLength) (match_go maxLength cur room s).
Proof.
  intros cur room Hmax. revert cur room.
  induction s as [|c s IH]; intros cur room Hlen; cbn [match_go].
  - apply flush_bounded; [lia|constructor].
  - destruct (is_line_terminator c).
    + apply flush_bounded; [lia|]. apply IH. simpl. lia.
    + destruct room as [|room'].
      * apply flush_bounded; [lia|]. apply IH. simpl. lia.
      * apply IH. simpl. lia.
Qed.

(** Every chunk holds between one and [maxLength] characters. *)
Lemma match_chunks_bounded maxLength s :
  (1 <= maxLength)%nat ->
  Forall (bounded maxLength) (match_chunks maxLength s).
Proof. intros H. apply match_go_bounded; simpl; lia. Qed.

(** C5 at a body of 4001 characters holding one line feed.  The body is
    cut at the line feed into two parts, [a] and 3999 times [b]; the
    characters of the parts are not those of the body, the line feed
    being in neither; and a chat bound to the key receives exactly these
    two parts, labelled 1/2 and 2/2. *)
Theorem export_loses_line_break :
  String.length Scenario.two_lines = 4001%nat
  /\ export_screens "Contacts Export" Scenario.two_lines
     = [Export "Contacts Export" (Some (1, 2)%nat) "a";
        Export "Contacts Export" (Some (2, 2)%nat) (Js.repeat "b" 3999)]
  /\ joined (match_chunks 4000 Scenario.two_lines)
     <> Js.chars Scenario.two_lines
  /\ forall round_percent render,
       log (snd (handle round_percent render TextContacts
                   (Request (Some "k:dev1") None Scenario.two_lines 0 0 None)
                   Scenario.quiet Scenario.logged_in))
       = [SendMessage 7 (Export "Contacts Export" (Some (1, 2)%nat) "a");
          SendMessage 7 (Export "Contacts Export" (Some (2, 2)%nat)
                           (Js.repeat "b" 3999));
          Respond 200 OkBody].
Proof.
  split; [vm_compute; reflexivity|].
  split; [vm_compute; reflexivity|].
  split.
  - assert (H1 : Nat.eqb
                   (length (joined (match_chunks 4000 Scenario.two_lines)))
                   (length (Js.chars Scenario.two_lines)) = false)
      by (vm_compute; reflexivity).
    intros H. rewrite H, Nat.eqb_refl in H1. discriminate H1.
  - intros rp render. vm_compute. reflexivity.
Qed.

End ExportFacts.

(** ** The permission report *)

Module PermissionsFacts.
Import Relay Ingress.




End PermissionsFacts.

(** ** The callback handler *)

Module CallbackFacts.
Import Relay Devices Bot.

Ltac allowed :=
  repeat (apply List.Forall_cons;
          [first [left; reflexivity | right; reflexivity]|]);
  apply List.Forall_nil.

(** Below the branches listed in [pre_session], a chat without keyed
    session reaches the session-expired answer. *)
Lemma callback_body_expired q e w :
  data q ∉ pre_session ->
  no_keyed_session (cq_chat q) w ->
  callback_body q e w = sessionExpired (cq_id q) (cq_chat q) e w.
Proof.
  intros Hpre Hno. unfold pre_session in Hpre.
  rewrite !not_elem_of_cons in Hpre.
  destruct Hpre as (H1 & H2 & H3 & H4 & H5 & H6 & H7 & H8 & H9 & _).
  unfold callback_body.
  rewrite !bool_decide_eq_false_2 by tauto.
  unfold mbind at 1, M_bind at 1, gets.
  unfold no_keyed_session in Hno.
  destruct (map_get (cq_chat q) (userSessions w)) as [s|]; [|reflexivity].
  rewrite Hno. reflexivity.
Qed.

(** An identifier with the prefix [gallery_custom_] passes the prefix
    test of [isCommand], which stands above the custom-count branch: it
    is queued as a command and no prompt is recorded for it. *)
Lemma gallery_custom_shadowed data :
  Js.startsWith data "gallery_custom_" = true -> isCommand data = true.
Proof.
  unfold Js.startsWith. intros H.
  do 8 (destruct data as [|? data]; [discriminate|];
        cbn [String.prefix] in H;
        destruct (ascii_dec _ _) as [<-|]; [|discriminate]).
  destruct data; reflexivity.
Qed.

Example gallery_custom_is_queued :
  let run := callback_query (CallbackQuery "cb1" "gallery_custom_camera" 7 42)
               Scenario.quiet Scenario.logged_in in
  fst run = Ret tt
  /\ awaitingCustom (snd run) = ∅
  /\ last (log (snd run))
     = Some (DbUpdate "devices/k/dev1" "gallery_custom_camera" 7 42 1000).
Proof. repeat split; vm_compute; reflexivity. Qed.

(** A direct command in a chat that is logged in with a device selected:
    acknowledgement, nine animation frames with eight pauses, then the
    command on the queue of the device. *)
Example capture_front_is_queued :
  let run := callback_query (CallbackQuery "cb1" "capture_front" 7 42)
               Scenario.quiet Scenario.logged_in in
  fst run = Ret tt
  /\ length (log (snd run)) = 19%nat
  /\ head (log (snd run))
     = Some (AnswerCallbackQuery "cb1" "📸 Capturing front photo..." false)
  /\ last (log (snd run))
     = Some (DbUpdate "devices/k/dev1" "capture_front" 7 42 1000).
Proof. repeat split; vm_compute; reflexivity. Qed.

(** Identifiers outside [logout_identifiers] pass the logout listener
    untouched. *)
Lemma logout_handlers_idle q e w :
  data q ∉ logout_identifiers -> logout_handlers q e w = (Ret tt, w).
Proof.
  intros Hid. unfold logout_identifiers in Hid.
  rewrite !not_elem_of_cons in Hid. destruct Hid as (H1 & H2 & _).
  unfold logout_handlers.
  rewrite !bool_decide_eq_false_2 by assumption. reflexivity.
Qed.

(** C1 as stated fails at each identifier handled above the session
    check.  In a process without any session, [device_menu] is answered
    and the device-controls menu is shown, [login_start] is answered and
    the login prompt is sent, and for none of the nine identifiers does
    the log of calls hold the session-expired alert; [logout_yes] is
    answered by the logout listener as a successful logout. *)
Lemma ungated_identifiers :
  map_get 7 (userSessions Scenario.fresh) = None
  /\ log (snd (callback_query (CallbackQuery "cb1" "device_menu" 7 42)
                 Scenario.quiet Scenario.fresh))
     = [AnswerCallbackQuery "cb1" "" false;
        EditMessageText 7 42 DeviceControls]
  /\ log (snd (callback_query (CallbackQuery "cb1" "login_start" 7 42)
                 Scenario.quiet Scenario.fresh))
     = [AnswerCallbackQuery "cb1" "" false; SendMessage 7 LoginPrompt]
  /\ forallb (fun d =>
       negb (existsb is_expired_alert
               (log (snd (callback_query (CallbackQuery "cb1" d 7 42)
                            Scenario.quiet Scenario.fresh)))))
       pre_session = true
  /\ log (snd (logout_handlers (CallbackQuery "cb1" "logout_yes" 7 42)
                 Scenario.quiet Scenario.fresh))
     = [AnswerCallbackQuery "cb1" "✅ Logged out successfully" true;
        EditMessageText 7 42 Goodbye].
Proof. repeat split; vm_compute; reflexivity. Qed.

(** C1, amended.  For every identifier other than the nine of
    [pre_session] and the two of [logout_identifiers], in a chat that has
    no session or whose session has an empty key, the handler is the
    session-expired answer under the catch-all: its first call is the
    session-expired alert, every further call is the message telling to
    log in again or the generic error alert, and no map of the process
    changes; the logout listener does nothing.  When the gateway accepts
    both calls, the handler returns after exactly the alert and the
    message. *)
Theorem session_check_guards q e w :
  data q ∉ pre_session ++ logout_identifiers ->
  no_keyed_session (cq_chat q) w ->
  callback_query q e w
  = try_catch (sessionExpired (cq_id q) (cq_chat q))
      (fun _ =>
         answer (cq_id q) "❌ An error occurred. Please try again." true)
      e w
  /\ (exists r w' rest,
        callback_query q e w = (r, w')
        /\ log w' = log w ++ expired_alert (cq_id q) :: rest
        /\ Forall (fun c => c = SendMessage (cq_chat q) SessionExpired
                            \/ c = error_alert (cq_id q)) rest
        /\ same_maps w w')
  /\ (forall i j,
        outcome e (length (log w)) = Done i ->
        outcome e (S (length (log w))) = Done j ->
        callback_query q e w
        = (Ret tt, record (SendMessage (cq_chat q) SessionExpired)
                     (record (expired_alert (cq_id q)) w)))
  /\ (forall w', logout_handlers q e w' = (Ret tt, w')).
Proof.
  intros Hid Hno. apply not_elem_of_app in Hid as [Hpre Hlogout].
  assert (E : callback_query q e w
              = try_catch (sessionExpired (cq_id q) (cq_chat q))
                  (fun _ => answer (cq_id q)
                              "❌ An error occurred. Please try again." true)
                  e w).
  { unfold callback_query, try_catch.
    rewrite (callback_body_expired q e w Hpre Hno). reflexivity. }
  split; [exact E|]. rewrite E. clear E.
  split; [|split];
    [| |intros w'; apply logout_handlers_idle, Hlogout].
  - unfold try_catch, sessionExpired, answer, sendMessage.
    unfold mbind, M_bind, mret, M_ret, perform.
    destruct (outcome e (length (log w))) as [i|err1]; simpl;
      rewrite ?length_app; cbn [length]; rewrite ?Nat.add_1_r.
    + destruct (outcome e (S (length (log w)))) as [j|err2]; simpl;
        rewrite ?length_app; cbn [length]; rewrite ?Nat.add_1_r.
      * eexists _, _, _. split; [reflexivity|]. simpl.
        split; [rewrite <- app_assoc; reflexivity|].
        split; [allowed|]. repeat split.
      * destruct (outcome e (S (S (length (log w))))); simpl;
          eexists _, _, _; (split; [reflexivity|]); simpl;
          (split; [rewrite <- !app_assoc; reflexivity|]);
          (split; [allowed|]); repeat split.
    + destruct (outcome e (S (length (log w)))); simpl;
        eexists _, _, _; (split; [reflexivity|]); simpl;
        (split; [rewrite <- !app_assoc; reflexivity|]);
        (split; [allowed|]); repeat split.
  - unfold try_catch, sessionExpired, answer, sendMessage.
    unfold mbind, M_bind, mret, M_ret, perform.
    intros i j O1 O2. rewrite O1. simpl.
    rewrite ?length_app; cbn [length]; rewrite ?Nat.add_1_r.
    rewrite O2. reflexivity.
Qed.

(** The button [main_menu] pressed in a chat without session. *)
Lemma session_check_guards_witness :
  callback_query (CallbackQuery "cb1" "main_menu" 7 42)
    Scenario.quiet Scenario.fresh
  = (Ret tt, record (SendMessage 7 SessionExpired)
               (record (expired_alert "cb1") Scenario.fresh)).
Proof.
  refine (proj1 (proj2 (proj2
            (session_check_guards (CallbackQuery "cb1" "main_menu" 7 42)
               Scenario.quiet Scenario.fresh _ _)))
            100 101 eq_refl eq_refl).
  - apply (bool_decide_unpack _). vm_compute. exact I.
  - exact I.
Defined.

End CallbackFacts.

(** ** The reply to a custom-count prompt *)

Module MessageFacts.
Import Relay Devices Bot.

(** Unfold the monad and normalise the position in the log. *)
Ltac run :=
  repeat (progress
    (unfold mbind, M_bind, mret, M_ret, gets, modify, emit, perform,
       date_now, queue, sendMessage, answer, editMessageText;
     simpl; rewrite ?length_app; cbn [length]; rewrite ?Nat.add_1_r)).







End MessageFacts.

(** * Further properties of the handlers *)

(** ** Path tokens: alphabet, round trip, parent directory *)

Module TokenFacts.
Import PathToken Alphabet.

Lemma char_of_sextet_url_safe s : url_safe (char_of_sextet s) = true.
Proof.
  destruct s as [[[[[[] []] []] []] []] []]; vm_compute; reflexivity.
Qed.

(** X1. enc produces only characters of the URL-safe base64 alphabet
    (letters, digits, - and _). On well-formed text dec(enc(s)) gives s
    back, so two different texts never share a token. *)
Theorem enc_token_round_trip :
  (forall s, forallb url_safe (Js.chars (enc s)) = true)
  /\ (forall s, well_formed s -> dec (enc s) = Some s)
  /\ (forall s1 s2, well_formed s1 -> well_formed s2 ->
        enc s1 = enc s2 -> s1 = s2).
Proof.
  split; [|split].
  - intros s. unfold enc, base64url, Js.chars.
    rewrite list_ascii_of_string_of_list_ascii.
    induction (encode_bytes (utf8_encode s)) as [|x l IH]; [reflexivity|].
    cbn [map forallb]. rewrite char_of_sextet_url_safe, IH. reflexivity.
  - apply PathTokenFacts.dec_enc.
  - intros s1 s2 H1 H2 E.
    apply (f_equal dec) in E.
    rewrite !PathTokenFacts.dec_enc in E by assumption. congruence.
Qed.

Lemma enc_token_round_trip_witness :
  dec (enc [47; 0x4E2D; 47; 0x1F600]%N) = Some [47; 0x4E2D; 47; 0x1F600]%N.
Proof.
  apply (proj1 (proj2 enc_token_round_trip)). repeat constructor.
Defined.

Lemma dirname_scan_found l : forall i m e,
  dirname_scan l i m = Some e ->
  (1 <= e <= i)%nat /\ l !! (i - e)%nat = Some slash.
Proof.
  induction l as [|c l IH]; intros i m e H; [discriminate|].
  destruct i as [|j]; [discriminate|]. cbn [dirname_scan] in H.
  destruct (N.eqb_spec c slash) as [->|Hc].
  - destruct m.
    + apply IH in H as [H1 H2]. split; [lia|].
      replace (S j - e)%nat with (S (j - e)) by lia. exact H2.
    + inversion H; subst. split; [lia|]. rewrite Nat.sub_diag. reflexivity.
  - apply IH in H as [H1 H2]. split; [lia|].
    replace (S j - e)%nat with (S (j - e)) by lia. exact H2.
Qed.

Lemma dirname_scan_none l : forall i,
  slash ∉ l -> forall m, dirname_scan l i m = None.
Proof.
  induction l as [|c l IH]; intros i Hl m; [reflexivity|].
  destruct i as [|j]; [reflexivity|]. cbn [dirname_scan].
  apply not_elem_of_cons in Hl as [Hc Hl].
  destruct (N.eqb_spec c slash) as [->|_]; [congruence|].
  apply IH, Hl.
Qed.

(** X2. For a well-formed path p, parent(enc(p)) is the token of dirname(p).
    That directory is '.' when p has no slash, is never empty, and for an
    absolute path is a prefix of p that starts with a slash. *)
Theorem parent_leads_up p :
  well_formed p ->
  parent (enc p) = Some (enc (dirname p))
  /\ (slash ∉ p -> dirname p = text ".")
  /\ (head p = Some slash ->
        dirname p `prefix_of` p /\ head (dirname p) = Some slash)
  /\ dirname p <> [].
Proof.
  intros Hp. split; [|split; [|split]].
  - unfold parent. rewrite (PathTokenFacts.dec_enc p Hp). reflexivity.
  - intros Hs. unfold dirname. destruct p as [|c0 r]; [reflexivity|].
    rewrite dirname_scan_none.
    + apply not_elem_of_cons in Hs as [Hc _].
      destruct (N.eqb_spec c0 slash); [congruence|reflexivity].
    + rewrite rev_alt. intros Hin.
      apply (proj1 (elem_of_reverse slash (c0 :: r))) in Hin.
      exact (Hs Hin).
  - intros Hh. destruct p as [|c0 r]; [discriminate|].
    injection Hh as ->. unfold dirname. rewrite N.eqb_refl.
    destruct (dirname_scan _ _ _) as [e|] eqn:Hscan.
    + apply dirname_scan_found in Hscan as [He Hl].
      cbn [length] in He, Hl. rewrite ?Nat.sub_0_r in He, Hl.
      rewrite rev_alt in Hl.
      apply (proj1 (reverse_lookup_Some (slash :: r) _ _)) in Hl as [Hl _].
      cbn [andb]. destruct (Nat.eqb_spec e 1) as [->|Hne].
      * destruct r as [|c1 r']; [simpl in He; lia|].
        match type of Hl with
        | _ !! ?i = _ =>
            replace i with 1%nat in Hl by (cbn [length] in *; lia)
        end.
        cbn in Hl. injection Hl as ->.
        split; [exists r'; reflexivity|reflexivity].
      * split; [apply prefix_take|].
        destruct e as [|e']; [lia|]. reflexivity.
    + split; [exists r; reflexivity|reflexivity].
  - unfold dirname. destruct p as [|c0 r]; [discriminate|].
    destruct (dirname_scan _ _ _) as [e|] eqn:Hscan.
    + apply dirname_scan_found in Hscan as [He _].
      destruct (_ && _); [discriminate|].
      destruct e as [|e']; [lia|]. discriminate.
    + destruct (_ =? _)%N; discriminate.
Qed.

Lemma parent_leads_up_witness :
  dirname (text "/sdcard/DCIM") `prefix_of` text "/sdcard/DCIM"
  /\ head (dirname (text "/sdcard/DCIM")) = Some slash.
Proof.
  refine (proj1 (proj2 (proj2 (parent_leads_up (text "/sdcard/DCIM") _)))
            eq_refl).
  apply PathTokenFacts.text_well_formed. vm_compute. repeat constructor.
Defined.

End TokenFacts.

(** ** The upload limiter keeps devices apart *)

Module LimiterFacts.
Import RateLimiter.

(** X3. A call of checkUploadRate for one device leaves the limiter entry of
    every other device as it was, and does not change what a later call for
    another device returns. *)
Theorem checkUploadRate_per_device now d d' (m : gmap string limits) :
  d <> d' ->
  snd (checkUploadRate now d m) !! d' = m !! d'
  /\ (forall t, fst (checkUploadRate t d' (snd (checkUploadRate now d m)))
               = fst (checkUploadRate t d' m)).
Proof.
  intros Hd.
  assert (H : snd (checkUploadRate now d m) !! d' = m !! d').
  { unfold checkUploadRate. cbn [snd]. apply lookup_insert_ne, Hd. }
  split; [exact H|]. intros t.
  unfold checkUploadRate at 1 3. cbn [fst]. rewrite H. reflexivity.
Qed.

Lemma checkUploadRate_per_device_witness :
  snd (checkUploadRate 1000 "dev1" ∅) !! "dev2" = (∅ : gmap string limits) !! "dev2".
Proof.
  refine (proj1 (checkUploadRate_per_device 1000 "dev1" "dev2" ∅ _)).
  discriminate.
Defined.

End LimiterFacts.

(** ** Sessions: expiry and activity *)

Module SessionFacts.
Import Relay Bot Behaviour Housekeeping.

Lemma map_get_notin {V} k (m : jsmap V) :
  k ∉ m.*1 -> map_get k m = None.
Proof.
  induction m as [|[k' v] m IH]; intros Hk; [reflexivity|].
  rewrite fmap_cons in Hk. cbn [fst] in Hk. apply not_elem_of_cons in Hk as [Hne Hk].
  cbn [map_get]. destruct (decide (k' = k)); [congruence|]. apply IH, Hk.
Qed.

Lemma map_get_set {V} k (v : V) m : map_get k (map_set k v m) = Some v.
Proof.
  induction m as [|[k' v'] m IH]; cbn [map_set map_get].
  - destruct (decide (k = k)); congruence.
  - destruct (decide (k' = k)) as [->|Hne]; cbn [map_get].
    + destruct (decide (k = k)); congruence.
    + destruct (decide (k' = k)); congruence.
Qed.

Lemma map_get_set_ne {V} k k' (v : V) m :
  k <> k' -> map_get k' (map_set k v m) = map_get k' m.
Proof.
  intros Hne. induction m as [|[k0 v0] m IH]; cbn [map_set map_get].
  - destruct (decide (k = k')); congruence.
  - destruct (decide (k0 = k)) as [->|Hk0]; cbn [map_get].
    + destruct (decide (k = k')); congruence.
    + destruct (decide (k0 = k')); [reflexivity|exact IH].
Qed.

Lemma map_get_alter {V} (f : V -> V) k m :
  map_get k (map_alter f k m) = f <$> map_get k m.
Proof.
  induction m as [|[k' v] m IH]; [reflexivity|]. cbn [map_alter map_get].
  destruct (decide (k' = k)) as [->|Hne]; cbn [map_get].
  - destruct (decide (k = k)); [reflexivity|congruence].
  - destruct (decide (k' = k)); [congruence|exact IH].
Qed.

Lemma map_get_alter_ne {V} (f : V -> V) k k' m :
  k <> k' -> map_get k' (map_alter f k m) = map_get k' m.
Proof.
  intros Hne. induction m as [|[k0 v] m IH]; [reflexivity|].
  cbn [map_alter map_get].
  destruct (decide (k0 = k)) as [->|Hk0]; cbn [map_get].
  - destruct (decide (k = k')); congruence.
  - destruct (decide (k0 = k')); [reflexivity|exact IH].
Qed.

Lemma map_alter_keys {V} (f : V -> V) k m :
  (map_alter f k m).*1 = m.*1.
Proof.
  induction m as [|[k' v] m IH]; [reflexivity|]. cbn [map_alter].
  destruct (decide (k' = k)); rewrite !fmap_cons; [reflexivity|].
  rewrite IH. reflexivity.
Qed.

Lemma map_get_delete {V} k (m : jsmap V) :
  NoDup (m.*1) -> map_get k (map_delete k m) = None.
Proof.
  induction m as [|[k' v] m IH]; intros Hm; [reflexivity|].
  rewrite fmap_cons in Hm. cbn [fst] in Hm. apply NoDup_cons in Hm as [Hk' Hm].
  cbn [map_delete]. destruct (decide (k' = k)) as [->|Hne].
  - apply map_get_notin, Hk'.
  - cbn [map_get]. destruct (decide (k' = k)); [congruence|]. apply IH, Hm.
Qed.

Lemma map_get_delete_ne {V} k k' (m : jsmap V) :
  k <> k' -> map_get k' (map_delete k m) = map_get k' m.
Proof.
  intros Hne. induction m as [|[k0 v] m IH]; [reflexivity|].
  cbn [map_delete map_get].
  destruct (decide (k0 = k)) as [->|Hk0].
  - destruct (decide (k = k')); congruence.
  - cbn [map_get]. destruct (decide (k0 = k')); [reflexivity|exact IH].
Qed.

Lemma map_delete_middle {V} k (v : V) pre rest :
  k ∉ pre.*1 -> map_delete k (pre ++ (k, v) :: rest) = pre ++ rest.
Proof.
  induction pre as [|[k' v'] pre IH]; intros Hk; cbn [app map_delete].
  - destruct (decide (k = k)); congruence.
  - rewrite fmap_cons in Hk. cbn [fst] in Hk. apply not_elem_of_cons in Hk as [Hne Hk].
    destruct (decide (k' = k)); [congruence|]. rewrite (IH Hk). reflexivity.
Qed.

(** The loop deletes the idle entries and keeps the others in place. *)
Lemma sweep_filter now entries : forall pre,
  NoDup ((pre ++ entries).*1) ->
  sweep now entries (pre ++ entries)
  = pre ++ filter (fun p => ~ idle now (snd p)) entries.
Proof.
  induction entries as [|[k s] entries IH]; intros pre Hnd; [reflexivity|].
  cbn [sweep]. fold (idle now s).
  rewrite fmap_app, fmap_cons in Hnd. cbn [fst] in Hnd.
  case_bool_decide as Hidle.
  - rewrite map_delete_middle.
    + rewrite IH.
      * rewrite filter_cons_False; [reflexivity|]. simpl. tauto.
      * rewrite fmap_app. apply NoDup_app in Hnd as (H1 & H2 & H3).
        apply NoDup_cons in H3 as [_ H3]. apply NoDup_app.
        split; [exact H1|]. split; [|exact H3].
        intros x Hx Hx'. apply (H2 x Hx). right. exact Hx'.
    + apply NoDup_app in Hnd as (_ & H2 & _). intros Hk.
      apply (H2 k Hk). left.
  - rewrite filter_cons_True by (simpl; tauto).
    rewrite (cons_middle _ pre), app_assoc. rewrite IH.
    + rewrite <- app_assoc. reflexivity.
    + rewrite <- app_assoc. cbn [app]. rewrite fmap_app, fmap_cons. exact Hnd.
Qed.

Lemma map_get_filter {V} (P : Z * V -> Prop) `{!forall p, Decision (P p)}
    k (m : jsmap V) :
  NoDup (m.*1) ->
  map_get k (filter P m)
  = map_get k m ≫= (fun v => if decide (P (k, v)) then Some v else None).
Proof.
  induction m as [|[k' v] m IH]; intros Hm; [reflexivity|].
  rewrite fmap_cons in Hm. cbn [fst] in Hm. apply NoDup_cons in Hm as [Hk' Hm].
  destruct (decide (P (k', v))) as [HP|HP].
  - rewrite (filter_cons_True P _ _ HP). cbn [map_get].
    destruct (decide (k' = k)) as [->|Hne]; [|apply IH, Hm].
    simpl. destruct (decide (P (k, v))); tauto.
  - rewrite (filter_cons_False P _ _ HP). cbn [map_get].
    destruct (decide (k' = k)) as [->|Hne]; [|apply IH, Hm].
    simpl. destruct (decide (P (k, v))); [tauto|].
    apply map_get_notin. intros Hin. apply Hk'.
    apply list_elem_of_fmap in Hin as (p & Hp & Hin).
    apply list_elem_of_filter in Hin as [_ Hin].
    apply list_elem_of_fmap. exists p. split; assumption.
Qed.

(** X4. cleanupSessions removes exactly the sessions whose last activity
    lies more than SESSION_TIMEOUT (20 minutes) before the clock reading,
    keeps every other session unchanged and in order, creates none, and
    calls neither Telegram nor the store. *)
Theorem cleanupSessions_removes_idle e w :
  one_entry_per_chat w ->
  exists w',
    cleanupSessions e w = (Ret tt, w')
    /\ userSessions w'
       = filter (fun p => ~ idle (clock e (ticks w)) (snd p)) (userSessions w)
    /\ (forall chat s, map_get chat (userSessions w) = Some s ->
          idle (clock e (ticks w)) s ->
          map_get chat (userSessions w') = None)
    /\ (forall chat s, map_get chat (userSessions w) = Some s ->
          ~ idle (clock e (ticks w)) s ->
          map_get chat (userSessions w') = Some s)
    /\ (forall chat, map_get chat (userSessions w) = None ->
          map_get chat (userSessions w') = None)
    /\ log w' = log w.
Proof.
  intros Hnd. unfold one_entry_per_chat in Hnd.
  eexists. split; [reflexivity|]. cbn.
  rewrite (sweep_filter _ _ [] Hnd). cbn [app].
  split; [reflexivity|].
  split; [|split; [|split; [|reflexivity]]];
    intros chat; [intros s Hs Hidle|intros s Hs Hidle|intros Hs];
    rewrite (map_get_filter _ _ _ Hnd), Hs; simpl; try reflexivity;
    destruct (decide _); tauto.
Qed.

Lemma cleanupSessions_removes_idle_witness :
  exists w',
    cleanupSessions (Env (fun _ => 1300000) (fun _ => Done 0) (fun _ => []))
      (World [(7, Session "k" None 0 None); (8, Session "k" None 900000 None)]
         ∅ ∅ ∅ ∅ ∅ 0 [])
    = (Ret tt, w')
    /\ userSessions w' = [(8, Session "k" None 900000 None)].
Proof.
  destruct (cleanupSessions_removes_idle
              (Env (fun _ => 1300000) (fun _ => Done 0) (fun _ => []))
              (World [(7, Session "k" None 0 None);
                      (8, Session "k" None 900000 None)] ∅ ∅ ∅ ∅ ∅ 0 []))
    as (w' & H1 & H2 & _).
  - apply (bool_decide_unpack _). vm_compute. exact I.
  - exists w'. split; [exact H1|]. rewrite H2. reflexivity.
Defined.

(** X5. A session touched by updateActivity survives a cleanupSessions that
    runs at most SESSION_TIMEOUT later: its lastActivity is the clock
    reading of the touch, its key, device and last command are unchanged. *)
Theorem updateActivity_keeps_alive chat s e w :
  one_entry_per_chat w ->
  map_get chat (userSessions w) = Some s ->
  clock e (S (ticks w)) - clock e (ticks w) <= SESSION_TIMEOUT ->
  exists w',
    (updateActivity chat;; cleanupSessions) e w = (Ret tt, w')
    /\ map_get chat (userSessions w')
       = Some (Session (key s) (selectedDevice s) (clock e (ticks w))
                 (lastCommand s)).
Proof.
  intros Hnd Hs Hclock. unfold one_entry_per_chat in Hnd.
  unfold updateActivity, cleanupSessions.
  unfold mbind, M_bind, gets, date_now, modify. rewrite Hs. cbn.
  eexists. split; [reflexivity|]. cbn.
  set (f := fun s0 : session =>
              Session (key s0) (selectedDevice s0) (clock e (ticks w))
                (lastCommand s0)).
  assert (Hnd' : NoDup (map_alter f chat (userSessions w)).*1)
    by (rewrite map_alter_keys; exact Hnd).
  rewrite (sweep_filter _ _ [] Hnd'). cbn [app].
  rewrite (map_get_filter _ _ _ Hnd'), map_get_alter, Hs. simpl.
  destruct (decide _) as [_|Hidle]; [reflexivity|].
  exfalso. apply Hidle. unfold idle, f. simpl. lia.
Qed.

Lemma updateActivity_keeps_alive_witness :
  exists w',
    (updateActivity 7;; cleanupSessions)
      (Env (fun n => 5000000 + 1000 * Z.of_nat n) (fun _ => Done 0)
         (fun _ => []))
      Scenario.logged_in = (Ret tt, w')
    /\ map_get 7 (userSessions w')
       = Some (Session "k" (Some "dev1") 5000000 None).
Proof.
  apply (updateActivity_keeps_alive 7 (Session "k" (Some "dev1") 0 None)
           (Env (fun n => 5000000 + 1000 * Z.of_nat n) (fun _ => Done 0)
              (fun _ => []))
           Scenario.logged_in).
  - apply (bool_decide_unpack _). vm_compute. exact I.
  - reflexivity.
  - vm_compute. discriminate.
Defined.

End SessionFacts.

(** ** The battery gauge *)

Module GaugeFacts.
Import Gauge.

(** X6. For an integer percentage from 0 to 109 getBatteryVisual returns the
    gauge with floor(p/10) full cells and the remaining of 10 cells empty,
    with the low-battery symbol up to 20. For a negative percentage or one
    of 110 and more it throws (repeat gets a negative count). *)
Theorem getBatteryVisual_range p :
  (0 <= p < 110 ->
     getBatteryVisual p
     = Some (gauge (bool_decide (p <= 20)) (Z.to_nat (p / 10))
               (10 - Z.to_nat (p / 10)) p)
       /\ (Z.to_nat (p / 10) <= 10)%nat)
  /\ (p < 0 \/ 110 <= p -> getBatteryVisual p = None).
Proof.
  unfold getBatteryVisual, repeat_count, gauge. split.
  - intros Hp.
    assert (H : 0 <= p / 10 <= 10)
      by (zify; Z.to_euclidean_division_equations; lia).
    rewrite (bool_decide_eq_true_2 (0 <= p / 10)) by lia.
    rewrite (bool_decide_eq_true_2 (0 <= 10 - p / 10)) by lia.
    split; [|lia]. simpl.
    replace (Z.to_nat (10 - p / 10)) with (10 - Z.to_nat (p / 10))%nat
      by lia.
    destruct (bool_decide (p <= 20)); [reflexivity|].
    destruct (bool_decide (p >= 80)); reflexivity.
  - intros Hp.
    assert (H : p / 10 < 0 \/ 10 < p / 10)
      by (zify; Z.to_euclidean_division_equations; lia).
    destruct H as [H|H].
    + rewrite (bool_decide_eq_false_2 (0 <= p / 10)) by lia. reflexivity.
    + rewrite (bool_decide_eq_true_2 (0 <= p / 10)) by lia.
      rewrite (bool_decide_eq_false_2 (0 <= 10 - p / 10)) by lia.
      reflexivity.
Qed.

Lemma getBatteryVisual_range_witness :
  getBatteryVisual 85 = Some (gauge false 8 2 85)
  /\ getBatteryVisual 110 = None.
Proof.
  split.
  - apply (proj1 (getBatteryVisual_range 85)). lia.
  - apply (proj2 (getBatteryVisual_range 110)). lia.
Defined.

End GaugeFacts.

(** ** Relations kept by the operations of the monad *)

Module BehaviourFacts.
Import Relay Devices Bot Behaviour.

#[global] Instance logged_preorder P : PreOrder (logged P).
Proof.
  split.
  - intros w. exists []. split; [symmetry; apply app_nil_r|constructor].
  - intros a b c (r1 & E1 & F1) (r2 & E2 & F2). exists (r1 ++ r2).
    split; [rewrite E2, E1, app_assoc; reflexivity|].
    apply Forall_app. split; assumption.
Qed.

#[global] Instance same_preorder {B} (f : world -> B) : PreOrder (same f).
Proof.
  split; [intros w; reflexivity|].
  intros a b c E1 E2. unfold same in *. congruence.
Qed.

#[global] Instance both_preorder I J :
  PreOrder I -> PreOrder J -> PreOrder (both I J).
Proof.
  intros HI HJ. split.
  - intros w. split; reflexivity.
  - intros a b c [I1 J1] [I2 J2]. split; etransitivity; eassumption.
Qed.

Section Keeps.
Context (I : world -> world -> Prop) (HI : PreOrder I).

Lemma keeps_ret {A} (a : A) : keeps I (mret a).
Proof. intros e w. simpl. reflexivity. Qed.

Lemma keeps_throw {A} err : keeps I (@throw A err).
Proof. intros e w. simpl. reflexivity. Qed.

Lemma keeps_gets {A} (f : world -> A) : keeps I (gets f).
Proof. intros e w. simpl. reflexivity. Qed.

Lemma keeps_asks {A} (f : env -> A) : keeps I (asks f).
Proof. intros e w. simpl. reflexivity. Qed.

Lemma keeps_bind {A B} (m : M A) (f : A -> M B) :
  keeps I m -> (forall a, keeps I (f a)) -> keeps I (m ≫= f).
Proof.
  intros Hm Hf e w. unfold mbind, M_bind. specialize (Hm e w).
  destruct (m e w) as [[a|err] w1]; simpl in *; [|exact Hm].
  etransitivity; [exact Hm|apply Hf].
Qed.

Lemma keeps_try_catch {A} (m : M A) h :
  keeps I m -> (forall err, keeps I (h err)) -> keeps I (try_catch m h).
Proof.
  intros Hm Hh e w. unfold try_catch. specialize (Hm e w).
  destruct (m e w) as [[a|err] w1]; simpl in *; [exact Hm|].
  etransitivity; [exact Hm|apply Hh].
Qed.

Lemma keeps_try_finally {A} (m : M A) f :
  keeps I m -> keeps I f -> keeps I (try_finally m f).
Proof.
  intros Hm Hf e w. unfold try_finally. specialize (Hm e w).
  destruct (m e w) as [r w1]. specialize (Hf e w1).
  destruct (f e w1) as [[[]|err] w2]; simpl in *;
    (etransitivity; [exact Hm|exact Hf]).
Qed.

Lemma keeps_perform c : (forall w, I w (record c w)) -> keeps I (perform c).
Proof.
  intros Hc e w. unfold perform.
  destruct (outcome e (length (log w))); apply Hc.
Qed.

Lemma keeps_emit c : (forall w, I w (record c w)) -> keeps I (emit c).
Proof. intros Hc e w. apply Hc. Qed.

Lemma keeps_date_now : (forall w, I w (tick w)) -> keeps I date_now.
Proof. intros Ht e w. apply Ht. Qed.

Lemma keeps_modify f : (forall w, I w (f w)) -> keeps I (modify f).
Proof. intros Hf e w. apply Hf. Qed.

Lemma keeps_mapM {A B} (f : A -> M B) l :
  (forall a, keeps I (f a)) -> keeps I (mapM f l).
Proof.
  intros Hf. induction l as [|a l IH]; cbn [mapM].
  - apply keeps_ret.
  - apply keeps_bind; [apply Hf|]. intros b.
    apply keeps_bind; [exact IH|]. intros bs. apply keeps_ret.
Qed.

End Keeps.

Lemma logged_record (P : call -> Prop) c w : P c -> logged P w (record c w).
Proof. intros Hc. exists [c]. split; [reflexivity|]. repeat constructor. exact Hc. Qed.

Lemma logged_silent (P : call -> Prop) w w' : log w' = log w -> logged P w w'.
Proof. intros E. exists []. rewrite E, app_nil_r. split; [reflexivity|constructor]. Qed.

End BehaviourFacts.

(** ** What the callback listeners never do *)

Module ConductFacts.
Import Relay Devices Bot Behaviour Conduct BehaviourFacts.

(** A branch that the prefix test above it has already taken. *)
Ltac shadowed :=
  match goal with
  | H1 : isCommand ?d = false,
    H2 : Js.startsWith ?d "gallery_custom_" = true |- _ =>
      rewrite (CallbackFacts.gallery_custom_shadowed d H2) in H1;
      discriminate H1
  | H1 : isCommand ?d = false,
    H2 : bool_decide (?d = "rec_front" \/ ?d = "rec_back") = true |- _ =>
      apply bool_decide_eq_true in H2; destruct H2 as [H2|H2];
      rewrite H2 in H1; vm_compute in H1; discriminate H1
  end.

(** Take a handler apart down to its calls; [side] proves that one call,
    one reading of the clock or one update of a map is allowed. *)
Ltac frame side :=
  repeat first
    [ solve [exfalso; shadowed]
    | apply keeps_ret; exact _ | apply keeps_throw; exact _
    | apply keeps_gets; exact _ | apply keeps_asks; exact _
    | apply keeps_bind; [exact _| |intros ?]
    | apply keeps_try_catch; [exact _| |intros ?]
    | apply keeps_mapM; [exact _|intros ?]
    | apply keeps_perform; intros ?; side
    | apply keeps_emit; intros ?; side
    | apply keeps_date_now; intros ?; side
    | apply keeps_modify; intros ?; side
    | match goal with
      | |- keeps _ (if ?b then _ else _) => destruct b eqn:?
      | |- keeps _ (match ?x with _ => _ end) => destruct x eqn:?
      end
    | progress unfold answer, editMessageText, sendMessage, queue,
        updateActivity, showDeviceSelection, getDevices, fetchDevices,
        sessionExpired, check_permissions, permissions_menu,
        battery_optimization ].

Lemma keeps_loading_frames I `{!PreOrder I} chatId msgId type duration steps
    frames :
  (forall i w, I w (record (EditMessageText chatId msgId
                              (LoadingFrame type i)) w)) ->
  (forall w, I w (record (Sleep duration (Z.of_nat steps)) w)) ->
  keeps I (loading_frames chatId msgId type duration steps frames).
Proof.
  intros He Hs. induction frames as [|i frames IH]; cbn [loading_frames].
  - apply keeps_ret, _.
  - apply keeps_bind; [exact _| |].
    + frame ltac:(first [apply He | apply Hs]).
    + intros [|]; [exact IH|apply keeps_ret, _].
Qed.

(** Every call of the callback handler is addressed to the chat that
    pressed the button, none shows a shadowed screen, and no pending
    custom prompt is recorded. *)
Ltac conduct :=
  split;
    [ first [ apply logged_record; split; simpl; auto
            | apply logged_silent; reflexivity ]
    | reflexivity ].

Lemma callback_query_conduct q :
  keeps (both (logged (fun c => addressed q c /\ reachable_screen c))
           (same awaitingCustom))
    (callback_query q).
Proof.
  unfold callback_query, callback_body.
  frame conduct.
  all: unfold authenticated, execute.
  all: frame conduct.
  all: try (unfold showAnimatedLoading; apply keeps_loading_frames;
            [exact _|intros; conduct..]).
  all: frame conduct.
Qed.

Lemma logout_handlers_conduct q :
  keeps (both (logged (fun c => addressed q c /\ reachable_screen c))
           (same awaitingCustom))
    (logout_handlers q).
Proof. unfold logout_handlers. frame conduct. Qed.

Lemma Forall_weaken {A} (P Q : A -> Prop) l :
  (forall x, P x -> Q x) -> Forall P l -> Forall Q l.
Proof. intros H. induction 1; constructor; auto. Qed.

(** X7. Whatever the query, the state and the outcome of the calls, every
    call of the two callback_query listeners is an answer to the query they
    were given, a message, an animation or an edit sent to its chat (an edit
    to its message), a queued command that carries its chat and message, a
    read of the store or a pause. They delete no message, send no photo,
    video or document, schedule no deferred device selection and answer no
    HTTP request. *)
Theorem callback_addresses_its_chat q e w :
  (exists rest, log (snd (callback_query q e w)) = log w ++ rest
                /\ Forall (addressed q) rest)
  /\ (exists rest, log (snd (logout_handlers q e w)) = log w ++ rest
                   /\ Forall (addressed q) rest).
Proof.
  split.
  - destruct (callback_query_conduct q e w) as [(rest & E & F) _].
    exists rest. split; [exact E|].
    apply (Forall_weaken _ _ _ (fun c H => proj1 H) F).
  - destruct (logout_handlers_conduct q e w) as [(rest & E & F) _].
    exists rest. split; [exact E|].
    apply (Forall_weaken _ _ _ (fun c H => proj1 H) F).
Qed.

Ltac untouched :=
  first [ reflexivity | apply logged_record; exact I
        | apply logged_silent; reflexivity ].

Lemma auth_reply_keeps_custom m t : keeps (same awaitingCustom) (auth_reply m t).
Proof. unfold auth_reply. frame untouched. Qed.

Lemma search_keeps_custom m t : keeps (same awaitingCustom) (search m t).
Proof. unfold search. frame untouched. Qed.

(** X8. Neither callback listener ever changes awaitingCustom, and the first
    one never shows the recording-duration menu or the custom-count request:
    its rec_front, rec_back and gallery_custom_ branches are shadowed by the
    prefix test above them. The message handler therefore keeps
    awaitingCustom empty once it is empty. *)
Theorem custom_prompt_never_recorded :
  (forall q e w,
      awaitingCustom (snd (callback_query q e w)) = awaitingCustom w
      /\ exists rest, log (snd (callback_query q e w)) = log w ++ rest
                      /\ Forall reachable_screen rest)
  /\ (forall q e w,
        awaitingCustom (snd (logout_handlers q e w)) = awaitingCustom w)
  /\ (forall m e w,
        awaitingCustom w = ∅ -> awaitingCustom (snd (message m e w)) = ∅).
Proof.
  split; [|split].
  - intros q e w.
    destruct (callback_query_conduct q e w) as [(rest & E & F) S].
    split; [exact S|]. exists rest. split; [exact E|].
    apply (Forall_weaken _ _ _ (fun c H => proj2 H) F).
  - intros q e w. apply (logout_handlers_conduct q e w).
  - intros m e w Hw. unfold message.
    destruct (text m) as [t|]; [|exact Hw].
    destruct (negb (Js.truthy t)); [exact Hw|].
    unfold mbind at 1, M_bind at 1, gets at 1.
    assert (Hc : awaitingCustom (snd (custom_then_search m t e w)) = ∅).
    { unfold custom_then_search. unfold mbind at 1, M_bind at 1, gets at 1.
      rewrite Hw, lookup_empty.
      rewrite (search_keeps_custom m t e w). exact Hw. }
    destruct (awaitingAuth w !! m_chat m) as [a|]; [|exact Hc].
    destruct (replies_to m (messageId a)); [|exact Hc].
    rewrite (auth_reply_keeps_custom m t e w). exact Hw.
Qed.

Lemma custom_prompt_never_recorded_witness :
  awaitingCustom
    (snd (message (TextMessage (Some "50") 7 43 (Some 42)) Scenario.quiet
            Scenario.logged_in)) = ∅.
Proof.
  apply (proj2 (proj2 custom_prompt_never_recorded)). reflexivity.
Defined.

End ConductFacts.

(** ** Running a handler when every call is accepted *)

Module RunFacts.
Import Relay Devices Bot Behaviour Conduct BehaviourFacts.

Lemma perform_accepting e c w :
  accepting e ->
  perform c e w = (Ret (reply_id (outcome e (length (log w)))), record c w).
Proof.
  intros He. unfold perform. destruct (He (length (log w))) as [id ->].
  reflexivity.
Qed.

Lemma quiet_accepting : accepting Scenario.quiet.
Proof. intros n. eexists. reflexivity. Qed.

Lemma extend_nil w : extend w [] = w.
Proof. destruct w. unfold extend. simpl. rewrite app_nil_r. reflexivity. Qed.

Lemma extend_extend w a b : extend (extend w a) b = extend w (a ++ b).
Proof. unfold extend. simpl. rewrite app_assoc. reflexivity. Qed.

Lemma bind_run {A B} (m : M A) (f : A -> M B) e w :
  (m ≫= f) e w
  = match m e w with
    | (Ret a, w') => f a e w'
    | (Throw err, w') => (Throw err, w')
    end.
Proof. reflexivity. Qed.

(** One frame: the edit and its pause, or the edit that failed. *)
Lemma loading_step chatId msgId type duration steps i e w :
  try_catch
    (editMessageText chatId msgId (LoadingFrame type i);;
     (if bool_decide (i < steps)%nat
      then emit (Sleep duration (Z.of_nat steps)) else mret tt);;
     mret true)
    (fun _ => mret false) e w
  = match outcome e (length (log w)) with
    | Done _ =>
        (Ret true,
         extend w (frame_calls chatId msgId type duration steps i))
    | Thrown _ =>
        (Ret false,
         extend w [EditMessageText chatId msgId (LoadingFrame type i)])
    end.
Proof.
  unfold try_catch, editMessageText, mbind, M_bind, perform, frame_calls,
    emit.
  destruct (outcome e (length (log w))); [|reflexivity].
  destruct (bool_decide (i < steps)%nat); cbn; unfold extend, record; cbn;
    rewrite <- ?app_assoc; reflexivity.
Qed.

Lemma loading_frames_run chatId msgId type duration steps frames :
  forall e w, exists rest,
    loading_frames chatId msgId type duration steps frames e w
    = (Ret tt, extend w rest)
    /\ rest `prefix_of`
         flat_map (frame_calls chatId msgId type duration steps) frames
    /\ (accepting e ->
        rest = flat_map (frame_calls chatId msgId type duration steps)
                 frames).
Proof.
  induction frames as [|i frames IH]; intros e w.
  - exists []. rewrite extend_nil. repeat split; reflexivity.
  - cbn [loading_frames flat_map]. rewrite bind_run, loading_step.
    destruct (outcome e (length (log w))) as [id|err] eqn:Hout.
    + destruct (IH e (extend w
                  (frame_calls chatId msgId type duration steps i)))
        as (rest & Hrun & Hpre & Hacc).
      exists (frame_calls chatId msgId type duration steps i ++ rest).
      split; [|split].
      * rewrite Hrun, extend_extend. reflexivity.
      * apply prefix_app, Hpre.
      * intros He. rewrite (Hacc He). reflexivity.
    + exists [EditMessageText chatId msgId (LoadingFrame type i)].
      split; [reflexivity|]. split.
      * apply prefix_cons, prefix_nil.
      * intros He. destruct (He (length (log w))) as [id Hid]. congruence.
Qed.



End RunFacts.

(** ** String operations on a known prefix *)

Module JsFacts.

Lemma prefix_empty s : String.prefix "" s = true.
Proof. destruct s; reflexivity. Qed.

Lemma prefix_append p s : String.prefix p (p +:+ s) = true.
Proof.
  induction p as [|a p IH]; [apply prefix_empty|].
  change (String a p +:+ s) with (String a (p +:+ s)).
  cbn [String.prefix]. destruct (ascii_dec a a); [exact IH|congruence].
Qed.

Lemma drop_append p s : Js.drop (String.length p) (p +:+ s) = s.
Proof. induction p as [|a p IH]; [destruct s; reflexivity|exact IH]. Qed.

Lemma replace_at_head p r t :
  String.prefix p t = true ->
  Js.replace p r t = r +:+ Js.drop (String.length p) t.
Proof. destruct t; cbn [Js.replace]; intros ->; reflexivity. Qed.

(** Replacing a pattern by nothing at the head of a string leaves what
    follows the pattern. *)
Lemma replace_append p s : Js.replace p "" (p +:+ s) = s.
Proof.
  rewrite replace_at_head by apply prefix_append.
  rewrite drop_append. reflexivity.
Qed.

End JsFacts.

(** ** Selecting a device *)

Module SelectionFacts.
Import Relay Devices Bot Behaviour Conduct BehaviourFacts ConductFacts
  RunFacts SessionFacts.

Lemma try_catch_sessions {A} (m : M A) h e w :
  (forall err, keeps (same userSessions) (h err)) ->
  userSessions (snd (try_catch m h e w)) = userSessions (snd (m e w)).
Proof.
  intros Hh. unfold try_catch. destruct (m e w) as [[a|err] w1];
    [reflexivity|]. apply Hh.
Qed.

Lemma answer_keeps_sessions id t a : keeps (same userSessions) (answer id t a).
Proof. unfold answer. frame untouched. Qed.

(** Above [Session Check] no branch answers an identifier that starts
    with [select_]. *)
Lemma callback_body_select id cb chat msg s e w :
  map_get chat (userSessions w) = Some s -> key s <> "" ->
  callback_body (CallbackQuery cb ("select_" +:+ id) chat msg) e w
  = authenticated cb ("select_" +:+ id) chat msg s e w.
Proof.
  intros Hs Hk. unfold callback_body. cbn [data cq_id cq_chat cq_msg].
  rewrite !bool_decide_eq_false_2
    by (cbn; first [discriminate | intros [H|H]; discriminate H]).
  rewrite bind_run. unfold gets. rewrite Hs.
  unfold Js.truthy. destruct (key s); [congruence|reflexivity].
Qed.

Lemma select_tail_keeps_sessions cb chat msg dev6 :
  keeps (same userSessions)
    (answer cb "✅ Device selected" false;;
     showAnimatedLoading chat msg "default" 300;;
     editMessageText chat msg (ControlCenter dev6)).
Proof.
  unfold showAnimatedLoading.
  frame ltac:(first [untouched
                    | apply keeps_loading_frames; [exact _|intros; untouched..]]).
Qed.

(** X10. For a chat with a keyed session, the callback select_<id> leaves
    the session with selectedDevice = id and lastActivity at the clock
    reading, whatever the calls return; and the device list shows one button
    select_<id> per device listed. *)
Theorem select_button_selects id cb chat msg s e w :
  map_get chat (userSessions w) = Some s -> key s <> "" ->
  map_get chat
    (userSessions
       (snd (callback_query (CallbackQuery cb ("select_" +:+ id) chat msg)
               e w)))
  = Some (Session (key s) (Some id) (clock e (ticks w)) (lastCommand s))
  /\ (forall devs dev, dev ∈ devs -> dev_id dev = id ->
        ["select_" +:+ id] ∈ Menus.reply_markup (ConnectedDevices devs)).
Proof.
  intros Hs Hk. split.
  - unfold callback_query.
    rewrite try_catch_sessions by (intros; apply answer_keeps_sessions).
    rewrite (callback_body_select id cb chat msg s e w Hs Hk).
    unfold authenticated.
    unfold Js.startsWith.
    rewrite JsFacts.prefix_append, JsFacts.replace_append.
    rewrite bind_run. unfold updateActivity at 1.
    rewrite bind_run. unfold gets at 1. rewrite Hs.
    rewrite bind_run. unfold date_now at 1, modify at 1.
    rewrite bind_run. unfold modify at 1.
    rewrite (select_tail_keeps_sessions cb chat msg (Js.slice0 6 id) e).
    cbn [userSessions set_userSessions].
    rewrite !map_get_alter, Hs. reflexivity.
  - intros devs dev Hin <-. cbn [Menus.reply_markup].
    apply elem_of_app. left.
    apply (list_elem_of_fmap_2 (fun dev => ["select_" +:+ dev_id dev])) in Hin.
    exact Hin.
Qed.

Lemma select_button_selects_witness :
  map_get 7
    (userSessions
       (snd (callback_query (CallbackQuery "cb1" "select_dev2" 7 42)
               Scenario.quiet Scenario.logged_in)))
  = Some (Session "k" (Some "dev2") 1000 None).
Proof.
  apply (proj1 (select_button_selects "dev2" "cb1" 7 42
                  (Session "k" (Some "dev1") 0 None)
                  Scenario.quiet Scenario.logged_in eq_refl
                  ltac:(discriminate))).
Defined.

End SelectionFacts.

(** ** No device, no command; logout *)

Module AccessFacts.
Import Relay Devices Bot Behaviour Conduct BehaviourFacts ConductFacts
  RunFacts SessionFacts SelectionFacts.

Ltac silent :=
  first [ apply logged_record; exact I | apply logged_silent; reflexivity ].

Ltac frame_silent :=
  unfold showAnimatedLoading;
  frame ltac:(first [silent
                    | apply keeps_loading_frames; [exact _|intros; silent..]]).

Lemma logged_try_catch {A} P (m : M A) h e w :
  logged P w (snd (m e w)) ->
  (forall err, keeps (logged P) (h err)) ->
  logged P w (snd (try_catch m h e w)).
Proof.
  intros Hm Hh. unfold try_catch.
  destruct (m e w) as [[a|err] w1]; [exact Hm|].
  etransitivity; [exact Hm|apply Hh].
Qed.

Lemma logged_bind {A B} P (m : M A) (f : A -> M B) e w :
  logged P w (snd (m e w)) ->
  (forall a w1, m e w = (Ret a, w1) -> logged P w1 (snd (f a e w1))) ->
  logged P w (snd ((m ≫= f) e w)).
Proof.
  intros Hm Hf. rewrite bind_run.
  destruct (m e w) as [[a|err] w1] eqn:E; [|exact Hm].
  etransitivity; [exact Hm|apply Hf; reflexivity].
Qed.

Lemma answer_silent id t a : keeps (logged no_write) (answer id t a).
Proof. frame_silent. Qed.

Lemma answer_sessions id t a e w r w1 :
  answer id t a e w = (r, w1) -> userSessions w1 = userSessions w.
Proof.
  intros E. pose proof (answer_keeps_sessions id t a e w) as H.
  rewrite E in H. exact H.
Qed.

(** Without a selected device the three permission branches stop at
    their own alert. *)
Lemma check_permissions_silent id chat msg e w :
  no_device chat w ->
  logged no_write w (snd (check_permissions id chat msg e w)).
Proof.
  intros Hno. unfold check_permissions.
  apply logged_try_catch; [|intros; apply answer_silent].
  apply logged_bind; [apply answer_silent|]. intros [] w1 E.
  apply answer_sessions in E. unfold no_device in Hno.
  rewrite bind_run. unfold gets. rewrite E.
  destruct (map_get chat (userSessions w)) as [[k [dev|] la lc]|];
    try apply answer_silent.
  cbn in Hno. rewrite Hno. apply answer_silent.
Qed.

Lemma battery_optimization_silent id chat msg e w :
  no_device chat w ->
  logged no_write w (snd (battery_optimization id chat msg e w)).
Proof.
  intros Hno. unfold battery_optimization.
  apply logged_try_catch; [|intros; apply answer_silent].
  apply logged_bind; [apply answer_silent|]. intros [] w1 E.
  apply answer_sessions in E. unfold no_device in Hno.
  rewrite bind_run. unfold gets. rewrite E.
  destruct (map_get chat (userSessions w)) as [[k [dev|] la lc]|];
    try apply answer_silent.
  cbn in Hno. rewrite Hno. apply answer_silent.
Qed.

(** Below [Session Check], a session without selected device leads to a
    menu or to the device list. *)
Lemma authenticated_silent id data chat msg session :
  Js.truthy_opt (selectedDevice session) = false ->
  keeps (logged no_write) (authenticated id data chat msg session).
Proof.
  intros Hno. unfold authenticated. rewrite Hno. frame_silent.
Qed.

Lemma callback_body_silent q e w :
  no_device (cq_chat q) w ->
  logged no_write w (snd (callback_body q e w)).
Proof.
  intros Hno. unfold callback_body.
  repeat (case_bool_decide;
          [first [ apply check_permissions_silent, Hno
                 | apply battery_optimization_silent, Hno
                 | match goal with
                   | |- logged _ _ (snd (?m _ _)) =>
                       assert (Hm : keeps (logged no_write) m)
                         by frame_silent;
                       apply Hm
                   end ]|]).
  rewrite bind_run. unfold gets. unfold no_device in Hno.
  destruct (map_get (cq_chat q) (userSessions w)) as [s|].
  - destruct (Js.truthy (key s)).
    + apply authenticated_silent, Hno.
    + assert (Hm : keeps (logged no_write)
                     (sessionExpired (cq_id q) (cq_chat q)))
        by frame_silent.
      apply Hm.
  - assert (Hm : keeps (logged no_write)
                   (sessionExpired (cq_id q) (cq_chat q)))
      by frame_silent.
    apply Hm.
Qed.

Ltac calm :=
  split; [silent | reflexivity].

Lemma no_device_same chat w w1 :
  userSessions w1 = userSessions w -> no_device chat w -> no_device chat w1.
Proof. unfold no_device. intros ->. tauto. Qed.

Lemma search_silent m t e w :
  no_device (m_chat m) w -> logged no_write w (snd (search m t e w)).
Proof.
  intros Hno. unfold search, no_device in *.
  destruct (Js.startsWith t "/search "); [|reflexivity].
  rewrite bind_run. unfold gets.
  assert (Hm : keeps (logged no_write)
                 (sendMessage (m_chat m) LoginAndSelectFirst;; mret tt))
    by frame_silent.
  destruct (map_get (m_chat m) (userSessions w)) as [[k [dev|] la lc]|];
    try apply Hm.
  cbn in Hno. rewrite Hno. apply Hm.
Qed.

Lemma custom_reply_silent m t c e w :
  no_device (m_chat m) w ->
  logged no_write w
    (snd ((returned ← custom_reply m t c;
           if returned : bool then mret tt else search m t) e w)).
Proof.
  intros Hno.
  assert (Hinvalid : logged no_write w
            (snd (((sendMessage (m_chat m) InvalidNumber;; mret true)
                   ≫= (fun returned : bool =>
                         if returned then mret tt else search m t)) e w))).
  { apply logged_bind.
    - assert (Hm : keeps (logged no_write)
                     (sendMessage (m_chat m) InvalidNumber;; mret true))
        by frame_silent.
      apply Hm.
    - intros [|] w1 E; [reflexivity|]. apply search_silent.
      assert (Hm : keeps (same userSessions)
                     (sendMessage (m_chat m) InvalidNumber;; mret true))
        by frame ltac:(untouched).
      specialize (Hm e w). rewrite E in Hm.
      apply (no_device_same _ _ _ Hm Hno). }
  unfold custom_reply.
  destruct (Js.parseInt (Js.trim t)) as [n|]; [|exact Hinvalid].
  case_bool_decide; [exact Hinvalid|].
  rewrite !bind_run. unfold gets at 1. unfold no_device in Hno.
  destruct (map_get (m_chat m) (userSessions w)) as [[k [dev|] la lc]|];
    try reflexivity.
  cbn in Hno. rewrite Hno. reflexivity.
Qed.

Lemma message_silent m e w :
  no_device (m_chat m) w -> logged no_write w (snd (message m e w)).
Proof.
  intros Hno. unfold message.
  destruct (text m) as [t|]; [|reflexivity].
  destruct (negb (Js.truthy t)); [reflexivity|].
  rewrite bind_run. unfold gets at 1.
  assert (Hc : logged no_write w (snd (custom_then_search m t e w))).
  { unfold custom_then_search. rewrite bind_run. unfold gets at 1.
    destruct (awaitingCustom w !! m_chat m) as [c|];
      [|apply search_silent, Hno].
    destruct (replies_to m (promptId c)); [|apply search_silent, Hno].
    apply custom_reply_silent, Hno. }
  destruct (awaitingAuth w !! m_chat m) as [a|]; [|exact Hc].
  destruct (replies_to m (messageId a)); [|exact Hc].
  assert (Hm : keeps (logged no_write) (auth_reply m t))
    by (unfold auth_reply; frame_silent).
  apply Hm.
Qed.

(** X11. For a chat without a session or without a selected device, no
    callback query and no text message writes a command to the store. *)
Theorem no_device_no_command chat e w :
  no_device chat w ->
  (forall q, cq_chat q = chat ->
     exists rest, log (snd (callback_query q e w)) = log w ++ rest
                  /\ Forall no_write rest)
  /\ (forall q, cq_chat q = chat ->
        exists rest, log (snd (logout_handlers q e w)) = log w ++ rest
                     /\ Forall no_write rest)
  /\ (forall m, m_chat m = chat ->
        exists rest, log (snd (message m e w)) = log w ++ rest
                     /\ Forall no_write rest).
Proof.
  intros Hno. split; [|split].
  - intros q <-. unfold callback_query.
    apply logged_try_catch; [apply callback_body_silent, Hno|].
    intros. apply answer_silent.
  - intros q _.
    assert (Hm : keeps (logged no_write) (logout_handlers q))
      by (unfold logout_handlers; frame_silent).
    apply Hm.
  - intros m <-. apply message_silent, Hno.
Qed.

Lemma no_device_no_command_witness :
  exists rest,
    log (snd (callback_query (CallbackQuery "cb1" "capture_front" 7 42)
                Scenario.quiet Scenario.fresh))
    = log Scenario.fresh ++ rest
    /\ Forall no_write rest.
Proof.
  apply (proj1 (no_device_no_command 7 Scenario.quiet Scenario.fresh I)
           (CallbackQuery "cb1" "capture_front" 7 42) eq_refl).
Defined.

(** X12. logout_yes removes the session of its chat, whatever the calls
    return, and leaves the sessions of all other chats as they were;
    logout_confirm removes nothing. *)
Theorem logout_ends_session cb chat msg e w :
  one_entry_per_chat w ->
  map_get chat
    (userSessions
       (snd (logout_handlers (CallbackQuery cb "logout_yes" chat msg) e w)))
  = None
  /\ (forall other, other <> chat ->
        map_get other
          (userSessions
             (snd (logout_handlers (CallbackQuery cb "logout_yes" chat msg)
                     e w)))
        = map_get other (userSessions w))
  /\ userSessions
       (snd (logout_handlers (CallbackQuery cb "logout_confirm" chat msg)
               e w))
     = userSessions w.
Proof.
  intros Hnd. unfold one_entry_per_chat in Hnd.
  assert (Hyes : userSessions
            (snd (logout_handlers (CallbackQuery cb "logout_yes" chat msg)
                    e w))
          = map_delete chat (userSessions w)).
  { unfold logout_handlers. cbn [data cq_id cq_chat cq_msg].
    rewrite (bool_decide_eq_false_2 ("logout_yes" = "logout_confirm"))
      by discriminate.
    rewrite (bool_decide_eq_true_2 ("logout_yes" = "logout_yes"))
      by reflexivity.
    rewrite bind_run. cbn [mret M_ret]. rewrite bind_run.
    unfold modify at 1.
    assert (Hm : keeps (same userSessions)
                   (answer cb "✅ Logged out successfully" true;;
                    editMessageText chat msg Goodbye))
      by frame ltac:(untouched).
    rewrite (Hm e). reflexivity. }
  rewrite Hyes. split; [apply map_get_delete, Hnd|].
  split; [intros other Hne; apply map_get_delete_ne; congruence|].
  assert (Hm : keeps (same userSessions)
                 (logout_handlers (CallbackQuery cb "logout_confirm" chat msg))).
  { unfold logout_handlers. cbn [data cq_id cq_chat cq_msg].
    rewrite (bool_decide_eq_true_2 ("logout_confirm" = "logout_confirm"))
      by reflexivity.
    rewrite (bool_decide_eq_false_2 ("logout_confirm" = "logout_yes"))
      by discriminate.
    frame ltac:(untouched). }
  apply Hm.
Qed.

Lemma logout_ends_session_witness :
  map_get 7
    (userSessions
       (snd (logout_handlers (CallbackQuery "cb1" "logout_yes" 7 42)
               Scenario.quiet Scenario.logged_in)))
  = None.
Proof.
  refine (proj1 (logout_ends_session "cb1" 7 42 Scenario.quiet
                   Scenario.logged_in _)).
  apply (bool_decide_unpack _). vm_compute. exact I.
Defined.

End AccessFacts.

(** ** Commands reach the selected device *)

Module CommandFacts.
Import Relay Devices Bot Behaviour Conduct BehaviourFacts ConductFacts
  RunFacts SessionFacts SelectionFacts.

Section Accepting.
Context (e : env) (He : accepting e).

Lemma answer_run id t a w :
  answer id t a e w = (Ret tt, extend w [AnswerCallbackQuery id t a]).
Proof. unfold answer. rewrite bind_run, perform_accepting by exact He. reflexivity. Qed.

Lemma editMessageText_run chat msg s w :
  editMessageText chat msg s e w
  = (Ret tt, extend w [EditMessageText chat msg s]).
Proof.
  unfold editMessageText.
  rewrite bind_run, perform_accepting by exact He. reflexivity.
Qed.

Lemma sendMessage_run chat s w :
  sendMessage chat s e w
  = (Ret (reply_id (outcome e (length (log w)))),
     extend w [SendMessage chat s]).
Proof. unfold sendMessage. rewrite perform_accepting by exact He. reflexivity. Qed.

Lemma queue_run path command chat msg w :
  queue path command chat msg e w
  = (Ret tt,
     extend (tick w) [DbUpdate path command chat msg (clock e (ticks w))]).
Proof.
  unfold queue. rewrite bind_run. unfold date_now at 1.
  rewrite bind_run, perform_accepting by exact He. reflexivity.
Qed.

Lemma showAnimatedLoading_run chat msg type duration w :
  showAnimatedLoading chat msg type duration e w
  = (Ret tt, extend w (loading_script chat msg type duration)).
Proof.
  destruct (loading_frames_run chat msg type duration 8 (seq 0 9) e w)
    as (rest & Hrun & _ & Hacc).
  unfold showAnimatedLoading. rewrite Hrun, (Hacc He). reflexivity.
Qed.

End Accepting.

(** Run a handler whose calls are all accepted. *)
Ltac accept He :=
  repeat (first [ rewrite bind_run
                | rewrite (answer_run _ He)
                | rewrite (editMessageText_run _ He)
                | rewrite (sendMessage_run _ He)
                | rewrite (queue_run _ He)
                | rewrite (showAnimatedLoading_run _ He)
                | rewrite (perform_accepting _ _ _ He)
                | unfold date_now at 1 | unfold modify at 1
                | unfold gets at 1 | unfold emit at 1
                | unfold mret at 1, M_ret at 1 ];
          cbv beta iota).

(** An identifier that no branch above [Device Check] answers reaches the
    command dispatch with the session and its selected device. *)
Lemma callback_body_execute q s dev e w :
  data q ∉ pre_session ++ navigation ->
  Js.startsWith (data q) "select_" = false ->
  map_get (cq_chat q) (userSessions w) = Some s -> key s <> "" ->
  selectedDevice s = Some dev -> dev <> "" ->
  callback_body q e w
  = (updateActivity (cq_chat q);;
     execute (cq_id q) (data q) (cq_chat q) (cq_msg q) s dev) e w.
Proof.
  intros Hd Hsel Hs Hk Hdev Hne. unfold pre_session, navigation in Hd.
  cbn [app] in Hd. rewrite !not_elem_of_cons in Hd.
  destruct Hd as (H1 & H2 & H3 & H4 & H5 & H6 & H7 & H8 & H9 & H10 & H11
                  & H12 & H13 & H14 & H15 & H16 & H17 & H18 & _).
  unfold callback_body.
  rewrite !bool_decide_eq_false_2 by tauto.
  rewrite bind_run. unfold gets at 1. rewrite Hs.
  assert (Js.truthy (key s) = true) as ->
    by (unfold Js.truthy; destruct (key s); [congruence|reflexivity]).
  unfold authenticated. rewrite Hsel.
  rewrite !bool_decide_eq_false_2 by tauto.
  rewrite Hdev. cbn [Js.truthy_opt default].
  assert (Js.truthy dev = true) as ->
    by (unfold Js.truthy; destruct dev; [congruence|reflexivity]).
  reflexivity.
Qed.

Lemma updateActivity_run chat s e w :
  map_get chat (userSessions w) = Some s ->
  updateActivity chat e w
  = (Ret tt,
     set_userSessions
       (map_alter (fun s0 => Session (key s0) (selectedDevice s0)
                               (clock e (ticks w)) (lastCommand s0)) chat)
       (tick w)).
Proof.
  intros Hs. unfold updateActivity. rewrite bind_run. unfold gets at 1.
  rewrite Hs. reflexivity.
Qed.

(** X13. With a selected device and every call accepted, an identifier that
    no earlier branch answers and that is a commandMap entry or passes the
    prefix test is answered, animated (500 ms or 400 ms) and then written
    once to devices/<key>/<device> with the identifier, the chat and the
    message. The commandMap branch records the operation; the prefix branch
    stores the identifier as lastCommand. *)
Theorem commands_reach_the_device q s dev e w :
  accepting e ->
  data q ∉ pre_session ++ navigation ->
  Js.startsWith (data q) "select_" = false ->
  map_get (cq_chat q) (userSessions w) = Some s -> key s <> "" ->
  selectedDevice s = Some dev -> dev <> "" ->
  (forall type msg,
      commandMap (data q) = Some (type, msg) ->
      exists w',
        callback_query q e w = (Ret tt, w')
        /\ log w'
           = log w
             ++ AnswerCallbackQuery (cq_id q) (default "" msg) false
                :: loading_script (cq_chat q) (cq_msg q)
                     (default "default" type) 500
             ++ [DbUpdate (devicePath (key s) dev) (data q) (cq_chat q)
                   (cq_msg q) (clock e (S (S (ticks w))))]
        /\ activeOperations w'
           = <[cq_chat q := Operation type (clock e (S (ticks w))) (Some dev)]>
               (activeOperations w))
  /\ (commandMap (data q) = None -> isCommand (data q) = true ->
      exists w',
        callback_query q e w = (Ret tt, w')
        /\ log w'
           = log w
             ++ AnswerCallbackQuery (cq_id q) "⏳ Processing..." false
                :: loading_script (cq_chat q) (cq_msg q)
                     (if Js.startsWith (data q) "gallery_"
                         || Js.startsWith (data q) "gopics_"
                      then "gallery" else "files") 400
             ++ [DbUpdate (devicePath (key s) dev) (data q) (cq_chat q)
                   (cq_msg q) (clock e (S (S (ticks w))))]
        /\ map_get (cq_chat q) (userSessions w')
           = Some (Session (key s) (Some dev) (clock e (ticks w))
                     (Some (data q)))).
Proof.
  intros He Hd Hsel Hs Hk Hdev Hne.
  unfold callback_query, try_catch.
  rewrite (callback_body_execute q s dev e w Hd Hsel Hs Hk Hdev Hne).
  rewrite bind_run, (updateActivity_run _ s e w Hs).
  unfold execute. split.
  - intros type msg ->. accept He.
    eexists. split; [reflexivity|]. cbn.
    split; [|reflexivity].
    rewrite <- !app_assoc. reflexivity.
  - intros -> ->. accept He.
    eexists. split; [reflexivity|]. cbn.
    split; [rewrite <- !app_assoc; reflexivity|].
    rewrite !map_get_alter, Hs. cbn. rewrite Hdev. reflexivity.
Qed.

Lemma commands_reach_the_device_witness :
  exists w',
    callback_query (CallbackQuery "cb1" "gopics_camera_010" 7 42)
      Scenario.quiet Scenario.logged_in = (Ret tt, w')
    /\ map_get 7 (userSessions w')
       = Some (Session "k" (Some "dev1") 1000 (Some "gopics_camera_010")).
Proof.
  destruct (proj2 (commands_reach_the_device
                     (CallbackQuery "cb1" "gopics_camera_010" 7 42)
                     (Session "k" (Some "dev1") 0 None) "dev1"
                     Scenario.quiet Scenario.logged_in
                     quiet_accepting
                     ltac:(apply (bool_decide_unpack _); vm_compute; exact I)
                     eq_refl eq_refl ltac:(discriminate) eq_refl
                     ltac:(discriminate)) eq_refl eq_refl)
    as (w' & H1 & _ & H3).
  exists w'. split; [exact H1|exact H3].
Defined.

End CommandFacts.

(** ** Text messages: login and search *)

Module InboxFacts.
Import Relay Devices Bot Behaviour Conduct Inbox BehaviourFacts ConductFacts
  RunFacts SessionFacts SelectionFacts CommandFacts.

Lemma truthy_nonempty t : t <> "" -> Js.truthy t = true.
Proof. unfold Js.truthy. destruct t; [congruence|reflexivity]. Qed.

Lemma message_auth m t a e w :
  auth_reply_pending m t a w -> message m e w = auth_reply m t e w.
Proof.
  intros (Ht & Hne & Ha & Hr). unfold message.
  rewrite Ht, (truthy_nonempty t Hne). cbn [negb].
  rewrite bind_run. unfold gets at 1. rewrite Ha, Hr. reflexivity.
Qed.

(** X14. When every call is accepted, a text reply to the pending key prompt
    whose trimmed text is a key with devices creates the session {key,
    selectedDevice: null, lastActivity: now} for that chat only, removes the
    prompt, and deletes the message with the key before anything else. *)
Theorem login_creates_session m t a e w :
  auth_reply_pending m t a w -> accepting e ->
  store e (Js.trim t) <> [] ->
  exists w',
    message m e w = (Ret tt, w')
    /\ map_get (m_chat m) (userSessions w')
       = Some (Session (Js.trim t) None (clock e (ticks w)) None)
    /\ (forall other, other <> m_chat m ->
          map_get other (userSessions w') = map_get other (userSessions w))
    /\ awaitingAuth w' = delete (m_chat m) (awaitingAuth w)
    /\ log w'
       = log w
         ++ [DeleteMessage (m_chat m) (message_id m);
             SendAnimation (m_chat m) Authenticating;
             DbOnce ("devices/" +:+ Js.trim t);
             DeleteMessage (m_chat m)
               (reply_id (outcome e (S (length (log w)))));
             SendAnimation (m_chat m) AuthenticationSuccessful;
             SetTimeoutDeviceSelection (m_chat m) 2000].
Proof.
  intros Hp He Hstore. rewrite (message_auth m t a e w Hp).
  unfold auth_reply, try_catch. accept He. unfold asks at 1. cbv beta iota.
  destruct (store e (Js.trim t)) as [|child children]; [congruence|].
  accept He.
  eexists. split; [reflexivity|]. cbn.
  split; [apply map_get_set|].
  split; [intros other Hne; apply map_get_set_ne; congruence|].
  split; [reflexivity|].
  rewrite <- !app_assoc. cbn. rewrite length_app. cbn [length].
  rewrite Nat.add_1_r. reflexivity.
Qed.

Lemma login_creates_session_witness :
  exists w',
    message (TextMessage (Some " k ") 7 43 (Some 42))
      (Env (fun _ => 1000) (fun n => Done (100 + Z.of_nat n))
         (fun key => if String.eqb key "k"
                     then [("dev1", DeviceData None)] else []))
      (World [] {[ 7 := AuthPrompt 42 0 ]} ∅ ∅ ∅ ∅ 0 [])
    = (Ret tt, w')
    /\ map_get 7 (userSessions w') = Some (Session "k" None 1000 None).
Proof.
  destruct (login_creates_session
              (TextMessage (Some " k ") 7 43 (Some 42)) " k "
              (AuthPrompt 42 0)
              (Env (fun _ => 1000) (fun n => Done (100 + Z.of_nat n))
                 (fun key => if String.eqb key "k"
                             then [("dev1", DeviceData None)] else []))
              (World [] {[ 7 := AuthPrompt 42 0 ]} ∅ ∅ ∅ ∅ 0 []))
    as (w' & H1 & H2 & _).
  - repeat split; try reflexivity. discriminate.
  - intros n. eexists. reflexivity.
  - discriminate.
  - exists w'. split; [exact H1|exact H2].
Defined.

Lemma auth_tail_keeps_prompt m key0 :
  keeps (same awaitingAuth)
    (try_catch (perform (DeleteMessage (m_chat m) (message_id m));; mret tt)
       (fun _ => mret tt);;
     loadingMsg ← perform (SendAnimation (m_chat m) Authenticating);
     perform (DbOnce ("devices/" +:+ key0));;
     children ← asks (fun e => store e key0);
     match children with
     | _ :: _ =>
         now ← date_now;
         modify (set_userSessions
                   (map_set (m_chat m) (Session key0 None now None)));;
         perform (DeleteMessage (m_chat m) loadingMsg);;
         perform (SendAnimation (m_chat m) AuthenticationSuccessful);;
         emit (SetTimeoutDeviceSelection (m_chat m) 2000)
     | [] =>
         perform (DeleteMessage (m_chat m) loadingMsg);;
         perform (SendAnimation (m_chat m) AuthenticationFailed);; mret tt
     end).
Proof. frame ltac:(untouched). Qed.

(** X15. A text reply to the pending key prompt always removes the prompt
    and first deletes the message with the key, whatever the calls return.
    When every call is accepted and the key has no devices, no session is
    created or changed and the failure animation is shown. *)
Theorem login_prompt_is_one_shot m t a e w :
  auth_reply_pending m t a w ->
  (awaitingAuth (snd (message m e w)) !! m_chat m = None
   /\ exists rest,
        log (snd (message m e w))
        = log w ++ DeleteMessage (m_chat m) (message_id m) :: rest)
  /\ (accepting e -> store e (Js.trim t) = [] ->
      exists w',
        message m e w = (Ret tt, w')
        /\ userSessions w' = userSessions w
        /\ log w'
           = log w
             ++ [DeleteMessage (m_chat m) (message_id m);
                 SendAnimation (m_chat m) Authenticating;
                 DbOnce ("devices/" +:+ Js.trim t);
                 DeleteMessage (m_chat m)
                   (reply_id (outcome e (S (length (log w)))));
                 SendAnimation (m_chat m) AuthenticationFailed]).
Proof.
  intros Hp. rewrite (message_auth m t a e w Hp). split; [split|].
  - unfold auth_reply. rewrite bind_run. unfold modify at 1.
    rewrite (auth_tail_keeps_prompt m (Js.trim t) e).
    cbn. apply lookup_delete_eq.
  - unfold auth_reply. rewrite bind_run. unfold modify at 1.
    rewrite bind_run.
    set (w0 := set_awaitingAuth (delete (m_chat m)) w).
    assert (E : try_catch
                  (perform (DeleteMessage (m_chat m) (message_id m));;
                   mret tt) (fun _ => mret tt) e w0
                = (Ret tt, record (DeleteMessage (m_chat m) (message_id m))
                             w0)).
    { unfold try_catch. rewrite bind_run. unfold perform.
      destruct (outcome e (length (log w0))); reflexivity. }
    rewrite E.
    match goal with
    | |- context [snd (?k e (record ?c w0))] =>
        assert (Hk : keeps (logged (fun _ => True)) k)
          by frame ltac:(first [apply logged_record; exact I
                               | apply logged_silent; reflexivity]);
        destruct (Hk e (record c w0)) as (rest & Hrest & _)
    end.
    exists rest. rewrite Hrest. cbn. rewrite <- app_assoc. reflexivity.
  - intros He Hstore. unfold auth_reply, try_catch. accept He.
    unfold asks at 1. cbv beta iota. rewrite Hstore. accept He.
    eexists. split; [reflexivity|]. cbn. split; [reflexivity|].
    rewrite <- !app_assoc. cbn. rewrite length_app. cbn [length].
    rewrite Nat.add_1_r. reflexivity.
Qed.

Lemma login_prompt_is_one_shot_witness :
  awaitingAuth
    (snd (message (TextMessage (Some "wrong") 7 43 (Some 42)) Scenario.quiet
            (World [] {[ 7 := AuthPrompt 42 0 ]} ∅ ∅ ∅ ∅ 0 []))) !! 7
  = None.
Proof.
  refine (proj1 (proj1 (login_prompt_is_one_shot
            (TextMessage (Some "wrong") 7 43 (Some 42)) "wrong"
            (AuthPrompt 42 0) Scenario.quiet
            (World [] {[ 7 := AuthPrompt 42 0 ]} ∅ ∅ ∅ ∅ 0 []) _))).
  repeat split; try reflexivity. discriminate.
Defined.

Lemma message_search m t e w :
  search_command m t -> message m e w = search m t e w.
Proof.
  intros (Ht & Hs & Hr). unfold message. rewrite Ht.
  assert (Js.truthy t = true) as ->.
  { destruct t; [discriminate Hs|reflexivity]. }
  cbn [negb]. rewrite bind_run. unfold gets at 1.
  assert (Hno : forall x, replies_to m x = false)
    by (intros x; unfold replies_to; rewrite Hr; reflexivity).
  assert (E : custom_then_search m t e w = search m t e w).
  { unfold custom_then_search. rewrite bind_run. unfold gets at 1.
    destruct (awaitingCustom w !! m_chat m); [|reflexivity].
    rewrite Hno. reflexivity. }
  destruct (awaitingAuth w !! m_chat m); [|exact E].
  rewrite Hno. exact E.
Qed.

(** X16. For a /search message that replies to no other message, from a chat
    with a selected device, and with every call accepted: a trimmed query of
    fewer than two characters only gets the too-short notice; otherwise the
    searching notice is sent and filesearch_<trimmed query> is queued with
    the id of that notice. *)
Theorem search_queues_trimmed_query m t s dev e w :
  search_command m t -> accepting e ->
  map_get (m_chat m) (userSessions w) = Some s ->
  selectedDevice s = Some dev -> dev <> "" ->
  ((String.length (search_query t) < 2)%nat ->
     exists w',
       message m e w = (Ret tt, w')
       /\ log w' = log w ++ [SendMessage (m_chat m) QueryTooShort])
  /\ ((2 <= String.length (search_query t))%nat ->
      exists w',
        message m e w = (Ret tt, w')
        /\ log w'
           = log w
             ++ [SendMessage (m_chat m) (SearchingFiles (search_query t));
                 DbUpdate (devicePath (key s) dev)
                   ("filesearch_" +:+ search_query t) (m_chat m)
                   (reply_id (outcome e (length (log w))))
                   (clock e (ticks w))]).
Proof.
  intros Hc He Hs Hdev Hne. rewrite (message_search m t e w Hc).
  destruct Hc as (_ & Hstart & _).
  assert (E : search m t e w
              = (if bool_decide (String.length (search_query t) < 2)%nat
                 then sendMessage (m_chat m) QueryTooShort;; mret tt
                 else searchMsg ← sendMessage (m_chat m)
                                    (SearchingFiles (search_query t));
                      queue (devicePath (key s) dev)
                        ("filesearch_" +:+ search_query t) (m_chat m)
                        searchMsg) e w).
  { unfold search. rewrite Hstart. rewrite bind_run. unfold gets at 1.
    rewrite Hs. destruct s as [k sel la lc]. cbn in Hdev. subst sel.
    cbv beta iota. rewrite (truthy_nonempty dev Hne).
    rewrite (JsFacts.replace_at_head "/search " "" t Hstart).
    reflexivity. }
  rewrite E. split; intros Hlen.
  - rewrite bool_decide_eq_true_2 by exact Hlen. accept He.
    eexists. split; reflexivity.
  - rewrite bool_decide_eq_false_2 by lia. accept He.
    eexists. split; [reflexivity|]. cbn. rewrite <- app_assoc. reflexivity.
Qed.

Lemma search_queues_trimmed_query_witness :
  exists w',
    message (TextMessage (Some "/search  holiday ") 7 43 None)
      Scenario.quiet Scenario.logged_in = (Ret tt, w')
    /\ log w'
       = [SendMessage 7 (SearchingFiles "holiday");
          DbUpdate "devices/k/dev1" "filesearch_holiday" 7 100 1000].
Proof.
  apply (proj2 (search_queues_trimmed_query
                  (TextMessage (Some "/search  holiday ") 7 43 None)
                  "/search  holiday " (Session "k" (Some "dev1") 0 None)
                  "dev1" Scenario.quiet Scenario.logged_in
                  ltac:(repeat split) quiet_accepting eq_refl eq_refl
                  ltac:(discriminate))).
  vm_compute. lia.
Defined.

End InboxFacts.

(** ** The device directory and its cache *)

Module DirectoryFacts.
Import Relay Devices Bot Behaviour Conduct Directory BehaviourFacts
  ConductFacts RunFacts.

(** Mapping the store's children reads the clock once per child and
    cannot fail. *)
Lemma summaries_run children : forall e w,
  exists l w',
    mapM (fun entry => now ← date_now; mret (summary now entry)) children
      e w = (Ret l, w')
    /\ dev_id <$> l = children.*1
    /\ log w' = log w /\ deviceCache w' = deviceCache w.
Proof.
  induction children as [|[id data] children IH]; intros e w.
  - exists [], w. repeat split.
  - cbn [mapM]. rewrite !bind_run. unfold date_now at 1. cbv beta iota.
    destruct (IH e (tick w)) as (l & w' & Hrun & Hids & Hlog & Hcache).
    fold (tick w). unfold mret at 1, M_ret at 1. cbv beta iota.
    rewrite bind_run, Hrun.
    eexists _, _. split; [reflexivity|].
    split; [rewrite !fmap_cons, Hids; reflexivity|].
    split; assumption.
Qed.

Lemma fetchDevices_failed key e w err :
  outcome e (length (log w)) = Thrown err ->
  fetchDevices key e w = (Ret [], record (DbOnce ("devices/" +:+ key)) w).
Proof.
  intros Hout. unfold fetchDevices, try_catch. rewrite bind_run.
  unfold perform. rewrite Hout. reflexivity.
Qed.

Lemma fetchDevices_empty key e w :
  store e key = [] ->
  fetchDevices key e w = (Ret [], record (DbOnce ("devices/" +:+ key)) w).
Proof.
  intros Hstore. unfold fetchDevices, try_catch. rewrite bind_run.
  unfold perform. destruct (outcome e (length (log w))); [|reflexivity].
  rewrite bind_run. unfold asks. rewrite Hstore. reflexivity.
Qed.

Lemma fetchDevices_found key e w id :
  outcome e (length (log w)) = Done id -> store e key <> [] ->
  exists l w' t,
    fetchDevices key e w = (Ret l, w')
    /\ dev_id <$> l = (store e key).*1
    /\ log w' = log w ++ [DbOnce ("devices/" +:+ key)]
    /\ deviceCache w' = <[key := CacheEntry l t]> (deviceCache w).
Proof.
  intros Hout Hstore. unfold fetchDevices, try_catch. rewrite bind_run.
  unfold perform. rewrite Hout. rewrite bind_run. unfold asks.
  destruct (store e key) as [|child children] eqn:Hchildren; [congruence|].
  destruct (summaries_run (child :: children) e
              (record (DbOnce ("devices/" +:+ key)) w))
    as (l & w' & Hrun & Hids & Hlog & Hcache).
  rewrite bind_run, Hrun. cbv beta iota.
  rewrite !bind_run. unfold date_now at 1. cbv beta iota.
  eexists _, _, _. split; [reflexivity|]. cbn.
  split; [exact Hids|]. rewrite Hlog, Hcache. split; reflexivity.
Qed.

Lemma getDevices_stale key e w :
  stale key e w ->
  exists w0, getDevices key e w = fetchDevices key e w0
             /\ log w0 = log w /\ deviceCache w0 = deviceCache w.
Proof.
  unfold stale, getDevices. intros Hst. rewrite bind_run. unfold gets at 1.
  destruct (deviceCache w !! key) as [c|].
  - rewrite bind_run. unfold date_now at 1.
    rewrite bool_decide_eq_false_2 by exact Hst.
    eexists. split; [reflexivity|]. split; reflexivity.
  - exists w. repeat split.
Qed.

Lemma getDevices_fresh key e w c :
  deviceCache w !! key = Some c ->
  clock e (ticks w) - timestamp c < DEVICE_CACHE_TTL ->
  getDevices key e w = (Ret (devices c), tick w).
Proof.
  intros Hc Hage. unfold getDevices. rewrite bind_run. unfold gets at 1.
  rewrite Hc. rewrite bind_run. unfold date_now at 1.
  rewrite bool_decide_eq_true_2 by exact Hage. reflexivity.
Qed.

(** X17. When the cache has nothing fresh and the store answers with
    devices, getDevices reads devices/<key> once, returns one summary per
    child in the store's order and caches that list; any later call within
    DEVICE_CACHE_TTL of the cached timestamp returns the same list without
    reading the store. *)
Theorem getDevices_caches_its_answer key e w id :
  stale key e w ->
  outcome e (length (log w)) = Done id -> store e key <> [] ->
  exists l w' t,
    getDevices key e w = (Ret l, w')
    /\ dev_id <$> l = (store e key).*1
    /\ log w' = log w ++ [DbOnce ("devices/" +:+ key)]
    /\ deviceCache w' !! key = Some (CacheEntry l t)
    /\ (forall e2 w2,
          deviceCache w2 !! key = Some (CacheEntry l t) ->
          clock e2 (ticks w2) - t < DEVICE_CACHE_TTL ->
          getDevices key e2 w2 = (Ret l, tick w2)).
Proof.
  intros Hst Hout Hstore.
  destruct (getDevices_stale key e w Hst) as (w0 & -> & Hlog0 & Hcache0).
  rewrite <- Hlog0 in Hout.
  destruct (fetchDevices_found key e w0 id Hout Hstore)
    as (l & w' & t & Hrun & Hids & Hlog & Hcache).
  exists l, w', t. split; [exact Hrun|]. split; [exact Hids|].
  split; [rewrite Hlog, Hlog0; reflexivity|].
  split; [rewrite Hcache; apply lookup_insert_eq|].
  intros e2 w2 Hc Hage. apply (getDevices_fresh key e2 w2 _ Hc Hage).
Qed.

(** X18. getDevices always returns a list. When the cache has nothing fresh
    and the read fails or finds no device, it returns the empty list and
    leaves the cache as it was, so a stale entry is neither served nor
    replaced. *)
Theorem getDevices_never_throws key e w :
  (exists l w', getDevices key e w = (Ret l, w'))
  /\ (stale key e w ->
      (exists err, outcome e (length (log w)) = Thrown err)
      \/ store e key = [] ->
      exists w',
        getDevices key e w = (Ret [], w')
        /\ deviceCache w' = deviceCache w
        /\ log w' = log w ++ [DbOnce ("devices/" +:+ key)]).
Proof.
  assert (Hfail : stale key e w ->
            (exists err, outcome e (length (log w)) = Thrown err)
            \/ store e key = [] ->
            exists w',
              getDevices key e w = (Ret [], w')
              /\ deviceCache w' = deviceCache w
              /\ log w' = log w ++ [DbOnce ("devices/" +:+ key)]).
  { intros Hst Hbad.
    destruct (getDevices_stale key e w Hst) as (w0 & -> & Hlog0 & Hcache0).
    destruct Hbad as [[err Hout]|Hstore].
    - rewrite <- Hlog0 in Hout. rewrite (fetchDevices_failed key e w0 err Hout).
      eexists. split; [reflexivity|]. cbn. rewrite Hlog0, Hcache0.
      split; reflexivity.
    - rewrite (fetchDevices_empty key e w0 Hstore).
      eexists. split; [reflexivity|]. cbn. rewrite Hlog0, Hcache0.
      split; reflexivity. }
  split; [|exact Hfail].
  destruct (deviceCache w !! key) as [c|] eqn:Hc.
  - destruct (decide (clock e (ticks w) - timestamp c < DEVICE_CACHE_TTL))
      as [Hage|Hage].
    + rewrite (getDevices_fresh key e w c Hc Hage). eauto.
    + assert (Hst : stale key e w) by (unfold stale; rewrite Hc; exact Hage).
      destruct (outcome e (length (log w))) as [id|err] eqn:Hout.
      * destruct (store e key) as [|child children] eqn:Hstore.
        -- destruct (Hfail Hst (or_intror eq_refl)) as (w' & -> & _). eauto.
        -- destruct (getDevices_stale key e w Hst) as (w0 & -> & Hlog0 & _).
           rewrite <- Hlog0 in Hout.
           destruct (fetchDevices_found key e w0 id Hout)
             as (l & w' & t & -> & _); [congruence|eauto].
      * destruct (Hfail Hst (or_introl (ex_intro _ err eq_refl)))
          as (w' & -> & _). eauto.
  - assert (Hst : stale key e w) by (unfold stale; rewrite Hc; exact I).
    destruct (outcome e (length (log w))) as [id|err] eqn:Hout.
    + destruct (store e key) as [|child children] eqn:Hstore.
      * destruct (Hfail Hst (or_intror eq_refl)) as (w' & -> & _). eauto.
      * destruct (getDevices_stale key e w Hst) as (w0 & -> & Hlog0 & _).
        rewrite <- Hlog0 in Hout.
        destruct (fetchDevices_found key e w0 id Hout)
          as (l & w' & t & -> & _); [congruence|eauto].
    + destruct (Hfail Hst (or_introl (ex_intro _ err eq_refl)))
        as (w' & -> & _). eauto.
Qed.

Lemma getDevices_caches_its_answer_witness :
  exists l w',
    getDevices "k"
      (Env (fun _ => 1000) (fun n => Done (100 + Z.of_nat n))
         (fun key => if String.eqb key "k"
                     then [("dev1", DeviceData None)] else []))
      Scenario.fresh
    = (Ret l, w')
    /\ dev_id <$> l = ["dev1"].
Proof.
  destruct (getDevices_caches_its_answer "k"
              (Env (fun _ => 1000) (fun n => Done (100 + Z.of_nat n))
                 (fun key => if String.eqb key "k"
                             then [("dev1", DeviceData None)] else []))
              Scenario.fresh 100 I eq_refl ltac:(discriminate))
    as (l & w' & t & H1 & H2 & _).
  exists l, w'. split; [exact H1|exact H2].
Defined.

Lemma getDevices_never_throws_witness :
  exists w',
    getDevices "k" Scenario.quiet Scenario.fresh = (Ret [], w')
    /\ log w' = [DbOnce "devices/k"].
Proof.
  destruct (proj2 (getDevices_never_throws "k" Scenario.quiet Scenario.fresh)
              I (or_intror eq_refl))
    as (w' & H1 & _ & H2).
  exists w'. split; [exact H1|exact H2].
Defined.

End DirectoryFacts.

(** ** Text exports and rejected uploads *)

Module DeliveryFacts.
Import Relay Devices Bot Ingress Behaviour Conduct BehaviourFacts
  ConductFacts RunFacts.

(** The parts of one chat are sent in order up to the first failure. *)
Lemma send_all chat screens : forall e w,
  exists r sent,
    mapM (fun s => perform (SendMessage chat s)) screens e w
    = (r, extend w (SendMessage chat <$> sent))
    /\ sent `prefix_of` screens
    /\ (accepting e -> sent = screens /\ exists ids, r = Ret ids).
Proof.
  induction screens as [|s screens IH]; intros e w.
  - exists (Ret []), []. rewrite extend_nil. repeat split; eauto.
  - cbn [mapM]. rewrite bind_run. unfold perform at 1.
    destruct (outcome e (length (log w))) as [id|err] eqn:Hout.
    + destruct (IH e (record (SendMessage chat s) w))
        as (r & sent & Hrun & Hpre & Hacc).
      rewrite bind_run, Hrun.
      exists (match r with
              | Ret ids => Ret (id :: ids)
              | Throw err => Throw err
              end), (s :: sent).
      split; [|split].
      * change (record (SendMessage chat s) w)
          with (extend w [SendMessage chat s]).
        rewrite extend_extend. destruct r; reflexivity.
      * apply prefix_cons, Hpre.
      * intros He. destruct (Hacc He) as [-> [ids ->]]. eauto.
    + exists (Throw err), [s]. split; [reflexivity|]. split.
      * apply prefix_cons, prefix_nil.
      * intros He. destruct (He (length (log w))) as [id Hid]. congruence.
Qed.

(** The loop over the sessions never fails, sends to the listed chats
    only, and skips what remains of a chat after a failed send. *)
Lemma export_fanout_run title data sessions : forall e w,
  exists rest,
    export_fanout title data sessions e w = (Ret tt, extend w rest)
    /\ Forall (fun c => exists chat s,
                 c = SendMessage chat s /\ chat ∈ sessions.*1) rest
    /\ (accepting e ->
        rest = flat_map (fun p => SendMessage (fst p)
                                    <$> export_screens title data) sessions).
Proof.
  induction sessions as [|[chat sess] sessions IH]; intros e w.
  - exists []. rewrite extend_nil. repeat split; constructor.
  - cbn [export_fanout]. rewrite bind_run. unfold try_catch at 1.
    rewrite bind_run.
    destruct (send_all chat (export_screens title data) e w)
      as (r & sent & Hrun & Hpre & Hacc).
    rewrite Hrun.
    destruct (IH e (extend w (SendMessage chat <$> sent)))
      as (rest & Hrest & Hall & Hacc').
    assert (E : export_fanout title data sessions e
                  (extend w (SendMessage chat <$> sent))
                = (Ret tt, extend w ((SendMessage chat <$> sent) ++ rest)))
      by (rewrite Hrest, extend_extend; reflexivity).
    exists ((SendMessage chat <$> sent) ++ rest). split; [|split].
    + destruct r; cbn; exact E.
    + apply Forall_app. split.
      * apply Forall_fmap, Forall_forall. intros s _. exists chat, s.
        split; [reflexivity|]. rewrite fmap_cons. left.
      * eapply Forall_weaken; [|exact Hall].
        intros c (chat' & s & -> & Hin). exists chat', s.
        split; [reflexivity|]. rewrite fmap_cons. right. exact Hin.
    + intros He. destruct (Hacc He) as [-> _]. rewrite (Hacc' He).
      reflexivity.
Qed.

Lemma text_export_run title d req e w :
  exists rest,
    text_export title d req e w
    = (Ret tt, extend w (rest ++ [Respond 200 OkBody]))
    /\ Forall (fun c => exists chat s sess,
                 c = SendMessage chat s /\ (chat, sess) ∈ userSessions w
                 /\ key sess = auth_key d) rest
    /\ (accepting e ->
        rest = flat_map (fun p => SendMessage (fst p)
                                    <$> export_screens title (body req))
                 (filter (fun p => key (snd p) = auth_key d)
                    (userSessions w))).
Proof.
  unfold text_export. rewrite bind_run. unfold getActiveSessions, gets.
  destruct (export_fanout_run title (body req)
              (filter (fun p => key (snd p) = auth_key d) (userSessions w))
              e w) as (rest & Hrun & Hall & Hacc).
  exists rest. rewrite bind_run, Hrun. split; [|split; [|exact Hacc]].
  - unfold emit. change (record (Respond 200 OkBody) (extend w rest))
      with (extend (extend w rest) [Respond 200 OkBody]).
    rewrite extend_extend. reflexivity.
  - eapply Forall_weaken; [|exact Hall].
    intros c (chat & s & -> & Hin).
    apply list_elem_of_fmap in Hin as ([chat' sess] & -> & Hin).
    apply list_elem_of_filter in Hin as [Hkey Hin].
    exists chat', s, sess. auto.
Qed.

Lemma handle_text_export rp render ep req d e w :
  ep = TextContacts \/ ep = TextSms ->
  getDeviceInfo (x_auth req) = Some d ->
  handle rp render ep req e w
  = text_export (match ep with
                 | TextContacts => "Contacts Export"
                 | _ => "SMS Export"
                 end) d req e w.
Proof.
  intros Hep Hd. unfold handle, try_finally, try_catch. rewrite Hd.
  destruct Hep as [-> | ->]; cbn [route cleanup];
    match goal with
    | |- context [text_export ?t d req e w] =>
        destruct (text_export_run t d req e w) as (rest & -> & _)
    end; reflexivity.
Qed.

(** X19. /text/contacts and /text/sms with a valid header always answer 200
    {ok: true}, whatever Telegram does, and before that only send messages
    to chats whose session carries the key of the header. *)
Theorem export_reaches_bound_chats_only rp render ep req d e w :
  ep = TextContacts \/ ep = TextSms ->
  getDeviceInfo (x_auth req) = Some d ->
  exists rest,
    handle rp render ep req e w
    = (Ret tt, extend w (rest ++ [Respond 200 OkBody]))
    /\ Forall (fun c => exists chat s sess,
                 c = SendMessage chat s /\ (chat, sess) ∈ userSessions w
                 /\ key sess = auth_key d) rest.
Proof.
  intros Hep Hd. rewrite (handle_text_export rp render ep req d e w Hep Hd).
  destruct (text_export_run
              (match ep with
               | TextContacts => "Contacts Export"
               | _ => "SMS Export"
               end) d req e w) as (rest & Hrun & Hall & _).
  exists rest. split; assumption.
Qed.

Lemma export_reaches_bound_chats_only_witness :
  exists rest,
    handle (fun _ _ => 0) (fun _ _ _ => mret tt) TextSms
      (Request (Some "k:dev1") None "hello" 0 0 None)
      Scenario.quiet Scenario.logged_in
    = (Ret tt, extend Scenario.logged_in (rest ++ [Respond 200 OkBody])).
Proof.
  destruct (export_reaches_bound_chats_only (fun _ _ => 0)
              (fun _ _ _ => mret tt) TextSms
              (Request (Some "k:dev1") None "hello" 0 0 None)
              (DeviceAuth "k" "dev1") Scenario.quiet Scenario.logged_in
              (or_intror eq_refl) eq_refl)
    as (rest & H & _).
  exists rest. exact H.
Defined.

(** X20. When every call is accepted, /text/contacts and /text/sms with a
    valid header send to each chat bound to the key, in the order of the
    sessions, the same messages in the same order: the body in one message
    when it has at most 4000 characters, otherwise one numbered part per
    chunk that the pattern .{1,4000} matches. Then they answer 200. *)
Theorem export_reaches_every_bound_chat rp render ep req d e w :
  ep = TextContacts \/ ep = TextSms ->
  getDeviceInfo (x_auth req) = Some d ->
  accepting e ->
  handle rp render ep req e w
  = (Ret tt,
     extend w
       (flat_map (fun p => SendMessage (fst p)
                             <$> export_screens
                                   (match ep with
                                    | TextContacts => "Contacts Export"
                                    | _ => "SMS Export"
                                    end) (body req))
          (filter (fun p => key (snd p) = auth_key d) (userSessions w))
        ++ [Respond 200 OkBody])).
Proof.
  intros Hep Hd He.
  rewrite (handle_text_export rp render ep req d e w Hep Hd).
  destruct (text_export_run
              (match ep with
               | TextContacts => "Contacts Export"
               | _ => "SMS Export"
               end) d req e w) as (rest & Hrun & _ & Hacc).
  rewrite Hrun, (Hacc He). reflexivity.
Qed.

Lemma export_reaches_every_bound_chat_witness :
  handle (fun _ _ => 0) (fun _ _ _ => mret tt) TextSms
    (Request (Some "k:dev1") None "hello" 0 0 None)
    Scenario.quiet Scenario.logged_in
  = (Ret tt,
     extend Scenario.logged_in
       [SendMessage 7 (Export "SMS Export" None "hello");
        Respond 200 OkBody]).
Proof.
  exact (export_reaches_every_bound_chat (fun _ _ => 0)
           (fun _ _ _ => mret tt) TextSms
           (Request (Some "k:dev1") None "hello" 0 0 None)
           (DeviceAuth "k" "dev1") Scenario.quiet Scenario.logged_in
           (or_intror eq_refl) eq_refl quiet_accepting).
Defined.

Lemma length_unwind cur acc :
  String.length (unwind cur acc) = (length cur + String.length acc)%nat.
Proof.
  rewrite <- !ExportFacts.length_chars, ExportFacts.chars_unwind.
  rewrite length_app, length_rev. reflexivity.
Qed.

(** Without line terminators every chunk but the last is full. *)
Lemma match_go_full maxLength s : forall cur room (i : nat) chunk,
  (1 <= maxLength)%nat -> (length cur + room = maxLength)%nat ->
  Forall (fun c => is_line_terminator c = false) (Js.chars s) ->
  match_go maxLength cur room s !! i = Some chunk ->
  (S i < length (match_go maxLength cur room s))%nat ->
  String.length chunk = maxLength.
Proof.
  induction s as [|c s IH]; intros cur room i chunk Hmax Hlen Hs Hi Hlast.
  - cbn [match_go] in *. destruct cur; cbn in Hlast; lia.
  - unfold Js.chars in Hs. cbn [list_ascii_of_string] in Hs.
    apply Forall_cons in Hs as [Hc Hs]. cbn [match_go] in *.
    rewrite Hc in *. destruct room as [|room'].
    + destruct cur as [|c0 cur]; [cbn in Hlen; lia|]. cbn [flush] in *.
      destruct i as [|j].
      * injection Hi as <-. rewrite length_unwind. cbn in *. lia.
      * cbn in Hi, Hlast. eapply (IH [c] (maxLength - 1)%nat j);
          [exact Hmax|cbn; lia|exact Hs|exact Hi|lia].
    + eapply (IH (c :: cur) room' i); [exact Hmax|cbn; lia|exact Hs|exact Hi
                                      |exact Hlast].
Qed.

Lemma filter_all {A} (f : A -> bool) l :
  Forall (fun x => f x = true) l -> List.filter f l = l.
Proof.
  induction 1 as [|x l Hx _ IH]; [reflexivity|].
  cbn [List.filter]. rewrite Hx, IH. reflexivity.
Qed.

(** X21. An export body without line terminators is shown whole: in one
    message when it has at most 4000 characters, otherwise in numbered parts
    that concatenate to the body, each of at most 4000 characters and all
    but the last of exactly 4000. *)
Theorem export_covers_single_line_body title data :
  Forall (fun c => is_line_terminator c = false) (Js.chars data) ->
  ((String.length data <= 4000)%nat ->
     export_screens title data = [Export title None data])
  /\ ((4000 < String.length data)%nat ->
      export_screens title data
      = imap (fun i chunk =>
                Export title (Some (S i, length (match_chunks 4000 data)))
                  chunk)
          (match_chunks 4000 data)
      /\ joined (match_chunks 4000 data) = Js.chars data
      /\ Forall (bounded 4000) (match_chunks 4000 data)
      /\ (forall (i : nat) chunk,
            match_chunks 4000 data !! i = Some chunk ->
            (S i < length (match_chunks 4000 data))%nat ->
            String.length chunk = 4000%nat)).
Proof.
  intros Hs. unfold export_screens. split; intros Hlen.
  - rewrite (proj2 (Nat.ltb_ge 4000 (String.length data))) by exact Hlen.
    reflexivity.
  - rewrite (proj2 (Nat.ltb_lt 4000 (String.length data))) by exact Hlen.
    split; [reflexivity|]. split; [|split].
    + rewrite ExportFacts.match_chunks_joined. apply filter_all.
      eapply Forall_weaken; [|exact Hs]. intros c ->. reflexivity.
    + apply ExportFacts.match_chunks_bounded. lia.
    + intros i chunk Hi Hlast.
      apply (match_go_full 4000 data [] 4000%nat i chunk); try assumption;
        cbn; lia.
Qed.

Lemma export_covers_single_line_body_witness :
  export_screens "SMS Export" "hello" = [Export "SMS Export" None "hello"].
Proof.
  apply (proj1 (export_covers_single_line_body "SMS Export" "hello"
                  ltac:(repeat constructor))).
  cbn. lia.
Defined.

(** X22. An upload to /capture, /video, /file or /gallery/photo without a
    valid header is answered 403 and its temporary file is removed. If the
    file is already gone, /capture still returns, while the other three
    throw ENOENT out of their finally block. *)
Theorem rejected_upload_is_removed round_percent render ep req path e w :
  getDeviceInfo (x_auth req) = None -> file req = Some path ->
  ep = Capture \/ ep = Video \/ ep = File \/ ep = GalleryPhoto ->
  (path ∈ files w ->
     handle round_percent render ep req e w
     = (Ret tt,
        set_files (fun fs => fs ∖ {[path]})
          (record (Respond 403 NoBody) w)))
  /\ (path ∉ files w -> ep <> Capture ->
      handle round_percent render ep req e w
      = (Throw (Error "ENOENT: no such file or directory" None),
         record (Respond 403 NoBody) w))
  /\ (path ∉ files w -> ep = Capture ->
      handle round_percent render ep req e w
      = (Ret tt, record (Respond 403 NoBody) w)).
Proof.
  intros Hauth Hfile Hep. unfold handle, try_finally, try_catch.
  rewrite Hauth. cbn [emit]. split; [|split].
  - intros Hpath.
    destruct Hep as [-> | [-> | [-> | ->]]]; cbn [cleanup]; rewrite Hfile;
      try rewrite bind_run; unfold gets, unlinkSync; cbn [files record];
      cbv beta iota; cbn [files record];
      rewrite ?(bool_decide_eq_true_2 _ Hpath); reflexivity.
  - intros Hpath Hne.
    destruct Hep as [-> | [-> | [-> | ->]]]; [congruence|..]; cbn [cleanup];
      rewrite Hfile; unfold unlinkSync; cbn [files record];
      rewrite (bool_decide_eq_false_2 _ Hpath); reflexivity.
  - intros Hpath ->. cbn [cleanup]. rewrite Hfile, bind_run.
    unfold gets. cbn [files record].
    rewrite (bool_decide_eq_false_2 _ Hpath). reflexivity.
Qed.

Lemma rejected_upload_is_removed_witness :
  handle (fun _ _ => 0) (fun _ _ _ => mret tt) Video
    (Request None (Some "/tmp/upload1") "" 0 0 None) Scenario.quiet
    (World [] ∅ ∅ ∅ ∅ {[ "/tmp/upload1" ]} 0 [])
  = (Ret tt,
     set_files (fun fs => fs ∖ {[ "/tmp/upload1" ]})
       (record (Respond 403 NoBody)
          (World [] ∅ ∅ ∅ ∅ {[ "/tmp/upload1" ]} 0 []))).
Proof.
  apply (proj1 (rejected_upload_is_removed (fun _ _ => 0)
                  (fun _ _ _ => mret tt) Video
                  (Request None (Some "/tmp/upload1") "" 0 0 None)
                  "/tmp/upload1" Scenario.quiet
                  (World [] ∅ ∅ ∅ ∅ {[ "/tmp/upload1" ]} 0 [])
                  eq_refl eq_refl ltac:(right; left; reflexivity))).
  cbn [files]. apply elem_of_singleton. reflexivity.
Defined.

End DeliveryFacts.

(** ** Photo and video uploads *)

Module UploadFacts.
Import Relay Devices Bot Ingress Behaviour Conduct Uploads Report
  BehaviourFacts ConductFacts RunFacts.

Lemma filter_none (key0 : string) (l : list (Z * session)) :
  Forall (fun p => key (snd p) <> key0) l ->
  filter (fun p => key (snd p) = key0) l = [].
Proof.
  induction 1 as [|p l Hp _ IH]; [reflexivity|].
  rewrite filter_cons_False by exact Hp. exact IH.
Qed.

Lemma unheard_sessions key0 e w :
  unheard key0 w -> getActiveSessions key0 e w = (Ret [], w).
Proof.
  unfold unheard, getActiveSessions, gets, jsmap. intros H. cbv beta.
  rewrite (filter_none _ _ H). reflexivity.
Qed.

Lemma unlinkSync_present path e w :
  path ∈ files w ->
  unlinkSync path e w = (Ret tt, set_files (fun fs => fs ∖ {[path]}) w).
Proof. intros H. unfold unlinkSync. rewrite (bool_decide_eq_true_2 _ H). reflexivity. Qed.

Lemma unlinkSync_absent path e w :
  path ∉ files w ->
  unlinkSync path e w
  = (Throw (Error "ENOENT: no such file or directory" None), w).
Proof. intros H. unfold unlinkSync. rewrite (bool_decide_eq_false_2 _ H). reflexivity. Qed.

Lemma file_field_present field req path e w :
  file req = Some path -> file_field field req e w = (Ret path, w).
Proof. intros H. unfold file_field. rewrite H. reflexivity. Qed.

(** X23. When no chat is bound to the key, /capture answers 200 with the
    warning 'No active sessions', removes the file and returns; /video
    answers 200 and removes the file, and its finally block then unlinks the
    file a second time and throws ENOENT. *)
Theorem upload_without_listener round_percent toLocaleTimeString
    deliver_video render req d path e w :
  getDeviceInfo (x_auth req) = Some d ->
  file req = Some path -> path ∈ files w ->
  unheard (auth_key d) w ->
  handle round_percent
    (upload_route toLocaleTimeString deliver_video render) Capture req e w
  = (Ret tt,
     set_files (fun fs => fs ∖ {[path]})
       (record (Respond 200 (OkWarning "No active sessions")) w))
  /\ handle round_percent
       (upload_route toLocaleTimeString deliver_video render) Video req e w
     = (Throw (Error "ENOENT: no such file or directory" None),
        set_files (fun fs => fs ∖ {[path]})
          (record (Respond 200 OkBody) w)).
Proof.
  intros Hd Hfile Hpath Hun.
  assert (Hgone : forall c,
            path ∉ files (set_files (fun fs => fs ∖ {[path]}) (record c w))).
  { intros c Hin. cbn in Hin. apply elem_of_difference in Hin as [_ Hin].
    apply Hin, elem_of_singleton. reflexivity. }
  unfold handle, try_finally, try_catch. rewrite Hd.
  cbn [route upload_route cleanup]. rewrite Hfile. split.
  - unfold capture. rewrite bind_run, (unheard_sessions _ e w Hun).
    rewrite bind_run. unfold emit at 1.
    rewrite bind_run, (file_field_present _ _ _ _ _ Hfile).
    rewrite unlinkSync_present by exact Hpath.
    rewrite bind_run. unfold gets.
    rewrite (bool_decide_eq_false_2 _ (Hgone _)). reflexivity.
  - unfold video. rewrite bind_run, (unheard_sessions _ e w Hun).
    rewrite bind_run. unfold emit at 1.
    rewrite bind_run, (file_field_present _ _ _ _ _ Hfile).
    rewrite unlinkSync_present by exact Hpath.
    rewrite unlinkSync_absent by apply Hgone. reflexivity.
Qed.

Lemma upload_without_listener_witness :
  handle (fun _ _ => 0)
    (upload_route (fun _ => "12:00:00") (fun _ _ _ => mret tt)
       (fun _ _ _ => mret tt)) Video
    (Request (Some "k:dev1") (Some "/tmp/upload1") "" 0 0 None)
    Scenario.quiet (World [] ∅ ∅ ∅ ∅ {[ "/tmp/upload1" ]} 0 [])
  = (Throw (Error "ENOENT: no such file or directory" None),
     set_files (fun fs => fs ∖ {[ "/tmp/upload1" ]})
       (record (Respond 200 OkBody)
          (World [] ∅ ∅ ∅ ∅ {[ "/tmp/upload1" ]} 0 []))).
Proof.
  apply (proj2 (upload_without_listener (fun _ _ => 0) (fun _ => "12:00:00")
                  (fun _ _ _ => mret tt) (fun _ _ _ => mret tt)
                  (Request (Some "k:dev1") (Some "/tmp/upload1") "" 0 0 None)
                  (DeviceAuth "k" "dev1") "/tmp/upload1" Scenario.quiet
                  (World [] ∅ ∅ ∅ ∅ {[ "/tmp/upload1" ]} 0 [])
                  eq_refl eq_refl
                  ltac:(cbn [files]; apply elem_of_singleton; reflexivity)
                  ltac:(constructor))).
Defined.

Section Capture.
Variable toLocaleTimeString : Z -> string.

(** One round of the loop: the pending photo operation of the chat is
    cleared, the photo is sent or the failure swallowed. *)
Lemma deliver_photo_run d req path chat e w :
  file req = Some path -> path ∈ files w ->
  exists w1 rest,
    deliver_photo toLocaleTimeString d req chat e w = (Ret tt, w1)
    /\ activeOperations w1
       = match activeOperations w !! chat with
         | Some o =>
             if decide (op_type o = Some "photo")
             then delete chat (activeOperations w) else activeOperations w
         | None => activeOperations w
         end
    /\ files w1 = files w /\ userSessions w1 = userSessions w
    /\ log w1 = log w ++ rest
    /\ Forall (fun c => exists caption, c = SendMedia "photo" chat caption)
         rest.
Proof.
  intros Hfile Hpath. unfold deliver_photo, try_catch.
  rewrite bind_run. unfold gets at 1.
  set (w0 := match activeOperations w !! chat with
             | Some o =>
                 if decide (op_type o = Some "photo")
                 then set_activeOperations (delete chat) w else w
             | None => w
             end).
  assert (E : (match activeOperations w !! chat with
               | Some o =>
                   if decide (op_type o = Some "photo")
                   then modify (set_activeOperations (delete chat))
                   else mret tt
               | None => mret tt
               end) e w = (Ret tt, w0)).
  { unfold w0. destruct (activeOperations w !! chat) as [o|]; [|reflexivity].
    destruct (decide (op_type o = Some "photo")); reflexivity. }
  assert (H0 : files w0 = files w /\ userSessions w0 = userSessions w
               /\ log w0 = log w
               /\ activeOperations w0
                  = match activeOperations w !! chat with
                    | Some o =>
                        if decide (op_type o = Some "photo")
                        then delete chat (activeOperations w)
                        else activeOperations w
                    | None => activeOperations w
                    end).
  { unfold w0. destruct (activeOperations w !! chat) as [o|]; [|auto].
    destruct (decide (op_type o = Some "photo")); auto. }
  destruct H0 as (Hf0 & Hs0 & Hl0 & Ha0).
  rewrite bind_run, E. cbv beta iota.
  rewrite bind_run, (file_field_present _ _ _ _ _ Hfile).
  rewrite bind_run. unfold readFileSync at 1.
  rewrite bool_decide_eq_true_2 by (rewrite Hf0; exact Hpath).
  rewrite bind_run. unfold date_now at 1.
  rewrite bind_run. unfold perform at 1. cbn [log].
  destruct (outcome e (length (log w0))); cbn;
    eexists _, _; (split; [reflexivity|]); cbn;
    (split; [exact Ha0|]); (split; [exact Hf0|]); (split; [exact Hs0|]);
    rewrite Hl0; (split; [reflexivity|]); repeat constructor; eauto.
Qed.

Lemma deliver_photos_run d req path (sessions : list (Z * session)) :
  forall e w,
  file req = Some path -> path ∈ files w ->
  exists w1 rest,
    for_each (fun p => deliver_photo toLocaleTimeString d req (fst p))
      sessions e w = (Ret tt, w1)
    /\ (forall chat,
          activeOperations w1 !! chat
          = match activeOperations w !! chat with
            | Some o =>
                if decide (chat ∈ sessions.*1 /\ op_type o = Some "photo")
                then None else Some o
            | None => None
            end)
    /\ files w1 = files w /\ userSessions w1 = userSessions w
    /\ log w1 = log w ++ rest
    /\ Forall (fun c => exists chat caption,
                 c = SendMedia "photo" chat caption /\ chat ∈ sessions.*1)
         rest.
Proof.
  induction sessions as [|[c s] sessions IH]; intros e w Hfile Hpath.
  - exists w, []. split; [reflexivity|]. split.
    + intros chat. destruct (activeOperations w !! chat); [|reflexivity].
      rewrite decide_False; [reflexivity|]. rewrite fmap_nil.
      intros [H _]. apply elem_of_nil in H. exact H.
    + rewrite app_nil_r. repeat split. constructor.
  - cbn [for_each fst]. rewrite bind_run.
    destruct (deliver_photo_run d req path c e w Hfile Hpath)
      as (w0 & rest0 & -> & Ha0 & Hf0 & Hs0 & Hl0 & Hc0).
    destruct (IH e w0 Hfile ltac:(rewrite Hf0; exact Hpath))
      as (w1 & rest1 & -> & Ha1 & Hf1 & Hs1 & Hl1 & Hc1).
    exists w1, (rest0 ++ rest1). split; [reflexivity|].
    split; [|split; [congruence|split; [congruence|split]]].
    + intros chat. rewrite Ha1, Ha0, fmap_cons. cbn [fst].
      destruct (decide (chat = c)) as [->|Hne].
      * destruct (activeOperations w !! c) as [o|] eqn:Ho.
        -- destruct (decide (op_type o = Some "photo")) as [Hp|Hp].
           ++ rewrite lookup_delete_eq.
              rewrite decide_True; [reflexivity|]. split; [left|exact Hp].
           ++ rewrite Ho. rewrite !decide_False; tauto.
        -- rewrite Ho. reflexivity.
      * assert (Hin : chat ∈ c :: sessions.*1 <-> chat ∈ sessions.*1).
        { rewrite elem_of_cons. tauto. }
        destruct (activeOperations w !! c) as [o|] eqn:Ho.
        -- destruct (decide (op_type o = Some "photo")).
           ++ rewrite lookup_delete_ne by congruence.
              destruct (activeOperations w !! chat); [|reflexivity].
              apply decide_ext. tauto.
           ++ destruct (activeOperations w !! chat); [|reflexivity].
              apply decide_ext. tauto.
        -- destruct (activeOperations w !! chat); [|reflexivity].
           apply decide_ext. tauto.
    + rewrite Hl1, Hl0, app_assoc. reflexivity.
    + apply Forall_app. split.
      * eapply Forall_weaken; [|exact Hc0]. intros x [cap ->].
        exists c, cap. split; [reflexivity|]. rewrite fmap_cons. left.
      * eapply Forall_weaken; [|exact Hc1]. intros x (ch & cap & -> & Hin).
        exists ch, cap. split; [reflexivity|]. rewrite fmap_cons. right.
        exact Hin.
Qed.

End Capture.

(** X24. When some chat is bound to the key, /capture clears the pending
    photo operation of every bound chat and of no other chat, sends photos
    only to bound chats, answers 200 {ok: true} and removes the file,
    whether or not Telegram accepts the photos. *)
Theorem capture_clears_photo_operations round_percent toLocaleTimeString
    deliver_video render req d path e w :
  getDeviceInfo (x_auth req) = Some d ->
  file req = Some path -> path ∈ files w ->
  ~ unheard (auth_key d) w ->
  exists w' rest,
    handle round_percent
      (upload_route toLocaleTimeString deliver_video render) Capture req e w
    = (Ret tt, w')
    /\ (forall chat, awaits_photo (auth_key d) chat w ->
          activeOperations w' !! chat = None)
    /\ (forall chat, ~ awaits_photo (auth_key d) chat w ->
          activeOperations w' !! chat = activeOperations w !! chat)
    /\ files w' = files w ∖ {[path]}
    /\ log w' = log w ++ rest ++ [Respond 200 OkBody]
    /\ Forall (fun c => exists chat caption s,
                 c = SendMedia "photo" chat caption
                 /\ (chat, s) ∈ userSessions w /\ key s = auth_key d) rest.
Proof.
  intros Hd Hfile Hpath Hheard.
  unfold handle, try_finally, try_catch. rewrite Hd.
  cbn [route upload_route cleanup]. rewrite Hfile.
  unfold capture. rewrite bind_run. unfold getActiveSessions, gets at 1.
  cbv beta iota.
  set (sessions := filter (fun p => key (snd p) = auth_key d)
                     (userSessions w)).
  assert (Hsessions : forall chat,
            chat ∈ sessions.*1
            <-> exists s, (chat, s) ∈ userSessions w /\ key s = auth_key d).
  { intros chat. unfold sessions. rewrite list_elem_of_fmap. split.
    - intros ([c s] & -> & Hin). apply list_elem_of_filter in Hin as [Hk Hin].
      exists s. split; assumption.
    - intros (s & Hin & Hk). exists (chat, s). split; [reflexivity|].
      apply list_elem_of_filter. split; assumption. }
  destruct (deliver_photos_run toLocaleTimeString d req path sessions e w
              Hfile Hpath)
    as (w1 & rest & Hrun & Ha & Hf & Hs & Hl & Hc).
  destruct sessions as [|p sessions'] eqn:Hsess.
  { exfalso. apply Hheard. unfold unheard. apply Forall_forall.
    intros [c s] Hin Hk.
    assert (Hc' : c ∈ (@nil (Z * session)).*1)
      by (apply Hsessions; exists s; split; assumption).
    apply elem_of_nil in Hc'. exact Hc'. }
  rewrite bind_run, Hrun. unfold emit at 1. rewrite bind_run. unfold gets.
  cbn [files record]. rewrite bool_decide_eq_true_2 by (rewrite Hf; exact Hpath).
  rewrite unlinkSync_present by (cbn [files record]; rewrite Hf; exact Hpath).
  eexists _, rest. split; [reflexivity|]. cbn.
  split; [|split; [|split; [rewrite Hf; reflexivity|split]]].
  - intros chat ((s & Hin & Hk) & (o & Ho & Hp)). rewrite Ha, Ho.
    rewrite decide_True; [reflexivity|]. split; [|exact Hp].
    apply Hsessions. exists s. split; assumption.
  - intros chat Hno. rewrite Ha.
    destruct (activeOperations w !! chat) as [o|] eqn:Ho; [|reflexivity].
    rewrite decide_False; [reflexivity|]. intros [Hin Hp]. apply Hno.
    split; [apply Hsessions, Hin|]. exists o. split; [exact Ho|exact Hp].
  - rewrite Hl, <- app_assoc. reflexivity.
  - eapply Forall_weaken; [|exact Hc]. intros x (chat & cap & -> & Hin).
    apply Hsessions in Hin as (s & Hin & Hk). exists chat, cap, s. auto.
Qed.

Lemma capture_clears_photo_operations_witness :
  exists w',
    handle (fun _ _ => 0)
      (upload_route (fun _ => "12:00:00") (fun _ _ _ => mret tt)
         (fun _ _ _ => mret tt)) Capture
      (Request (Some "k:dev1") (Some "/tmp/upload1") "" 0 0 None)
      Scenario.quiet
      (World [(7, Session "k" (Some "dev1") 0 None)] ∅ ∅
         {[ 7 := Operation (Some "photo") 0 (Some "dev1") ]} ∅
         {[ "/tmp/upload1" ]} 0 [])
    = (Ret tt, w')
    /\ activeOperations w' !! 7 = None.
Proof.
  destruct (capture_clears_photo_operations (fun _ _ => 0)
              (fun _ => "12:00:00") (fun _ _ _ => mret tt)
              (fun _ _ _ => mret tt)
              (Request (Some "k:dev1") (Some "/tmp/upload1") "" 0 0 None)
              (DeviceAuth "k" "dev1") "/tmp/upload1" Scenario.quiet
              (World [(7, Session "k" (Some "dev1") 0 None)] ∅ ∅
                 {[ 7 := Operation (Some "photo") 0 (Some "dev1") ]} ∅
                 {[ "/tmp/upload1" ]} 0 [])
              eq_refl eq_refl
              ltac:(cbn [files]; apply elem_of_singleton; reflexivity)
              ltac:(intros H; exact (List.Forall_inv H eq_refl)))
    as (w' & rest & H1 & H2 & _).
  exists w'. split; [exact H1|]. apply H2. split.
  - exists (Session "k" (Some "dev1") 0 None). split; [|reflexivity].
    apply list_elem_of_here.
  - exists (Operation (Some "photo") 0 (Some "dev1")).
    split; reflexivity.
Defined.

End UploadFacts.

(** ** The permission report *)

Module ReportFacts.
Import Relay Devices Bot Ingress Behaviour Conduct Report BehaviourFacts
  ConductFacts RunFacts.

Lemma segments_drawable round_percent perms e w :
  drawable round_percent perms ->
  segments (permissionPercentage round_percent perms) e w
  = (Ret (match permissionPercentage round_percent perms with
          | Some p => (Z.to_nat (p / 10), Z.to_nat (10 - p / 10))
          | None => (O, O)
          end), w).
Proof.
  intros Hd. unfold segments.
  destruct (permissionPercentage round_percent perms) as [p|] eqn:Hp;
    [|reflexivity].
  rewrite bool_decide_eq_true_2 by (apply Hd; exact Hp). reflexivity.
Qed.

(** X25. /json/permissions with a permission object edits the message of the
    request once. It then answers 200 when the edit succeeds, 500 with the
    error message when the edit fails, and sends no HTTP response at all
    when the failure is 'message is not modified'. The granted and denied
    lists together have as many entries as the object. *)
Theorem permission_report_responses round_percent render req d perms e w :
  getDeviceInfo (x_auth req) = Some d ->
  permissions req = Some perms ->
  drawable round_percent perms ->
  let shown :=
    EditMessageText (chat_id req) (msg_id req)
      (report_screen round_percent d perms (clock e (ticks w))) in
  (forall id, outcome e (length (log w)) = Done id ->
     handle round_percent render JsonPermissions req e w
     = (Ret tt, extend (tick w) [shown; Respond 200 OkBody]))
  /\ (forall err, outcome e (length (log w)) = Thrown err ->
        Bot.not_modified err = true ->
        handle round_percent render JsonPermissions req e w
        = (Ret tt, extend (tick w) [shown]))
  /\ (forall err, outcome e (length (log w)) = Thrown err ->
        Bot.not_modified err = false ->
        handle round_percent render JsonPermissions req e w
        = (Ret tt,
           extend (tick w)
             [shown; Respond 500 (ErrorBody (Relay.message err))]))
  /\ (length (filter (fun p => snd p = true) perms)
      + length (filter (fun p => snd p = false) perms)
      = length perms)%nat.
Proof.
  intros Hd Hperms Hdraw shown.
  assert (E : handle round_percent render JsonPermissions req e w
              = match outcome e (length (log w)) with
                | Done _ =>
                    (Ret tt, extend (tick w) [shown; Respond 200 OkBody])
                | Thrown err =>
                    if Bot.not_modified err
                    then (Ret tt, extend (tick w) [shown])
                    else (Ret tt,
                          extend (tick w)
                            [shown; Respond 500 (ErrorBody (Relay.message err))])
                end).
  { unfold handle, try_finally. rewrite Hd. cbn [route cleanup].
    unfold permissions_report. rewrite Hperms.
    unfold try_catch at 1. rewrite bind_run. unfold date_now at 1.
    rewrite bind_run, (segments_drawable _ _ _ _ Hdraw).
    rewrite bind_run. unfold try_catch at 1. rewrite bind_run.
    unfold perform at 1. cbn [log]. fold (tick w).
    destruct (outcome e (length (log w))) as [id|err].
    - cbn. unfold extend, record. cbn. rewrite <- app_assoc. reflexivity.
    - cbv beta iota. destruct (Bot.not_modified err).
      + reflexivity.
      + cbn. unfold extend, record. cbn. rewrite <- app_assoc.
        reflexivity. }
  rewrite E. split; [|split; [|split]].
  - intros id ->. reflexivity.
  - intros err -> ->. reflexivity.
  - intros err -> ->. reflexivity.
  - clear. induction perms as [|[name []] perms IH]; [reflexivity|..].
    + rewrite filter_cons_True by reflexivity.
      rewrite filter_cons_False by discriminate. cbn [length]. lia.
    + rewrite filter_cons_False by discriminate.
      rewrite filter_cons_True by reflexivity. cbn [length]. lia.
Qed.

Lemma permission_report_responses_witness :
  handle (fun _ _ => 50) (fun _ _ _ => mret tt) JsonPermissions
    (Request (Some "k:dev1") None "" 7 42
       (Some [("camera", true); ("location", false)]))
    Scenario.quiet Scenario.fresh
  = (Ret tt,
     extend (tick Scenario.fresh)
       [EditMessageText 7 42
          (report_screen (fun _ _ => 50) (DeviceAuth "k" "dev1")
             [("camera", true); ("location", false)] 1000);
        Respond 200 OkBody]).
Proof.
  refine (proj1 (permission_report_responses (fun _ _ => 50)
                   (fun _ _ _ => mret tt)
                   (Request (Some "k:dev1") None "" 7 42
                      (Some [("camera", true); ("location", false)]))
                   (DeviceAuth "k" "dev1")
                   [("camera", true); ("location", false)]
                   Scenario.quiet Scenario.fresh eq_refl eq_refl _)
            100 eq_refl).
  intros p Hp. injection Hp as <-. vm_compute. split; discriminate.
Defined.

End ReportFacts.

(** ** Stored permissions come first *)

Module StoredFacts.
Import Relay Devices Bot Behaviour Conduct Stored BehaviourFacts
  ConductFacts RunFacts CommandFacts InboxFacts.

Lemma callback_body_check cb chat msg e w :
  callback_body (CallbackQuery cb "check_permissions" chat msg) e w
  = check_permissions cb chat msg e w.
Proof. reflexivity. Qed.

(** X26. For a chat with a selected device and with every call accepted,
    check_permissions reads devices/<key>/<device>/info once. If it holds a
    non-empty permission object, that object is shown and nothing is sent to
    the device; otherwise the scanning screen is shown and the command
    check_permissions is queued. *)
Theorem check_permissions_store_first cb chat msg s dev e w :
  controls chat s dev w -> accepting e ->
  let q := CallbackQuery cb "check_permissions" chat msg in
  let asked :=
    [AnswerCallbackQuery cb "Checking permissions..." false;
     DbOnce (devicePath (key s) dev +:+ "/info")] in
  (stored_permissions e (key s) dev <> [] ->
     callback_query q e w
     = (Ret tt,
        extend (tick w)
          (asked ++
           [EditMessageText chat msg
              (CurrentPermissions (clock e (ticks w))
                 (stored_permissions e (key s) dev)
                 (stored_battery_optimization e (key s) dev)
                 (Js.slice0 6 dev))])))
  /\ (stored_permissions e (key s) dev = [] ->
      callback_query q e w
      = (Ret tt,
         extend (tick w)
           (asked ++
            [EditMessageText chat msg ScanningPermissions;
             DbUpdate (devicePath (key s) dev) "check_permissions" chat msg
               (clock e (ticks w))]))).
Proof.
  intros (Hs & Hdev & Hne) He q asked.
  destruct s as [k sel la lc]. cbn in Hdev. subst sel. cbn [key].
  unfold stored_permissions, stored_battery_optimization.
  assert (E : forall A (m : M A) (h : error -> M A) w0,
            try_catch m h e w0
            = match m e w0 with
              | (Ret a, w') => (Ret a, w')
              | (Throw err, w') => h err e w'
              end) by reflexivity.
  assert (Hhead : callback_query q e w
          = let w1 := extend w asked in
            match
              match default [] (store_info e k dev ≫= info_permissions) with
              | [] => (Ret false, w1)
              | perms =>
                  (Ret true,
                   extend (tick w1)
                     [EditMessageText chat msg
                        (CurrentPermissions (clock e (ticks w)) perms
                           (or_string
                              (store_info e k dev
                               ≫= info_battery_optimization) "unknown")
                           (Js.slice0 6 dev))])
              end
            with
            | (Ret true, w2) => (Ret tt, w2)
            | (Ret false, w2) =>
                (Ret tt,
                 extend (tick w2)
                   [EditMessageText chat msg ScanningPermissions;
                    DbUpdate (devicePath k dev) "check_permissions" chat msg
                      (clock e (ticks w2))])
            | (Throw err, w2) => (Throw err, w2)
            end).
  { unfold callback_query, q. rewrite E, callback_body_check.
    unfold check_permissions. rewrite E.
    rewrite bind_run, (answer_run _ He). cbv beta iota.
    rewrite bind_run. unfold gets at 1.
    change (userSessions (extend w _)) with (userSessions w). rewrite Hs.
    cbv beta iota. rewrite (truthy_nonempty dev Hne).
    rewrite bind_run, E.
    rewrite bind_run, (perform_accepting _ _ _ He). cbv beta iota.
    rewrite bind_run. unfold asks at 1. cbv beta iota.
    destruct (default [] (store_info e k dev ≫= info_permissions))
      as [|perm perms] eqn:Hperms; cbv beta iota.
    - cbn [mret M_ret].
      rewrite bind_run, (editMessageText_run _ He). cbv beta iota.
      rewrite (queue_run _ He). cbn.
      unfold extend, asked. cbn. rewrite <- !app_assoc. reflexivity.
    - rewrite (bind_run date_now). unfold date_now at 1. cbv beta iota.
      rewrite E.
      match goal with
      | |- context [(?m ≫= ?f) ?e0 ?w0] => rewrite (bind_run m f e0 w0)
      end.
      rewrite (editMessageText_run _ He). cbn.
      unfold extend, asked. cbn. rewrite <- !app_assoc. reflexivity. }
  rewrite Hhead. clear Hhead E. split; intros Hstored.
  - destruct (default [] (store_info e k dev ≫= info_permissions))
      as [|perm perms]; [congruence|].
    cbn. unfold extend, asked. cbn. rewrite <- !app_assoc. reflexivity.
  - rewrite Hstored. cbn. unfold extend, asked. cbn.
    rewrite <- !app_assoc. reflexivity.
Qed.

Lemma check_permissions_store_first_witness :
  callback_query (CallbackQuery "cb1" "check_permissions" 7 42)
    Scenario.quiet Scenario.logged_in
  = (Ret tt,
     extend (tick Scenario.logged_in)
       [AnswerCallbackQuery "cb1" "Checking permissions..." false;
        DbOnce "devices/k/dev1/info";
        EditMessageText 7 42 ScanningPermissions;
        DbUpdate "devices/k/dev1" "check_permissions" 7 42 1000]).
Proof.
  refine (proj2 (check_permissions_store_first "cb1" 7 42
                   (Session "k" (Some "dev1") 0 None) "dev1"
                   Scenario.quiet Scenario.logged_in _ quiet_accepting)
            eq_refl).
  repeat split. discriminate.
Defined.

End StoredFacts.

(** ** Refreshing the last command *)

Module RefreshFacts.
Import Relay Devices Bot Behaviour Conduct BehaviourFacts ConductFacts
  RunFacts SessionFacts SelectionFacts CommandFacts.

(** What [refresh_current] does for a chat with a selected device. *)
Lemma refresh_run cb chat msg s dev e w :
  accepting e ->
  map_get chat (userSessions w) = Some s -> key s <> "" ->
  selectedDevice s = Some dev -> dev <> "" ->
  callback_query (CallbackQuery cb "refresh_current" chat msg) e w
  = let w1 :=
      extend
        (set_userSessions
           (map_alter (fun s0 => Session (key s0) (selectedDevice s0)
                                   (clock e (ticks w)) (lastCommand s0))
              chat) (tick w))
        [AnswerCallbackQuery cb "🔄 Refreshing..." false] in
    match lastCommand s with
    | Some last =>
        if Js.truthy last
        then queue (devicePath (key s) dev) last chat msg e w1
        else editMessageText chat msg NothingToRefresh e w1
    | None => editMessageText chat msg NothingToRefresh e w1
    end.
Proof.
  intros He Hs Hk Hdev Hne.
  assert (Hbody :
    callback_body (CallbackQuery cb "refresh_current" chat msg) e w
    = (updateActivity chat;;
       execute cb "refresh_current" chat msg s dev) e w).
  { apply (callback_body_execute
             (CallbackQuery cb "refresh_current" chat msg) s dev e w);
      try assumption; try reflexivity.
    apply (bool_decide_unpack _). vm_compute. exact I. }
  assert (Hrun :
    (updateActivity chat;; execute cb "refresh_current" chat msg s dev) e w
    = let w1 :=
        extend
          (set_userSessions
             (map_alter (fun s0 => Session (key s0) (selectedDevice s0)
                                     (clock e (ticks w)) (lastCommand s0))
                chat) (tick w))
          [AnswerCallbackQuery cb "🔄 Refreshing..." false] in
      match lastCommand s with
      | Some last =>
          if Js.truthy last
          then queue (devicePath (key s) dev) last chat msg e w1
          else editMessageText chat msg NothingToRefresh e w1
      | None => editMessageText chat msg NothingToRefresh e w1
      end).
  { rewrite bind_run, (updateActivity_run _ s e w Hs).
    unfold execute.
    change (commandMap "refresh_current") with
      (@None (option string * option string)).
    change (isCommand "refresh_current") with false.
    change (Js.startsWith "refresh_current" "gallery_custom_") with false.
    rewrite (bool_decide_eq_false_2
               ("refresh_current" = "rec_front"
                ∨ "refresh_current" = "rec_back"))
      by (intros [H|H]; discriminate H).
    rewrite (bool_decide_eq_true_2 ("refresh_current" = "refresh_current"))
      by reflexivity.
    cbv iota. rewrite bind_run, (answer_run _ He). cbv beta iota.
    rewrite bind_run. unfold gets at 1. cbv beta iota.
    cbn [userSessions extend set_userSessions tick].
    rewrite map_get_alter, Hs. cbn [option_map fmap option_fmap].
    rewrite Hdev. cbn [default].
    destruct (lastCommand s) as [last|]; [destruct (Js.truthy last)|];
      reflexivity. }
  unfold callback_query, try_catch. rewrite Hbody, Hrun. cbv zeta.
  destruct (lastCommand s) as [last|].
  - destruct (Js.truthy last).
    + rewrite (queue_run _ He). reflexivity.
    + rewrite (editMessageText_run _ He). reflexivity.
  - rewrite (editMessageText_run _ He). reflexivity.
Qed.

(** The calls of [refresh_current], by the command the session
    remembers. *)
Lemma refresh_log cb chat msg s dev e w :
  accepting e ->
  map_get chat (userSessions w) = Some s -> key s <> "" ->
  selectedDevice s = Some dev -> dev <> "" ->
  (forall last, lastCommand s = Some last -> last <> "" ->
     exists w',
       callback_query (CallbackQuery cb "refresh_current" chat msg) e w
       = (Ret tt, w')
       /\ log w'
          = log w
            ++ [AnswerCallbackQuery cb "🔄 Refreshing..." false;
                DbUpdate (devicePath (key s) dev) last chat msg
                  (clock e (S (ticks w)))])
  /\ (lastCommand s = None \/ lastCommand s = Some "" ->
      exists w',
        callback_query (CallbackQuery cb "refresh_current" chat msg) e w
        = (Ret tt, w')
        /\ log w'
           = log w
             ++ [AnswerCallbackQuery cb "🔄 Refreshing..." false;
                 EditMessageText chat msg NothingToRefresh]).
Proof.
  intros He Hs Hk Hdev Hne.
  rewrite (refresh_run cb chat msg s dev e w He Hs Hk Hdev Hne). cbv zeta.
  split.
  - intros last -> Hlast.
    assert (Js.truthy last = true) as ->
      by (unfold Js.truthy; destruct last; [congruence|reflexivity]).
    rewrite (queue_run _ He). eexists. split; [reflexivity|].
    cbn. rewrite <- app_assoc. reflexivity.
  - intros [-> | ->]; cbn [Js.truthy]; rewrite (editMessageText_run _ He);
      (eexists; split; [reflexivity|]); cbn; rewrite <- app_assoc;
      reflexivity.
Qed.

(** X27. With a selected device and every call accepted, refresh_current
    queues the session's lastCommand again for the selected device; when the
    session remembers none it shows 'No previous command to refresh' and
    queues nothing. *)
Theorem refresh_repeats_remembered_command cb chat msg s dev e w :
  accepting e ->
  map_get chat (userSessions w) = Some s -> key s <> "" ->
  selectedDevice s = Some dev -> dev <> "" ->
  (forall last, lastCommand s = Some last -> last <> "" ->
     exists w',
       callback_query (CallbackQuery cb "refresh_current" chat msg) e w
       = (Ret tt, w')
       /\ log w'
          = log w
            ++ [AnswerCallbackQuery cb "🔄 Refreshing..." false;
                DbUpdate (devicePath (key s) dev) last chat msg
                  (clock e (S (ticks w)))])
  /\ (lastCommand s = None \/ lastCommand s = Some "" ->
      exists w',
        callback_query (CallbackQuery cb "refresh_current" chat msg) e w
        = (Ret tt, w')
        /\ log w'
           = log w
             ++ [AnswerCallbackQuery cb "🔄 Refreshing..." false;
                 EditMessageText chat msg NothingToRefresh]).
Proof. apply refresh_log. Qed.

Lemma refresh_repeats_remembered_command_witness :
  exists w',
    callback_query (CallbackQuery "cb1" "refresh_current" 7 42)
      Scenario.quiet Scenario.logged_in
    = (Ret tt, w')
    /\ log w'
       = [AnswerCallbackQuery "cb1" "🔄 Refreshing..." false;
          EditMessageText 7 42 NothingToRefresh].
Proof.
  apply (proj2 (refresh_repeats_remembered_command "cb1" 7 42
                  (Session "k" (Some "dev1") 0 None) "dev1"
                  Scenario.quiet Scenario.logged_in quiet_accepting
                  eq_refl ltac:(discriminate) eq_refl ltac:(discriminate))).
  left. reflexivity.
Defined.

(** What a command leaves in the session of its chat. *)
Lemma command_session q s dev e w :
  accepting e ->
  data q ∉ pre_session ++ navigation ->
  Js.startsWith (data q) "select_" = false ->
  map_get (cq_chat q) (userSessions w) = Some s -> key s <> "" ->
  selectedDevice s = Some dev -> dev <> "" ->
  commandMap (data q) <> None \/ isCommand (data q) = true ->
  exists w',
    callback_query q e w = (Ret tt, w')
    /\ map_get (cq_chat q) (userSessions w')
       = Some (Session (key s) (Some dev) (clock e (ticks w))
                 (match commandMap (data q) with
                  | Some _ => lastCommand s
                  | None => Some (data q)
                  end)).
Proof.
  intros He Hd Hsel Hs Hk Hdev Hne Hcmd.
  unfold callback_query, try_catch.
  rewrite (callback_body_execute q s dev e w Hd Hsel Hs Hk Hdev Hne).
  rewrite bind_run, (updateActivity_run _ s e w Hs).
  unfold execute.
  destruct (commandMap (data q)) as [[type msg]|].
  - accept He. eexists. split; [reflexivity|]. cbn.
    rewrite map_get_alter, Hs. cbn. rewrite Hdev. reflexivity.
  - destruct Hcmd as [Hcmd | ->]; [congruence|]. accept He.
    eexists. split; [reflexivity|]. cbn.
    rewrite !map_get_alter, Hs. cbn. rewrite Hdev. reflexivity.
Qed.

(** X28. For a chat with a keyed session and a selected device, with every
    call accepted, and for an identifier that no earlier branch answers:
    refresh_current pressed after a prefix command queues that command
    again, but pressed after a commandMap command in a session that
    remembers nothing it finds no previous command: the commandMap branch
    does not store lastCommand. *)
Theorem refresh_follows_listings_only q cb msg s dev e w :
  accepting e ->
  data q ∉ pre_session ++ navigation ->
  Js.startsWith (data q) "select_" = false ->
  map_get (cq_chat q) (userSessions w) = Some s -> key s <> "" ->
  selectedDevice s = Some dev -> dev <> "" ->
  let refresh := CallbackQuery cb "refresh_current" (cq_chat q) msg in
  (commandMap (data q) = None -> isCommand (data q) = true ->
     exists w1 w2,
       callback_query q e w = (Ret tt, w1)
       /\ callback_query refresh e w1 = (Ret tt, w2)
       /\ log w2
          = log w1
            ++ [AnswerCallbackQuery cb "🔄 Refreshing..." false;
                DbUpdate (devicePath (key s) dev) (data q) (cq_chat q) msg
                  (clock e (S (ticks w1)))])
  /\ (commandMap (data q) <> None -> lastCommand s = None ->
      exists w1 w2,
        callback_query q e w = (Ret tt, w1)
        /\ callback_query refresh e w1 = (Ret tt, w2)
        /\ log w2
           = log w1
             ++ [AnswerCallbackQuery cb "🔄 Refreshing..." false;
                 EditMessageText (cq_chat q) msg NothingToRefresh]).
Proof.
  intros He Hd Hsel Hs Hk Hdev Hne refresh. split.
  - intros Hmap Hcmd.
    destruct (command_session q s dev e w He Hd Hsel Hs Hk Hdev Hne
                (or_intror Hcmd)) as (w1 & Hrun & Hs1).
    rewrite Hmap in Hs1.
    assert (Hdata : data q <> "").
    { intros Hempty. rewrite Hempty in Hcmd. discriminate Hcmd. }
    destruct (proj1 (refresh_log cb (cq_chat q) msg _ dev e w1 He Hs1 Hk
                       eq_refl Hne) (data q) eq_refl Hdata)
      as (w2 & Hrun2 & Hlog2).
    exists w1, w2. split; [exact Hrun|]. split; [exact Hrun2|exact Hlog2].
  - intros Hmap Hlast.
    destruct (command_session q s dev e w He Hd Hsel Hs Hk Hdev Hne
                (or_introl Hmap)) as (w1 & Hrun & Hs1).
    destruct (commandMap (data q)) as [tm|]; [|congruence].
    destruct (proj2 (refresh_log cb (cq_chat q) msg _ dev e w1 He Hs1 Hk
                       eq_refl Hne) (or_introl Hlast))
      as (w2 & Hrun2 & Hlog2).
    exists w1, w2. split; [exact Hrun|]. split; [exact Hrun2|exact Hlog2].
Qed.

Lemma refresh_follows_listings_only_witness :
  exists w1 w2,
    callback_query (CallbackQuery "cb1" "gopics_camera_010" 7 42)
      Scenario.quiet Scenario.logged_in = (Ret tt, w1)
    /\ callback_query (CallbackQuery "cb2" "refresh_current" 7 43)
         Scenario.quiet w1 = (Ret tt, w2)
    /\ log w2
       = log w1
         ++ [AnswerCallbackQuery "cb2" "🔄 Refreshing..." false;
             DbUpdate "devices/k/dev1" "gopics_camera_010" 7 43 1000].
Proof.
  apply (proj1 (refresh_follows_listings_only
                  (CallbackQuery "cb1" "gopics_camera_010" 7 42) "cb2" 43
                  (Session "k" (Some "dev1") 0 None) "dev1"
                  Scenario.quiet Scenario.logged_in quiet_accepting
                  ltac:(apply (bool_decide_unpack _); vm_compute; exact I)
                  eq_refl eq_refl ltac:(discriminate) eq_refl
                  ltac:(discriminate)) eq_refl eq_refl).
Defined.

End RefreshFacts.
